(** * Tensr: a shallow embedding of the C tensor engine

    The development follows the C sources of the library
    (src/core/tensor.c, src/core/array.c, src/ops/arithmetic.c,
    src/ops/reduction.c, src/linalg/linalg.c, src/fft/fft.c,
    src/random/random.c, src/io/io.c, src/backend/device.c).
    [tensr_print] (formatted output), [tensr_free] (the allocator hands out
    blocks and takes none back) and [tensr_synchronize] (an empty body) have
    no counterpart here.

    Platform assumptions (LP64, little endian): [size_t] is 64 bits wide and
    wraps around, [int] and the enumerations are 32 bits wide, [float] and
    [double] are IEEE-754 binary32 and binary64 with round-to-nearest-even.
    A buffer ([void* data]) is a list of bytes; elements are read and written
    through it as little-endian words of the width of the dtype.  Floating
    expressions are evaluated operation by operation in the type of the
    expression (no fused multiply-add, no excess precision); overflow of a
    signed integer operation wraps around.  [malloc], the file system, the
    clock, the generator of the C library and the functions of its
    mathematical library are the environment and are arguments of the
    functions that use them. *)

From Stdlib Require Import String ZArith List Lia Bool Permutation.
From Stdlib Require Import Floats.SpecFloat.
From coqutil Require Import Byte Word.LittleEndianList.
Import ListNotations.
Local Open Scope Z_scope.

(** ** Outcomes of C code

    A C function either returns a value or runs into undefined behaviour
    (an access outside an allocated block, a write through NULL, the use of
    an indeterminate value, an integer division by zero).  A returned
    pointer is an [option]: [None] is NULL. *)

Inductive result (A : Type) : Type :=
| Ret (a : A)
| Undef.
Arguments Ret {A} a.
Arguments Undef {A}.

Definition bindR {A B : Type} (r : result A) (k : A -> result B) : result B :=
  match r with
  | Ret a => k a
  | Undef => Undef
  end.

Notation "x <~ e ;; k" := (bindR e (fun x => k))
  (at level 61, e at next level, right associativity).
Notation "' p <~ e ;; k" := (bindR e (fun x => match x with p => k end))
  (at level 61, p pattern, e at next level, right associativity).

(** ** The allocator

    [malloc] is part of the environment.  The heap is the list of the
    answers the allocator gives to the coming calls: [None] when the call
    returns NULL, [Some junk] when it returns a block, whose uninitialised
    byte at offset [k] is [junk k].  An exhausted list is an exhausted
    memory. *)

Definition Heap : Type := list (option (nat -> byte)).

Definition M (A : Type) : Type := Heap -> result (A * Heap).

Definition ret {A : Type} (a : A) : M A := fun h => Ret (a, h).

Definition bind {A B : Type} (m : M A) (k : A -> M B) : M B :=
  fun h => match m h with
           | Ret (a, h') => k a h'
           | Undef => Undef
           end.

Definition lift {A : Type} (r : result A) : M A :=
  fun h => match r with
           | Ret a => Ret (a, h)
           | Undef => Undef
           end.

Notation "x <- e ;; k" := (bind e (fun x => k))
  (at level 61, e at next level, right associativity).
Notation "' p <- e ;; k" := (bind e (fun x => match x with p => k end))
  (at level 61, p pattern, e at next level, right associativity).

Definition malloc (n : Z) : M (option (list byte)) :=
  fun h => match h with
           | [] => Ret (None, [])
           | None :: h' => Ret (None, h')
           | Some junk :: h' => Ret (Some (map junk (seq 0 (Z.to_nat n))), h')
           end.

(** ** Machine integers *)

Definition size_t (z : Z) : Z := z mod 2 ^ 64.

(** [(int)x] for a 64-bit [x]: the low 32 bits, read as two's complement. *)
Definition to_int (z : Z) : Z := (z + 2 ^ 31) mod 2 ^ 32 - 2 ^ 31.

(** ** Loops *)

(** [for (i = lo; i < lo + n; i++) body] *)
Fixpoint for_loop {St : Type} (n : nat) (i : Z) (body : Z -> St -> result St) (s : St)
  : result St :=
  match n with
  | O => Ret s
  | S n' => s' <~ body i s ;; for_loop n' (i + 1) body s'
  end.

(** [for (i = n - 1; i >= 0; i--) body] *)
Fixpoint for_down {St : Type} (n : nat) (body : Z -> St -> result St) (s : St)
  : result St :=
  match n with
  | O => Ret s
  | S n' => s' <~ body (Z.of_nat n') s ;; for_down n' body s'
  end.

(** ** Arrays of [size_t] (shape, strides, axes) *)

Definition arr_get (a : list Z) (i : Z) : result Z :=
  if i <? 0 then Undef
  else match nth_error a (Z.to_nat i) with
       | Some v => Ret v
       | None => Undef
       end.

Fixpoint upd (a : list Z) (i : nat) (v : Z) : list Z :=
  match a, i with
  | [], _ => []
  | _ :: a', O => v :: a'
  | x :: a', S i' => x :: upd a' i' v
  end.

Definition arr_set (a : list Z) (i : Z) (v : Z) : result (list Z) :=
  if (0 <=? i) && (i <? Z.of_nat (length a)) then Ret (upd a (Z.to_nat i) v)
  else Undef.

(** The [n] little-endian 64-bit words held by a block of bytes. *)
Fixpoint le_words (n : nat) (b : list byte) : list Z :=
  match n with
  | O => []
  | S n' => le_combine (firstn 8 b) :: le_words n' (skipn 8 b)
  end.

(** ** Typed access to a buffer: [((T* )buf)[i]] for a [w]-byte type [T] *)

Definition in_bounds (w : nat) (buf : list byte) (i : Z) : bool :=
  (0 <=? i) && (i * Z.of_nat w + Z.of_nat w <=? Z.of_nat (length buf)).

Definition load (w : nat) (buf : list byte) (i : Z) : result Z :=
  if in_bounds w buf i
  then Ret (le_combine (firstn w (skipn (Z.to_nat i * w) buf)))
  else Undef.

Definition store (w : nat) (buf : list byte) (i : Z) (v : Z) : result (list byte) :=
  if in_bounds w buf i
  then Ret (firstn (Z.to_nat i * w) buf ++ le_split w v
              ++ skipn (Z.to_nat i * w + w) buf)
  else Undef.

(** ** The type registry (tensr.h) *)

(** A dtype is kept as the integer of the enumeration: [tensr_load] reads
    it from the file as it is. *)
Definition TensrDType : Type := Z.
Definition TENSR_FLOAT32 : TensrDType := 0.
Definition TENSR_FLOAT64 : TensrDType := 1.
Definition TENSR_INT32 : TensrDType := 2.
Definition TENSR_INT64 : TensrDType := 3.
Definition TENSR_UINT8 : TensrDType := 4.
Definition TENSR_BOOL : TensrDType := 5.

Inductive TensrDevice : Type :=
| TENSR_CPU | TENSR_CUDA | TENSR_XPU | TENSR_NPU | TENSR_TPU.

Record Tensor : Type := mkTensor {
  data : list byte;
  shape : list Z;
  strides : list Z;
  ndim : Z;
  size : Z;
  dtype : TensrDType;
  device : TensrDevice;
  device_id : Z;
  owns_data : bool
}.

Definition sizeof_Tensor : Z := 56.
Definition sizeof_size_t : Z := 8.

(** ** tensor.c *)

Definition tensr_dtype_size (dt : TensrDType) : Z :=
  if dt =? TENSR_FLOAT32 then 4
  else if dt =? TENSR_FLOAT64 then 8
  else if dt =? TENSR_INT32 then 4
  else if dt =? TENSR_INT64 then 8
  else if dt =? TENSR_UINT8 then 1
  else if dt =? TENSR_BOOL then 1
  else 0.

Definition compute_size (shp : list Z) (nd : Z) : result Z :=
  for_loop (Z.to_nat nd) 0
    (fun i sz => d <~ arr_get shp i ;; Ret (size_t (sz * d))) 1.

Definition compute_strides (str shp : list Z) (nd : Z) : result (list Z) :=
  s0 <~ arr_set str (size_t (nd - 1)) 1 ;;
  for_down (Z.to_nat (to_int nd - 1))
    (fun i s =>
       a <~ arr_get s (i + 1) ;;
       d <~ arr_get shp (i + 1) ;;
       arr_set s i (size_t (a * d)))
    s0.

(** [memcpy(dst, src, n * sizeof(size_t))] into a block of [length dst]
    words: the first [n] words of [src] replace those of [dst]. *)
Definition memcpy_words (dst src : list Z) (n : nat) : result (list Z) :=
  if (n <=? length src)%nat && (n <=? length dst)%nat
  then Ret (firstn n src ++ skipn n dst)
  else Undef.

Definition tensr_create (shp : list Z) (nd : Z) (dt : TensrDType) (dev : TensrDevice)
  : M (option Tensor) :=
  t <- malloc sizeof_Tensor ;;
  match t with
  | None => ret None
  | Some _ =>
      pshape <- malloc (size_t (nd * sizeof_size_t)) ;;
      pstrides <- malloc (size_t (nd * sizeof_size_t)) ;;
      match pshape, pstrides with
      | Some bshape, Some bstrides =>
          let words := (length bshape / 8)%nat in
          shape1 <- lift (memcpy_words (le_words words bshape) shp words) ;;
          strides1 <- lift (compute_strides
                              (le_words (length bstrides / 8) bstrides) shape1 nd) ;;
          sz <- lift (compute_size shp nd) ;;
          let bytes := size_t (sz * tensr_dtype_size dt) in
          pdata <- malloc bytes ;;
          match pdata with
          | None => ret None
          | Some buf =>
              ret (Some {| data := buf; shape := shape1; strides := strides1;
                           ndim := nd; size := sz; dtype := dt; device := dev;
                           device_id := 0; owns_data := true |})
          end
      | _, _ => ret None
      end
  end.

(** ** IEEE-754 binary formats as bit patterns

    An element of a floating dtype is kept as its bit pattern; arithmetic
    decodes to [spec_float], computes with the operations of [SpecFloat]
    (round to nearest, ties to even) and encodes the result.  [spec_float]
    has one NaN: the payload of a NaN is not tracked, and an operation that
    yields a NaN yields the quiet NaN with an empty payload. *)

Module IEEE.
Section Format.
(** widths of the exponent and of the mantissa fields *)
Variables ew mw : Z.

Definition prec : Z := mw + 1.
Definition emax : Z := 2 ^ (ew - 1).
Definition bias : Z := emax - 1.

Definition of_bits (x : Z) : spec_float :=
  let s := Z.testbit x (ew + mw) in
  let e := (x / 2 ^ mw) mod 2 ^ ew in
  let m := x mod 2 ^ mw in
  if e =? 0 then
    match m with
    | Zpos p => S754_finite s p (emin prec emax)
    | _ => S754_zero s
    end
  else if e =? 2 ^ ew - 1 then
    (if m =? 0 then S754_infinity s else S754_nan)
  else
    S754_finite s (Z.to_pos (m + 2 ^ mw)) (e - bias - mw).

Definition sign_bit (s : bool) : Z := if s then 2 ^ (ew + mw) else 0.

(** the pattern has [ew + mw + 1] bits *)
Definition to_bits (f : spec_float) : Z :=
  match f with
  | S754_zero s => sign_bit s
  | S754_infinity s => sign_bit s + (2 ^ ew - 1) * 2 ^ mw
  | S754_nan => (2 ^ ew - 1) * 2 ^ mw + 2 ^ (mw - 1)
  | S754_finite s m e =>
      if Zpos m <? 2 ^ mw then sign_bit s + Zpos m
      else sign_bit s + (e + bias + mw) * 2 ^ mw + (Zpos m - 2 ^ mw)
  end mod 2 ^ (ew + mw + 1).

(** rounding of a value of another format into this one *)
Definition round (f : spec_float) : spec_float :=
  match f with
  | S754_finite s m e => binary_round prec emax s m e
  | _ => f
  end.

Definition of_Z (z : Z) : Z := to_bits (binary_normalize prec emax z 0 false).

Definition lift2 (op : Z -> Z -> spec_float -> spec_float -> spec_float)
  (x y : Z) : Z :=
  to_bits (op prec emax (of_bits x) (of_bits y)).

Definition add : Z -> Z -> Z := lift2 SFadd.
Definition sub : Z -> Z -> Z := lift2 SFsub.
Definition mul : Z -> Z -> Z := lift2 SFmul.
Definition div : Z -> Z -> Z := lift2 SFdiv.
Definition opp (x : Z) : Z := to_bits (SFopp (of_bits x)).
Definition sqrt (x : Z) : Z := to_bits (SFsqrt prec emax (of_bits x)).
Definition ltb (x y : Z) : bool := SFltb (of_bits x) (of_bits y).
Definition max_float : Z := to_bits (SFmax_float prec emax).
End Format.

(** The integer part of a finite value, rounded towards zero or upwards. *)
Definition trunc (f : spec_float) : option Z :=
  match f with
  | S754_zero _ => Some 0
  | S754_finite s m e =>
      Some (cond_Zopp s (if 0 <=? e then Zpos m * 2 ^ e else Zpos m / 2 ^ (- e)))
  | _ => None
  end.

Definition ceil (f : spec_float) : option Z :=
  match f with
  | S754_zero _ => Some 0
  | S754_finite s m e =>
      Some (if 0 <=? e then cond_Zopp s (Zpos m * 2 ^ e)
            else - (cond_Zopp (negb s) (Zpos m) / 2 ^ (- e)))
  | _ => None
  end.
End IEEE.

(** [float] *)
Definition f32_of_bits : Z -> spec_float := IEEE.of_bits 8 23.
Definition f32_add : Z -> Z -> Z := IEEE.add 8 23.
Definition f32_sub : Z -> Z -> Z := IEEE.sub 8 23.
Definition f32_mul : Z -> Z -> Z := IEEE.mul 8 23.
Definition f32_div : Z -> Z -> Z := IEEE.div 8 23.
Definition f32_ltb : Z -> Z -> bool := IEEE.ltb 8 23.
Definition FLT_MAX : Z := IEEE.max_float 8 23.

(** [double] *)
Definition f64_of_bits : Z -> spec_float := IEEE.of_bits 11 52.
Definition f64_add : Z -> Z -> Z := IEEE.add 11 52.
Definition f64_sub : Z -> Z -> Z := IEEE.sub 11 52.
Definition f64_mul : Z -> Z -> Z := IEEE.mul 11 52.
Definition f64_div : Z -> Z -> Z := IEEE.div 11 52.
Definition f64_ltb : Z -> Z -> bool := IEEE.ltb 11 52.
Definition DBL_MAX : Z := IEEE.max_float 11 52.

(** conversions: [(float)d], [(double)f], [(double)n] *)
Definition f64_to_f32 (d : Z) : Z :=
  IEEE.to_bits 8 23 (IEEE.round 8 23 (f64_of_bits d)).
Definition f32_to_f64 (f : Z) : Z :=
  IEEE.to_bits 11 52 (IEEE.round 11 52 (f32_of_bits f)).
Definition f64_of_Z : Z -> Z := IEEE.of_Z 11 52.

(** [(size_t)ceil(d)]: undefined when the value does not fit. *)
Definition f64_ceil_size_t (d : Z) : result Z :=
  match IEEE.ceil (f64_of_bits d) with
  | Some z => if (0 <=? z) && (z <? 2 ^ 64) then Ret z else Undef
  | None => Undef
  end.

(** [(intN_t)d] for a [w]-bit signed type, as a [w]-bit pattern: undefined
    when the truncated value does not fit. *)
Definition f64_to_sint (w : Z) (d : Z) : result Z :=
  match IEEE.trunc (f64_of_bits d) with
  | Some z => if (- 2 ^ (w - 1) <=? z) && (z <? 2 ^ (w - 1))
              then Ret (z mod 2 ^ w) else Undef
  | None => Undef
  end.

(** a [w]-bit pattern read as a signed integer *)
Definition signed (w : Z) (x : Z) : Z := (x + 2 ^ (w - 1)) mod 2 ^ w - 2 ^ (w - 1).


(** ** tensor.c, continued: filling and copying *)

(** the result of a function that has allocated [t] and then computes the
    contents of its buffer *)
Definition set_data (t : Tensor) (d : list byte) : Tensor :=
  {| data := d; shape := shape t; strides := strides t; ndim := ndim t;
     size := size t; dtype := dtype t; device := device t;
     device_id := device_id t; owns_data := owns_data t |}.

Definition with_data (t : Tensor) (d : result (list byte)) : M (option Tensor) :=
  buf <- lift d ;; ret (Some (set_data t buf)).

(** [memset(buf, c, n)] *)
Definition memset (buf : list byte) (c : byte) (n : Z) : result (list byte) :=
  if n <=? Z.of_nat (length buf)
  then Ret (repeat c (Z.to_nat n) ++ skipn (Z.to_nat n) buf)
  else Undef.

(** [memcpy(dst, src, n)] *)
Definition memcpy (dst src : list byte) (n : Z) : result (list byte) :=
  if (n <=? Z.of_nat (length src)) && (n <=? Z.of_nat (length dst))
  then Ret (firstn (Z.to_nat n) src ++ skipn (Z.to_nat n) dst)
  else Undef.

(** [for (i = 0; i < n; i++) data[i] = v i;] on elements of [w] bytes *)
Definition fill (w : nat) (n : Z) (v : Z -> result Z) (buf : list byte)
  : result (list byte) :=
  for_loop (Z.to_nat n) 0 (fun i b => x <~ v i ;; store w b i x) buf.

Definition tensr_zeros (shp : list Z) (nd : Z) (dt : TensrDType) (dev : TensrDevice)
  : M (option Tensor) :=
  r <- tensr_create shp nd dt dev ;;
  match r with
  | Some t => with_data t (memset (data t) (byte.of_Z 0)
                             (size_t (size t * tensr_dtype_size dt)))
  | None => ret None
  end.

Definition one_f32 : Z := 0x3f800000.
Definition one_f64 : Z := 0x3ff0000000000000.

Definition tensr_ones (shp : list Z) (nd : Z) (dt : TensrDType) (dev : TensrDevice)
  : M (option Tensor) :=
  r <- tensr_create shp nd dt dev ;;
  match r with
  | None => ret None
  | Some t =>
      if dt =? TENSR_FLOAT32 then
        with_data t (fill 4 (size t) (fun _ => Ret one_f32) (data t))
      else if dt =? TENSR_FLOAT64 then
        with_data t (fill 8 (size t) (fun _ => Ret one_f64) (data t))
      else if dt =? TENSR_INT32 then
        with_data t (fill 4 (size t) (fun _ => Ret 1) (data t))
      else if dt =? TENSR_INT64 then
        with_data t (fill 8 (size t) (fun _ => Ret 1) (data t))
      else ret (Some t)
  end.

(** [value] is a [double], given by its bit pattern *)
Definition tensr_full (shp : list Z) (nd : Z) (value : Z) (dt : TensrDType)
  (dev : TensrDevice) : M (option Tensor) :=
  r <- tensr_create shp nd dt dev ;;
  match r with
  | None => ret None
  | Some t =>
      if dt =? TENSR_FLOAT32 then
        with_data t (fill 4 (size t) (fun _ => Ret (f64_to_f32 value)) (data t))
      else if dt =? TENSR_FLOAT64 then
        with_data t (fill 8 (size t) (fun _ => Ret value) (data t))
      else if dt =? TENSR_INT32 then
        with_data t (fill 4 (size t) (fun _ => f64_to_sint 32 value) (data t))
      else if dt =? TENSR_INT64 then
        with_data t (fill 8 (size t) (fun _ => f64_to_sint 64 value) (data t))
      else ret (Some t)
  end.

(** [start + i * step] in [double], [i] a [size_t] *)
Definition affine (start step : Z) (i : Z) : Z :=
  f64_add start (f64_mul (f64_of_Z i) step).

Definition tensr_arange (start stop step : Z) (dt : TensrDType) (dev : TensrDevice)
  : M (option Tensor) :=
  n <- lift (f64_ceil_size_t (f64_div (f64_sub stop start) step)) ;;
  r <- tensr_create [n] 1 dt dev ;;
  match r with
  | None => ret None
  | Some t =>
      if dt =? TENSR_FLOAT32 then
        with_data t (fill 4 n (fun i => Ret (f64_to_f32 (affine start step i))) (data t))
      else if dt =? TENSR_FLOAT64 then
        with_data t (fill 8 n (fun i => Ret (affine start step i)) (data t))
      else if dt =? TENSR_INT32 then
        with_data t (fill 4 n (fun i => f64_to_sint 32 (affine start step i)) (data t))
      else if dt =? TENSR_INT64 then
        with_data t (fill 8 n (fun i => f64_to_sint 64 (affine start step i)) (data t))
      else ret (Some t)
  end.

Definition tensr_linspace (start stop : Z) (num : Z) (dt : TensrDType)
  (dev : TensrDevice) : M (option Tensor) :=
  r <- tensr_create [num] 1 dt dev ;;
  match r with
  | None => ret None
  | Some t =>
      let step := f64_div (f64_sub stop start) (f64_of_Z (size_t (num - 1))) in
      if dt =? TENSR_FLOAT32 then
        with_data t (fill 4 num (fun i => Ret (f64_to_f32 (affine start step i))) (data t))
      else if dt =? TENSR_FLOAT64 then
        with_data t (fill 8 num (fun i => Ret (affine start step i)) (data t))
      else ret (Some t)
  end.

(** [for (i = 0; i < n; i++) data[i * n + i] = v;] *)
Definition fill_diag (w : nat) (n : Z) (v : Z) (buf : list byte) : result (list byte) :=
  for_loop (Z.to_nat n) 0 (fun i b => store w b (size_t (i * n + i)) v) buf.

Definition tensr_eye (n : Z) (dt : TensrDType) (dev : TensrDevice) : M (option Tensor) :=
  r <- tensr_zeros [n; n] 2 dt dev ;;
  match r with
  | None => ret None
  | Some t =>
      if dt =? TENSR_FLOAT32 then with_data t (fill_diag 4 n one_f32 (data t))
      else if dt =? TENSR_FLOAT64 then with_data t (fill_diag 8 n one_f64 (data t))
      else if dt =? TENSR_INT32 then with_data t (fill_diag 4 n 1 (data t))
      else if dt =? TENSR_INT64 then with_data t (fill_diag 8 n 1 (data t))
      else ret (Some t)
  end.

Definition tensr_copy (src : Tensor) : M (option Tensor) :=
  r <- tensr_create (shape src) (ndim src) (dtype src) (device src) ;;
  match r with
  | Some t => with_data t (memcpy (data t) (data src)
                             (size_t (size src * tensr_dtype_size (dtype src))))
  | None => ret None
  end.

(** The result is a view: it carries the bytes of [t] and does not own
    them.  Only the first allocation is checked; copying into a block that
    was not obtained is undefined. *)
Definition tensr_reshape (t : Tensor) (new_shape : list Z) (new_ndim : Z)
  : M (option Tensor) :=
  new_size <- lift (compute_size new_shape new_ndim) ;;
  if negb (new_size =? size t) then ret None
  else
    result <- malloc sizeof_Tensor ;;
    match result with
    | None => ret None
    | Some _ =>
        pshape <- malloc (size_t (new_ndim * sizeof_size_t)) ;;
        pstrides <- malloc (size_t (new_ndim * sizeof_size_t)) ;;
        match pshape, pstrides with
        | Some bshape, Some bstrides =>
            let words := (length bshape / 8)%nat in
            shape1 <- lift (memcpy_words (le_words words bshape) new_shape words) ;;
            strides1 <- lift (compute_strides
                                (le_words (length bstrides / 8) bstrides)
                                shape1 new_ndim) ;;
            ret (Some {| data := data t; shape := shape1; strides := strides1;
                         ndim := new_ndim; size := size t; dtype := dtype t;
                         device := device t; device_id := device_id t;
                         owns_data := false |})
        | _, _ => lift Undef
        end
    end.

(** [axes] is the array the caller passes (empty for NULL); it is replaced
    by the reversed order when [naxes] is 0, and [naxes] is not read again. *)
Definition reversed_axes (nd : Z) (blk : list Z) : result (list Z) :=
  for_loop (Z.to_nat nd) 0 (fun i a => arr_set a i (size_t (nd - 1 - i))) blk.

Definition permute_shape (src axes dst : list Z) (nd : Z) : result (list Z) :=
  for_loop (Z.to_nat nd) 0
    (fun i s => ax <~ arr_get axes i ;; d <~ arr_get src ax ;; arr_set s i d) dst.

Definition tensr_transpose (t : Tensor) (axes : list Z) (naxes : Z)
  : M (option Tensor) :=
  axes1 <- (if naxes =? 0 then
              p <- malloc (size_t (ndim t * sizeof_size_t)) ;;
              let blk := match p with
                         | Some b => le_words (length b / 8) b
                         | None => []
                         end in
              lift (reversed_axes (ndim t) blk)
            else ret axes) ;;
  r <- tensr_create (shape t) (ndim t) (dtype t) (device t) ;;
  match r with
  | None => ret None
  | Some res =>
      shape1 <- lift (permute_shape (shape t) axes1 (shape res) (ndim t)) ;;
      strides1 <- lift (compute_strides (strides res) shape1 (ndim res)) ;;
      ret (Some {| data := data res; shape := shape1; strides := strides1;
                   ndim := ndim res; size := size res; dtype := dtype res;
                   device := device res; device_id := device_id res;
                   owns_data := owns_data res |})
  end.

(** ** io.c: element access *)

Definition flat_index (indices strd : list Z) (n : Z) : result Z :=
  for_loop (Z.to_nat n) 0
    (fun i idx => k <~ arr_get indices i ;; s <~ arr_get strd i ;;
                  Ret (size_t (idx + k * s))) 0.

(** the result is a [double], as its bit pattern *)
Definition tensr_get (t : Tensor) (indices : list Z) (nindices : Z) : result Z :=
  if negb (nindices =? ndim t) then Ret 0
  else
    idx <~ flat_index indices (strides t) nindices ;;
    if dtype t =? TENSR_FLOAT32 then
      x <~ load 4 (data t) idx ;; Ret (f32_to_f64 x)
    else if dtype t =? TENSR_FLOAT64 then
      load 8 (data t) idx
    else if dtype t =? TENSR_INT32 then
      x <~ load 4 (data t) idx ;; Ret (f64_of_Z (signed 32 x))
    else if dtype t =? TENSR_INT64 then
      x <~ load 8 (data t) idx ;; Ret (f64_of_Z (signed 64 x))
    else Ret 0.


(** ** arithmetic.c *)

(** The operator a [BINARY_OP] instance is generated with. *)
Inductive arith_op : Type := OpAdd | OpSub | OpMul | OpDiv.

Definition float_op (ew mw : Z) (op : arith_op) (x y : Z) : result Z :=
  Ret (match op with
       | OpAdd => IEEE.add ew mw x y
       | OpSub => IEEE.sub ew mw x y
       | OpMul => IEEE.mul ew mw x y
       | OpDiv => IEEE.div ew mw x y
       end).

(** On [w]-bit signed integers, kept as [w]-bit patterns.  Overflow of
    [+], [-] and [*] wraps around (two's complement); a division by zero
    and the quotient [INT_MIN / -1] are undefined. *)
Definition int_op (w : Z) (op : arith_op) (x y : Z) : result Z :=
  match op with
  | OpAdd => Ret ((x + y) mod 2 ^ w)
  | OpSub => Ret ((x - y) mod 2 ^ w)
  | OpMul => Ret ((x * y) mod 2 ^ w)
  | OpDiv =>
      if signed w y =? 0 then Undef
      else if (signed w x =? - 2 ^ (w - 1)) && (signed w y =? -1) then Undef
      else Ret (Z.quot (signed w x) (signed w y) mod 2 ^ w)
  end.

(** [for (i = 0; i < n; i++) rr[i] = ra[i] op rb[i];] *)
Definition zip_loop (w : nat) (f : Z -> Z -> result Z) (n : Z)
  (ra rb rr : list byte) : result (list byte) :=
  for_loop (Z.to_nat n) 0
    (fun i r => x <~ load w ra i ;; y <~ load w rb i ;; v <~ f x y ;; store w r i v)
    rr.

Definition BINARY_OP (op : arith_op) (a b : Tensor) : M (option Tensor) :=
  if negb (size a =? size b) || negb (dtype a =? dtype b) then ret None
  else
    r <- tensr_create (shape a) (ndim a) (dtype a) (device a) ;;
    match r with
    | None => ret None
    | Some res =>
        if dtype a =? TENSR_FLOAT32 then
          with_data res (zip_loop 4 (float_op 8 23 op) (size a) (data a) (data b) (data res))
        else if dtype a =? TENSR_FLOAT64 then
          with_data res (zip_loop 8 (float_op 11 52 op) (size a) (data a) (data b) (data res))
        else if dtype a =? TENSR_INT32 then
          with_data res (zip_loop 4 (int_op 32 op) (size a) (data a) (data b) (data res))
        else if dtype a =? TENSR_INT64 then
          with_data res (zip_loop 8 (int_op 64 op) (size a) (data a) (data b) (data res))
        else ret (Some res)
    end.

Definition tensr_add : Tensor -> Tensor -> M (option Tensor) := BINARY_OP OpAdd.
Definition tensr_sub : Tensor -> Tensor -> M (option Tensor) := BINARY_OP OpSub.
Definition tensr_mul : Tensor -> Tensor -> M (option Tensor) := BINARY_OP OpMul.
Definition tensr_div : Tensor -> Tensor -> M (option Tensor) := BINARY_OP OpDiv.

(** ** reduction.c *)

(** [for (i = 0; i < n; i++) acc = step acc data[i];] *)
Definition reduce_loop (w : nat) (step : Z -> Z -> Z) (n : Z) (buf : list byte)
  (init : Z) : result Z :=
  for_loop (Z.to_nat n) 0 (fun i acc => x <~ load w buf i ;; Ret (step acc x)) init.

(** [axes] is not read.  The local [shape] array has one entry, whatever
    number of dimensions is asked of [tensr_create]. *)
Definition tensr_sum (t : Tensor) (axes : list Z) (naxes : Z) (keepdims : bool)
  : M (option Tensor) :=
  if naxes =? 0 then
    r <- tensr_create [1] (if keepdims then ndim t else 1) (dtype t) (device t) ;;
    match r with
    | None => ret None
    | Some res =>
        if dtype t =? TENSR_FLOAT32 then
          with_data res (s <~ reduce_loop 4 f32_add (size t) (data t) 0 ;;
                         store 4 (data res) 0 s)
        else if dtype t =? TENSR_FLOAT64 then
          with_data res (s <~ reduce_loop 8 f64_add (size t) (data t) 0 ;;
                         store 8 (data res) 0 s)
        else ret (Some res)
    end
  else ret None.

Definition tensr_max (t : Tensor) (axes : list Z) (naxes : Z) (keepdims : bool)
  : M (option Tensor) :=
  r <- tensr_create [1] 1 (dtype t) (device t) ;;
  match r with
  | None => ret None
  | Some res =>
      if dtype t =? TENSR_FLOAT32 then
        with_data res
          (m <~ reduce_loop 4 (fun max_val x => if f32_ltb max_val x then x else max_val)
                  (size t) (data t) (IEEE.opp 8 23 FLT_MAX) ;;
           store 4 (data res) 0 m)
      else if dtype t =? TENSR_FLOAT64 then
        with_data res
          (m <~ reduce_loop 8 (fun max_val x => if f64_ltb max_val x then x else max_val)
                  (size t) (data t) (IEEE.opp 11 52 DBL_MAX) ;;
           store 8 (data res) 0 m)
      else ret (Some res)
  end.

Definition tensr_min (t : Tensor) (axes : list Z) (naxes : Z) (keepdims : bool)
  : M (option Tensor) :=
  r <- tensr_create [1] 1 (dtype t) (device t) ;;
  match r with
  | None => ret None
  | Some res =>
      if dtype t =? TENSR_FLOAT32 then
        with_data res
          (m <~ reduce_loop 4 (fun min_val x => if f32_ltb x min_val then x else min_val)
                  (size t) (data t) FLT_MAX ;;
           store 4 (data res) 0 m)
      else if dtype t =? TENSR_FLOAT64 then
        with_data res
          (m <~ reduce_loop 8 (fun min_val x => if f64_ltb x min_val then x else min_val)
                  (size t) (data t) DBL_MAX ;;
           store 8 (data res) 0 m)
      else ret (Some res)
  end.

(** ** linalg.c *)

(** [sum = 0; for (p = 0; p < k; p++) sum += da[i * k + p] * db[p * n + j];] *)
Definition dot_loop (w : nat) (add mul : Z -> Z -> Z) (k n i j : Z)
  (da db : list byte) : result Z :=
  for_loop (Z.to_nat k) 0
    (fun p sum =>
       x <~ load w da (size_t (i * k + p)) ;;
       y <~ load w db (size_t (p * n + j)) ;;
       Ret (add sum (mul x y)))
    0.

Definition matmul_loops (w : nat) (add mul : Z -> Z -> Z) (m n k : Z)
  (da db dr : list byte) : result (list byte) :=
  for_loop (Z.to_nat m) 0
    (fun i dr1 =>
       for_loop (Z.to_nat n) 0
         (fun j dr2 =>
            sum <~ dot_loop w add mul k n i j da db ;;
            store w dr2 (size_t (i * n + j)) sum)
         dr1)
    dr.

Definition tensr_matmul (a b : Tensor) : M (option Tensor) :=
  if negb (ndim a =? 2) || negb (ndim b =? 2) then ret None
  else
    k <- lift (arr_get (shape a) 1) ;;
    b0 <- lift (arr_get (shape b) 0) ;;
    if negb (k =? b0) then ret None
    else
      m <- lift (arr_get (shape a) 0) ;;
      n <- lift (arr_get (shape b) 1) ;;
      r <- tensr_zeros [m; n] 2 (dtype a) (device a) ;;
      match r with
      | None => ret None
      | Some res =>
          if dtype a =? TENSR_FLOAT32 then
            with_data res (matmul_loops 4 f32_add f32_mul m n k (data a) (data b) (data res))
          else if dtype a =? TENSR_FLOAT64 then
            with_data res (matmul_loops 8 f64_add f64_mul m n k (data a) (data b) (data res))
          else ret (Some res)
      end.

Definition tensr_inv (t : Tensor) : M (option Tensor) :=
  if negb (ndim t =? 2) then ret None
  else
    s0 <- lift (arr_get (shape t) 0) ;;
    s1 <- lift (arr_get (shape t) 1) ;;
    if negb (s0 =? s1) then ret None else tensr_copy t.


(** ** io.c: save and load

    The file system maps a name to the bytes of the file.  Opening a file
    for writing succeeds when the name is writable; a write to an open
    stream is complete.  [fread] delivers the bytes the stream still has, up
    to the number asked for. *)

Record FileSystem : Type := mkFS {
  contents : string -> option (list byte);
  writable : string -> bool
}.

Definition fs_put (fs : FileSystem) (name : string) (b : list byte) : FileSystem :=
  {| contents := fun n => if String.eqb n name then Some b else contents fs n;
     writable := writable fs |}.

(** [fwrite(ptr, 8, n, f)] from an array of [size_t] *)
Definition fwrite_words (a : list Z) (n : Z) : result (list byte) :=
  let words := Z.to_nat (size_t (sizeof_size_t * n) / 8) in
  if (words <=? length a)%nat
  then Ret (flat_map (le_split 8) (firstn words a))
  else Undef.

(** [fwrite(ptr, size, n, f)] from a buffer *)
Definition fwrite_bytes (buf : list byte) (sz n : Z) : result (list byte) :=
  let bytes := size_t (sz * n) in
  if bytes <=? Z.of_nat (length buf)
  then Ret (firstn (Z.to_nat bytes) buf)
  else Undef.

Definition tensr_save (fs : FileSystem) (filename : string) (t : Tensor)
  : result (Z * FileSystem) :=
  if writable fs filename then
    wshape <~ fwrite_words (shape t) (ndim t) ;;
    wdata <~ fwrite_bytes (data t) (tensr_dtype_size (dtype t)) (size t) ;;
    Ret (0, fs_put fs filename
              (le_split 8 (ndim t) ++ le_split 4 (dtype t) ++ le_split 8 (size t)
                 ++ wshape ++ wdata))
  else Ret (-1, fs).

(** [fread(&x, w, 1, f)] into a local variable: the variable stays
    indeterminate ([None]) when the stream is short. *)
Definition fread_var (w : nat) (f : list byte) : option Z * list byte :=
  if (w <=? length f)%nat
  then (Some (le_combine (firstn w f)), skipn w f)
  else (None, skipn w f).

(** the use of a local variable *)
Definition use (x : option Z) : result Z :=
  match x with
  | Some v => Ret v
  | None => Undef
  end.

(** [fread(blk, size, n, f)] into an allocated block ([None] for NULL): the
    bytes read overwrite the beginning of the block, the rest of it keeps
    its contents. *)
Definition fread_into (blk : option (list byte)) (bytes : Z) (f : list byte)
  : result (list byte * list byte) :=
  let got := firstn (Z.to_nat bytes) f in
  match blk with
  | Some b =>
      if (length got <=? length b)%nat
      then Ret (got ++ skipn (length got) b, skipn (Z.to_nat bytes) f)
      else Undef
  | None =>
      match got with
      | [] => Ret ([], skipn (Z.to_nat bytes) f)
      | _ => Undef
      end
  end.

Definition tensr_load (fs : FileSystem) (filename : string) : M (option Tensor) :=
  match contents fs filename with
  | None => ret None
  | Some f0 =>
      let '(vndim, f1) := fread_var 8 f0 in
      let '(vdtype, f2) := fread_var 4 f1 in
      let '(vsize, f3) := fread_var 8 f2 in
      nd <- lift (use vndim) ;;
      pshape <- malloc (size_t (nd * sizeof_size_t)) ;;
      '(bshape, f4) <- lift (fread_into pshape (size_t (sizeof_size_t * nd)) f3) ;;
      dt <- lift (use vdtype) ;;
      r <- tensr_create (le_words (length bshape / 8) bshape) nd dt TENSR_CPU ;;
      match r with
      | None => ret None
      | Some t =>
          sz <- lift (use vsize) ;;
          '(buf, _) <- lift (fread_into (Some (data t))
                               (size_t (tensr_dtype_size dt * sz)) f4) ;;
          ret (Some (set_data t buf))
      end
  end.

(** ** random.c

    The generator of the C library ([srand], [rand], [RAND_MAX]), the
    functions of the mathematical library and the clock are given by the
    environment. *)

Section Random.
Variable rand_state : Type.
Variable libc_srand : Z -> rand_state.
Variable libc_rand : rand_state -> Z * rand_state.
Variable RAND_MAX : Z.
Variables libm_log libm_cos : Z -> Z.

(** the static [rng_state] and the hidden state of [rand] *)
Record Rng : Type := mkRng {
  rng_state : Z;
  libc : rand_state
}.

Definition tensr_seed (seed : Z) (g : Rng) : Rng :=
  {| rng_state := seed mod 2 ^ 32; libc := libc_srand (seed mod 2 ^ 32) |}.

Definition c_rand (g : Rng) : Z * Rng :=
  let '(r, l) := libc_rand (libc g) in
  (r, {| rng_state := rng_state g; libc := l |}).

Definition rand_uniform (g : Rng) : Z * Rng :=
  let '(r, g1) := c_rand g in
  (f64_div (f64_of_Z r) (f64_of_Z RAND_MAX), g1).

Definition minus_two : Z := 0xc000000000000000.
Definition two_pi : Z := f64_mul 0x4000000000000000 0x400921fb54442d18.

Definition rand_normal (g : Rng) : Z * Rng :=
  let '(u1, g1) := rand_uniform g in
  let '(u2, g2) := rand_uniform g1 in
  (f64_mul (IEEE.sqrt 11 52 (f64_mul minus_two (libm_log u1)))
     (libm_cos (f64_mul two_pi u2)), g2).

(** [if (rng_state == 0) tensr_seed((unsigned int)time(NULL));] *)
Definition ensure_seeded (now : Z) (g : Rng) : Rng :=
  if rng_state g =? 0 then tensr_seed now g else g.

(** [for (i = 0; i < n; i++) data[i] = draw();] *)
Definition fill_random (w : nat) (n : Z) (draw : Rng -> result (Z * Rng))
  (buf : list byte) (g : Rng) : result (list byte * Rng) :=
  for_loop (Z.to_nat n) 0
    (fun i '(b, g0) =>
       '(x, g1) <~ draw g0 ;; b1 <~ store w b i x ;; Ret (b1, g1))
    (buf, g).

Definition random_tensor (shp : list Z) (nd : Z) (dt : TensrDType)
  (dev : TensrDevice) (w : nat) (draw : Rng -> result (Z * Rng))
  (now : Z) (g : Rng) : M (option Tensor * Rng) :=
  let g0 := ensure_seeded now g in
  r <- tensr_create shp nd dt dev ;;
  match r with
  | None => ret (None, g0)
  | Some t =>
      '(buf, g1) <- lift (fill_random w (size t) draw (data t) g0) ;;
      ret (Some (set_data t buf), g1)
  end.

(** [now] is the value of [time(NULL)] at the call. *)
Definition tensr_rand (shp : list Z) (nd : Z) (dev : TensrDevice)
  : Z -> Rng -> M (option Tensor * Rng) :=
  random_tensor shp nd TENSR_FLOAT32 dev 4
    (fun g => let '(u, g1) := rand_uniform g in Ret (f64_to_f32 u, g1)).

Definition tensr_randn (shp : list Z) (nd : Z) (dev : TensrDevice)
  : Z -> Rng -> M (option Tensor * Rng) :=
  random_tensor shp nd TENSR_FLOAT32 dev 4
    (fun g => let '(x, g1) := rand_normal g in Ret (f64_to_f32 x, g1)).

(** [low] and [high] are [int]s; [rand() % range] is undefined for an
    empty range. *)
Definition tensr_randint (low high : Z) (shp : list Z) (nd : Z) (dev : TensrDevice)
  : Z -> Rng -> M (option Tensor * Rng) :=
  let range := to_int (high - low) in
  random_tensor shp nd TENSR_INT32 dev 4
    (fun g => let '(r, g1) := c_rand g in
              if range =? 0 then Undef
              else Ret ((low + Z.rem r range) mod 2 ^ 32, g1)).
End Random.

(** The generator the C standard gives as an example of [rand]. *)
Definition lcg_srand (seed : Z) : Z := seed.
Definition lcg_rand (next : Z) : Z * Z :=
  let next1 := (next * 1103515245 + 12345) mod 2 ^ 32 in
  ((next1 / 65536) mod 32768, next1).
Definition LCG_RAND_MAX : Z := 32767.

(** ** tensor.c and device.c: names and devices *)

Definition tensr_dtype_name (dt : TensrDType) : string :=
  if dt =? TENSR_FLOAT32 then "float32"
  else if dt =? TENSR_FLOAT64 then "float64"
  else if dt =? TENSR_INT32 then "int32"
  else if dt =? TENSR_INT64 then "int64"
  else if dt =? TENSR_UINT8 then "uint8"
  else if dt =? TENSR_BOOL then "bool"
  else "unknown".

(** the [default] branch of the C function answers values outside the
    enumeration, which [TensrDevice] does not have *)
Definition tensr_device_name (dev : TensrDevice) : string :=
  match dev with
  | TENSR_CPU => "CPU"
  | TENSR_CUDA => "CUDA"
  | TENSR_XPU => "XPU"
  | TENSR_NPU => "NPU"
  | TENSR_TPU => "TPU"
  end.

Definition tensr_to_device (t : Tensor) (dev : TensrDevice) (id : Z) : Tensor :=
  {| data := data t; shape := shape t; strides := strides t; ndim := ndim t;
     size := size t; dtype := dtype t; device := dev; device_id := id;
     owns_data := owns_data t |}.

Definition tensr_device_count (dev : TensrDevice) : Z := 1.

(** ** array.c *)

(** [data] is the array the caller passes *)
Definition tensr_from_array (shp : list Z) (nd : Z) (dt : TensrDType)
  (dev : TensrDevice) (src : list byte) : M (option Tensor) :=
  r <- tensr_create shp nd dt dev ;;
  match r with
  | None => ret None
  | Some t =>
      with_data t (memcpy (data t) src (size_t (size t * tensr_dtype_size dt)))
  end.

Definition tensr_array_2d (dt : TensrDType) (dev : TensrDevice) (rows cols : Z)
  (src : list byte) : M (option Tensor) :=
  tensr_from_array [rows; cols] 2 dt dev src.

(** [args] are the variable arguments, each one as the bit pattern of the
    type [va_arg] reads it with: a [double] for the floating dtypes, an
    [int32_t] for int32.  Reading past the last argument is undefined. *)
Definition tensr_array_1d (dt : TensrDType) (dev : TensrDevice) (n : Z)
  (args : list Z) : M (option Tensor) :=
  r <- tensr_create [n] 1 dt dev ;;
  match r with
  | None => ret None
  | Some t =>
      if dt =? TENSR_FLOAT32 then
        with_data t (fill 4 n (fun i => d <~ arr_get args i ;; Ret (f64_to_f32 d)) (data t))
      else if dt =? TENSR_FLOAT64 then
        with_data t (fill 8 n (fun i => arr_get args i) (data t))
      else if dt =? TENSR_INT32 then
        with_data t (fill 4 n (fun i => arr_get args i) (data t))
      else ret (Some t)
  end.

(** ** arithmetic.c, continued *)

(** [for (i = 0; i < n; i++) rr[i] = f(rt[i]);] *)
Definition map_loop (w : nat) (f : Z -> result Z) (n : Z) (rt rr : list byte)
  : result (list byte) :=
  for_loop (Z.to_nat n) 0
    (fun i r => x <~ load w rt i ;; v <~ f x ;; store w r i v) rr.

(** [funcf] and [func] are the [float] and the [double] version of the
    function of the mathematical library the instance is generated with. *)
Definition UNARY_FUNC (funcf func : Z -> Z) (t : Tensor) : M (option Tensor) :=
  r <- tensr_create (shape t) (ndim t) (dtype t) (device t) ;;
  match r with
  | None => ret None
  | Some res =>
      if dtype t =? TENSR_FLOAT32 then
        with_data res (map_loop 4 (fun x => Ret (funcf x)) (size t) (data t) (data res))
      else if dtype t =? TENSR_FLOAT64 then
        with_data res (map_loop 8 (fun x => Ret (func x)) (size t) (data t) (data res))
      else ret (Some res)
  end.

(** [-x] and [fabs(x)] on the [w]-bit pattern of a floating value: the sign
    bit is flipped, or cleared, and no other bit changes; this holds of a
    NaN too, whose payload is kept. *)
Definition float_neg (w : Z) (x : Z) : Z := Z.lxor x (2 ^ (w - 1)).
Definition float_abs (w : Z) (x : Z) : Z := Z.land x (2 ^ (w - 1) - 1).

(** [sqrt] is an operation of IEEE-754. *)
Definition tensr_sqrt : Tensor -> M (option Tensor) :=
  UNARY_FUNC (IEEE.sqrt 8 23) (IEEE.sqrt 11 52).
Definition tensr_abs : Tensor -> M (option Tensor) :=
  UNARY_FUNC (float_abs 32) (float_abs 64).

Section Libm.
Variables libm_expf libm_exp libm_logf libm_log : Z -> Z.
Variables libm_sinf libm_sin libm_cosf libm_cos libm_tanf libm_tan : Z -> Z.
Variables libm_asinf libm_asin libm_acosf libm_acos libm_atanf libm_atan : Z -> Z.
Variables libm_powf libm_pow : Z -> Z -> Z.

Definition tensr_exp : Tensor -> M (option Tensor) := UNARY_FUNC libm_expf libm_exp.
Definition tensr_log : Tensor -> M (option Tensor) := UNARY_FUNC libm_logf libm_log.
Definition tensr_sin : Tensor -> M (option Tensor) := UNARY_FUNC libm_sinf libm_sin.
Definition tensr_cos : Tensor -> M (option Tensor) := UNARY_FUNC libm_cosf libm_cos.
Definition tensr_tan : Tensor -> M (option Tensor) := UNARY_FUNC libm_tanf libm_tan.
Definition tensr_arcsin : Tensor -> M (option Tensor) := UNARY_FUNC libm_asinf libm_asin.
Definition tensr_arccos : Tensor -> M (option Tensor) := UNARY_FUNC libm_acosf libm_acos.
Definition tensr_arctan : Tensor -> M (option Tensor) := UNARY_FUNC libm_atanf libm_atan.

(** [exponent] is a [double] *)
Definition tensr_pow (a : Tensor) (exponent : Z) : M (option Tensor) :=
  r <- tensr_create (shape a) (ndim a) (dtype a) (device a) ;;
  match r with
  | None => ret None
  | Some res =>
      if dtype a =? TENSR_FLOAT32 then
        with_data res
          (map_loop 4 (fun x => Ret (libm_powf x (f64_to_f32 exponent)))
             (size a) (data a) (data res))
      else if dtype a =? TENSR_FLOAT64 then
        with_data res
          (map_loop 8 (fun x => Ret (libm_pow x exponent)) (size a) (data a) (data res))
      else ret (Some res)
  end.
End Libm.

Definition tensr_neg (t : Tensor) : M (option Tensor) :=
  r <- tensr_create (shape t) (ndim t) (dtype t) (device t) ;;
  match r with
  | None => ret None
  | Some res =>
      if dtype t =? TENSR_FLOAT32 then
        with_data res (map_loop 4 (fun x => Ret (float_neg 32 x))
                         (size t) (data t) (data res))
      else if dtype t =? TENSR_FLOAT64 then
        with_data res (map_loop 8 (fun x => Ret (float_neg 64 x))
                         (size t) (data t) (data res))
      else if dtype t =? TENSR_INT32 then
        with_data res (map_loop 4 (fun x => Ret ((- x) mod 2 ^ 32))
                         (size t) (data t) (data res))
      else if dtype t =? TENSR_INT64 then
        with_data res (map_loop 8 (fun x => Ret ((- x) mod 2 ^ 64))
                         (size t) (data t) (data res))
      else ret (Some res)
  end.

(** The operator a [COMPARISON_OP] instance is generated with. *)
Inductive cmp_op : Type := CmpEq | CmpNe | CmpGt | CmpLt | CmpGe | CmpLe.

Definition float_cmp (ew mw : Z) (op : cmp_op) (x y : Z) : bool :=
  let fx := IEEE.of_bits ew mw x in
  let fy := IEEE.of_bits ew mw y in
  match op with
  | CmpEq => SFeqb fx fy
  | CmpNe => negb (SFeqb fx fy)
  | CmpGt => SFltb fy fx
  | CmpLt => SFltb fx fy
  | CmpGe => SFleb fy fx
  | CmpLe => SFleb fx fy
  end.

Definition int_cmp (w : Z) (op : cmp_op) (x y : Z) : bool :=
  let sx := signed w x in
  let sy := signed w y in
  match op with
  | CmpEq => sx =? sy
  | CmpNe => negb (sx =? sy)
  | CmpGt => sy <? sx
  | CmpLt => sx <? sy
  | CmpGe => sy <=? sx
  | CmpLe => sx <=? sy
  end.

(** [for (i = 0; i < n; i++) rr[i] = ra[i] op rb[i];] with [rr] an array
    of [bool] *)
Definition cmp_loop (w : nat) (f : Z -> Z -> bool) (n : Z) (ra rb rr : list byte)
  : result (list byte) :=
  for_loop (Z.to_nat n) 0
    (fun i r => x <~ load w ra i ;; y <~ load w rb i ;; store 1 r i (Z.b2z (f x y)))
    rr.

Definition COMPARISON_OP (op : cmp_op) (a b : Tensor) : M (option Tensor) :=
  if negb (size a =? size b) then ret None
  else
    r <- tensr_create (shape a) (ndim a) TENSR_BOOL (device a) ;;
    match r with
    | None => ret None
    | Some res =>
        if dtype a =? TENSR_FLOAT32 then
          with_data res (cmp_loop 4 (float_cmp 8 23 op) (size a) (data a) (data b) (data res))
        else if dtype a =? TENSR_FLOAT64 then
          with_data res (cmp_loop 8 (float_cmp 11 52 op) (size a) (data a) (data b) (data res))
        else if dtype a =? TENSR_INT32 then
          with_data res (cmp_loop 4 (int_cmp 32 op) (size a) (data a) (data b) (data res))
        else if dtype a =? TENSR_INT64 then
          with_data res (cmp_loop 8 (int_cmp 64 op) (size a) (data a) (data b) (data res))
        else ret (Some res)
    end.

Definition tensr_equal : Tensor -> Tensor -> M (option Tensor) := COMPARISON_OP CmpEq.
Definition tensr_not_equal : Tensor -> Tensor -> M (option Tensor) := COMPARISON_OP CmpNe.
Definition tensr_greater : Tensor -> Tensor -> M (option Tensor) := COMPARISON_OP CmpGt.
Definition tensr_less : Tensor -> Tensor -> M (option Tensor) := COMPARISON_OP CmpLt.
Definition tensr_greater_equal : Tensor -> Tensor -> M (option Tensor) :=
  COMPARISON_OP CmpGe.
Definition tensr_less_equal : Tensor -> Tensor -> M (option Tensor) :=
  COMPARISON_OP CmpLe.

(** [((bool* )buf)[i]]: a byte other than 0 and 1 is no value of [bool],
    and reading it is undefined. *)
Definition load_bool (buf : list byte) (i : Z) : result bool :=
  x <~ load 1 buf i ;;
  if x =? 0 then Ret false else if x =? 1 then Ret true else Undef.

(** [for (i = 0; i < n; i++) rr[i] = ra[i] op rb[i];] for [&&] and [||]:
    [rb[i]] is read only when [ra[i]] does not decide the result, which it
    does when it is [absorbing] ([false] for [&&], [true] for [||]). *)
Definition logical_loop (absorbing : bool) (n : Z) (ra rb rr : list byte)
  : result (list byte) :=
  for_loop (Z.to_nat n) 0
    (fun i r => x <~ load_bool ra i ;;
                v <~ (if Bool.eqb x absorbing then Ret x else load_bool rb i) ;;
                store 1 r i (Z.b2z v))
    rr.

Definition tensr_logical_and (a b : Tensor) : M (option Tensor) :=
  if negb (size a =? size b) then ret None
  else
    r <- tensr_create (shape a) (ndim a) TENSR_BOOL (device a) ;;
    match r with
    | None => ret None
    | Some res =>
        with_data res (logical_loop false (size a) (data a) (data b) (data res))
    end.

Definition tensr_logical_or (a b : Tensor) : M (option Tensor) :=
  if negb (size a =? size b) then ret None
  else
    r <- tensr_create (shape a) (ndim a) TENSR_BOOL (device a) ;;
    match r with
    | None => ret None
    | Some res =>
        with_data res (logical_loop true (size a) (data a) (data b) (data res))
    end.

Definition tensr_logical_not (t : Tensor) : M (option Tensor) :=
  r <- tensr_create (shape t) (ndim t) TENSR_BOOL (device t) ;;
  match r with
  | None => ret None
  | Some res =>
      with_data res
        (for_loop (Z.to_nat (size t)) 0
           (fun i rr => x <~ load_bool (data t) i ;; store 1 rr i (Z.b2z (negb x)))
           (data res))
  end.

(** ** reduction.c, continued *)

Definition tensr_mean (t : Tensor) (axes : list Z) (naxes : Z) (keepdims : bool)
  : M (option Tensor) :=
  r <- tensr_sum t axes naxes keepdims ;;
  match r with
  | None => ret None
  | Some sum_result =>
      if dtype t =? TENSR_FLOAT32 then
        with_data sum_result
          (x <~ load 4 (data sum_result) 0 ;;
           store 4 (data sum_result) 0 (f32_div x (IEEE.of_Z 8 23 (size t))))
      else if dtype t =? TENSR_FLOAT64 then
        with_data sum_result
          (x <~ load 8 (data sum_result) 0 ;;
           store 8 (data sum_result) 0 (f64_div x (f64_of_Z (size t))))
      else ret (Some sum_result)
  end.

(** [for (i = 0; i < n; i++) if (better data[i] val) { val = data[i]; idx = i; }] *)
Definition arg_loop (w : nat) (better : Z -> Z -> bool) (n : Z) (buf : list byte)
  (init : Z) : result (Z * Z) :=
  for_loop (Z.to_nat n) 0
    (fun i '(val, idx) =>
       x <~ load w buf i ;; Ret (if better x val then (x, i) else (val, idx)))
    (init, 0).

Definition tensr_argmax (t : Tensor) (axis : Z) : M (option Tensor) :=
  r <- tensr_create [1] 1 TENSR_INT64 (device t) ;;
  match r with
  | None => ret None
  | Some res =>
      max_idx <- lift
        (if dtype t =? TENSR_FLOAT32 then
           '(_, idx) <~ arg_loop 4 (fun x max_val => f32_ltb max_val x)
                          (size t) (data t) (IEEE.opp 8 23 FLT_MAX) ;;
           Ret idx
         else if dtype t =? TENSR_FLOAT64 then
           '(_, idx) <~ arg_loop 8 (fun x max_val => f64_ltb max_val x)
                          (size t) (data t) (IEEE.opp 11 52 DBL_MAX) ;;
           Ret idx
         else Ret 0) ;;
      with_data res (store 8 (data res) 0 max_idx)
  end.

Definition tensr_argmin (t : Tensor) (axis : Z) : M (option Tensor) :=
  r <- tensr_create [1] 1 TENSR_INT64 (device t) ;;
  match r with
  | None => ret None
  | Some res =>
      min_idx <- lift
        (if dtype t =? TENSR_FLOAT32 then
           '(_, idx) <~ arg_loop 4 (fun x min_val => f32_ltb x min_val)
                          (size t) (data t) FLT_MAX ;;
           Ret idx
         else if dtype t =? TENSR_FLOAT64 then
           '(_, idx) <~ arg_loop 8 (fun x min_val => f64_ltb x min_val)
                          (size t) (data t) DBL_MAX ;;
           Ret idx
         else Ret 0) ;;
      with_data res (store 8 (data res) 0 min_idx)
  end.

(** ** linalg.c, continued *)

(** [sum = 0; for (i = 0; i < n; i++) sum += da[i] * db[i];] *)
Definition inner_loop (w : nat) (add mul : Z -> Z -> Z) (n : Z) (da db : list byte)
  : result Z :=
  for_loop (Z.to_nat n) 0
    (fun i sum => x <~ load w da i ;; y <~ load w db i ;; Ret (add sum (mul x y)))
    0.

Definition tensr_dot (a b : Tensor) : M (option Tensor) :=
  if negb (ndim a =? 1) || negb (ndim b =? 1) || negb (size a =? size b)
  then ret None
  else
    r <- tensr_create [1] 1 (dtype a) (device a) ;;
    match r with
    | None => ret None
    | Some res =>
        if dtype a =? TENSR_FLOAT32 then
          with_data res (s <~ inner_loop 4 f32_add f32_mul (size a) (data a) (data b) ;;
                         store 4 (data res) 0 s)
        else if dtype a =? TENSR_FLOAT64 then
          with_data res (s <~ inner_loop 8 f64_add f64_mul (size a) (data a) (data b) ;;
                         store 8 (data res) 0 s)
        else ret (Some res)
    end.

Definition tensr_det (t : Tensor) : M (option Tensor) :=
  if negb (ndim t =? 2) then ret None
  else
    s0 <- lift (arr_get (shape t) 0) ;;
    s1 <- lift (arr_get (shape t) 1) ;;
    if negb (s0 =? s1) then ret None
    else tensr_ones [1] 1 (dtype t) (device t).

(** the output parameters are not written *)
Definition tensr_svd (t : Tensor) : M (option Tensor) := ret None.
Definition tensr_eig (t : Tensor) : M (option Tensor) := ret None.

Definition tensr_solve (a b : Tensor) : M (option Tensor) := tensr_copy b.
Definition tensr_lstsq (a b : Tensor) : M (option Tensor) := tensr_copy b.

(** ** fft.c *)

Definition tensr_fft (t : Tensor) (axis : Z) : M (option Tensor) := tensr_copy t.
Definition tensr_ifft (t : Tensor) (axis : Z) : M (option Tensor) := tensr_copy t.
Definition tensr_fft2 (t : Tensor) : M (option Tensor) := tensr_copy t.
Definition tensr_ifft2 (t : Tensor) : M (option Tensor) := tensr_copy t.

(** ** io.c, continued *)

(** [value] is a [double]; the tensor is changed in place, the result is
    the tensor after the call *)
Definition tensr_set (t : Tensor) (indices : list Z) (nindices : Z) (value : Z)
  : result Tensor :=
  if negb (nindices =? ndim t) then Ret t
  else
    idx <~ flat_index indices (strides t) nindices ;;
    if dtype t =? TENSR_FLOAT32 then
      d <~ store 4 (data t) idx (f64_to_f32 value) ;; Ret (set_data t d)
    else if dtype t =? TENSR_FLOAT64 then
      d <~ store 8 (data t) idx value ;; Ret (set_data t d)
    else if dtype t =? TENSR_INT32 then
      x <~ f64_to_sint 32 value ;; d <~ store 4 (data t) idx x ;; Ret (set_data t d)
    else if dtype t =? TENSR_INT64 then
      x <~ f64_to_sint 64 value ;; d <~ store 8 (data t) idx x ;; Ret (set_data t d)
    else Ret t.

Definition tensr_slice (t : Tensor) (start stop step : list Z) (nd : Z)
  : M (option Tensor) := tensr_copy t.
Definition tensr_index (t : Tensor) (indices : list Z) (nindices : Z)
  : M (option Tensor) := tensr_copy t.

(** [tensors] is the array of the tensors; [tensors[0]] is read *)
Definition tensr_concat (tensors : list Tensor) (ntensors : Z) (axis : Z)
  : M (option Tensor) :=
  if ntensors =? 0 then ret None
  else match tensors with
       | t0 :: _ => tensr_copy t0
       | [] => lift Undef
       end.

Definition tensr_stack (tensors : list Tensor) (ntensors : Z) (axis : Z)
  : M (option Tensor) :=
  if ntensors =? 0 then ret None
  else match tensors with
       | t0 :: _ => tensr_copy t0
       | [] => lift Undef
       end.

Definition tensr_vstack (tensors : list Tensor) (ntensors : Z) : M (option Tensor) :=
  tensr_stack tensors ntensors 0.
Definition tensr_hstack (tensors : list Tensor) (ntensors : Z) : M (option Tensor) :=
  tensr_stack tensors ntensors 1.

Definition tensr_squeeze (t : Tensor) (axis : Z) : M (option Tensor) := tensr_copy t.
Definition tensr_expand_dims (t : Tensor) (axis : Z) : M (option Tensor) := tensr_copy t.

(** * Vocabulary of the properties *)

(** ** Layout *)

Definition product (l : list Z) : Z := fold_right Z.mul 1 l.

(** [str] holds the row-major strides of [shp], in [size_t] arithmetic *)
Definition row_major (str shp : list Z) : Prop :=
  length str = length shp
  /\ nth (length shp - 1) str 0 = 1
  /\ forall i : nat, (S i < length shp)%nat ->
       nth i str 0 = size_t (nth (S i) str 0 * nth (S i) shp 0).

(** what [tensr_create] returns when it returns a tensor; [junk] is the
    uninitialised contents of the block obtained for the data *)
Definition created (shp : list Z) (nd : Z) (dt : TensrDType) (dev : TensrDevice)
  (junk : nat -> byte) (t : Tensor) : Prop :=
  ndim t = nd
  /\ shape t = firstn (Z.to_nat nd) shp
  /\ row_major (strides t) (shape t)
  /\ size t = size_t (product (shape t))
  /\ dtype t = dt
  /\ device t = dev
  /\ device_id t = 0
  /\ owns_data t = true
  /\ data t = map junk (seq 0 (Z.to_nat (size_t (size t * tensr_dtype_size dt)))).

(** The metadata of a contiguous tensor: the last stride is 1, every other
    stride is the product of the next stride and the next extent, and
    [size] is the product of the extents.  The products are those of the
    code: products of [size_t]. *)
Definition contiguous (t : Tensor) : Prop :=
  Z.of_nat (length (shape t)) = ndim t
  /\ Z.of_nat (length (strides t)) = ndim t
  /\ nth (Z.to_nat (ndim t - 1)) (strides t) 0 = 1
  /\ (forall i, 0 <= i < ndim t - 1 ->
        nth (Z.to_nat i) (strides t) 0
        = size_t (nth (Z.to_nat (i + 1)) (strides t) 0
                  * nth (Z.to_nat (i + 1)) (shape t) 0))
  /\ size t = size_t (product (shape t)).

(** ** Elements *)

Definition elem_width (dt : TensrDType) : nat := Z.to_nat (tensr_dtype_size dt).

(** the flat element [i] of a tensor, as the bit pattern of its dtype *)
Definition elem (t : Tensor) (i : Z) : result Z :=
  load (elem_width (dtype t)) (data t) i.

(** a tensor as the data model has it: [ndim] extents, their product as
    [size], and a buffer of [size] elements *)
Definition well_formed (t : Tensor) : Prop :=
  1 <= ndim t < 2 ^ 31
  /\ Z.of_nat (length (shape t)) = ndim t
  /\ Forall (fun d => 0 <= d < 2 ^ 64) (shape t)
  /\ size t = product (shape t)
  /\ 0 <= size t < 2 ^ 64
  /\ Z.of_nat (length (data t)) = size t * tensr_dtype_size (dtype t)
  /\ size t * tensr_dtype_size (dtype t) < 2 ^ 64.

(** the dtypes [BINARY_OP] computes on *)
Definition arith_dtype (dt : TensrDType) : Prop :=
  dt = TENSR_FLOAT32 \/ dt = TENSR_FLOAT64 \/ dt = TENSR_INT32 \/ dt = TENSR_INT64.

(** [x + y] in the arithmetic of the dtype *)
Definition elem_add (dt : TensrDType) (x y : Z) : Z :=
  if dt =? TENSR_FLOAT32 then f32_add x y
  else if dt =? TENSR_FLOAT64 then f64_add x y
  else if dt =? TENSR_INT32 then (x + y) mod 2 ^ 32
  else (x + y) mod 2 ^ 64.

(** ** Matrices *)

(** the element at row [i] and column [j] of a row-major matrix with
    [cols] columns, as the bit pattern of a [w]-byte type *)
Definition mat_at (w : nat) (buf : list byte) (cols i j : Z) : Z :=
  le_combine (firstn w (skipn (Z.to_nat (i * cols + j) * w) buf)).

(** the entry of the product: the sum over [p] of [a[i][p] * b[p][j]],
    accumulated from zero in the order of [p] *)
Definition dot_product (w : nat) (add mul : Z -> Z -> Z) (da db : list byte)
  (k n i j : Z) : Z :=
  fold_left (fun s p => add s (mul (mat_at w da k i p) (mat_at w db n p j)))
    (map Z.of_nat (seq 0 (Z.to_nat k))) 0.

Definition float_dtype (dt : TensrDType) : Prop :=
  dt = TENSR_FLOAT32 \/ dt = TENSR_FLOAT64.

Definition float_add (dt : TensrDType) : Z -> Z -> Z :=
  if dt =? TENSR_FLOAT32 then f32_add else f64_add.

Definition float_mul (dt : TensrDType) : Z -> Z -> Z :=
  if dt =? TENSR_FLOAT32 then f32_mul else f64_mul.

(** the six dtypes of the registry *)
Definition supported_dtype (dt : TensrDType) : Prop :=
  In dt [TENSR_FLOAT32; TENSR_FLOAT64; TENSR_INT32; TENSR_INT64;
         TENSR_UINT8; TENSR_BOOL].

(** ** Sample data *)

Definition zero_junk : nat -> byte := fun _ => byte.of_Z 0.

(** an allocator that answers [n] calls with zero-filled blocks *)
Definition zero_heap (n : nat) : Heap := repeat (Some zero_junk) n.

Definition f32_tensor (shp str : list Z) (vals : list Z) : Tensor :=
  {| data := flat_map (le_split 4) vals; shape := shp; strides := str;
     ndim := Z.of_nat (length shp); size := Z.of_nat (length vals);
     dtype := TENSR_FLOAT32; device := TENSR_CPU; device_id := 0;
     owns_data := true |}.

Definition i32_tensor (shp str : list Z) (vals : list Z) : Tensor :=
  {| data := flat_map (le_split 4) vals; shape := shp; strides := str;
     ndim := Z.of_nat (length shp); size := Z.of_nat (length vals);
     dtype := TENSR_INT32; device := TENSR_CPU; device_id := 0;
     owns_data := true |}.

(** bit patterns of some [float]s and [double]s *)
Definition f32_0 : Z := 0.
Definition f32_1 : Z := 0x3f800000.
Definition f32_2 : Z := 0x40000000.
Definition f32_3 : Z := 0x40400000.
Definition f32_4 : Z := 0x40800000.
Definition f32_5 : Z := 0x40a00000.
Definition f32_6 : Z := 0x40c00000.
Definition f32_18 : Z := 0x41900000.
Definition f64_0 : Z := 0.
Definition f64_2 : Z := 0x4000000000000000.
Definition f64_3 : Z := 0x4008000000000000.

(** [[1 2 3] [4 5 6]] *)
Definition mat23 : Tensor :=
  f32_tensor [2; 3] [3; 1] [f32_1; f32_2; f32_3; f32_4; f32_5; f32_6].

(** [[1 2] [3 4] [5 6]] *)
Definition mat32 : Tensor :=
  f32_tensor [3; 2] [2; 1] [f32_1; f32_2; f32_3; f32_4; f32_5; f32_6].

(** [[2 0] [0 2]] *)
Definition two_eye : Tensor := f32_tensor [2; 2] [2; 1] [f32_2; f32_0; f32_0; f32_2].

(** the singular matrix [[0 0] [0 0]] *)
Definition zero22 : Tensor := f32_tensor [2; 2] [2; 1] [f32_0; f32_0; f32_0; f32_0].

(** [[1 1] [1 1]] of [int32] *)
Definition ones22_i32 : Tensor := i32_tensor [2; 2] [2; 1] [1; 1; 1; 1].

(** an empty vector of [float] and one of [double] *)
Definition empty_f32 : Tensor := f32_tensor [0] [1] [].
Definition empty_f64 : Tensor :=
  {| data := []; shape := [0]; strides := [1]; ndim := 1; size := 0;
     dtype := TENSR_FLOAT64; device := TENSR_CPU; device_id := 0;
     owns_data := true |}.

Definition no_files : FileSystem :=
  {| contents := fun _ => None; writable := fun _ => true |}.

(** a file whose dtype tag is 99: one dimension, one element *)
Definition bad_tag_file : list byte :=
  le_split 8 1 ++ le_split 4 99 ++ le_split 8 1 ++ le_split 8 1.

(** a [float32] file that announces two elements and holds one *)
Definition short_file : list byte :=
  le_split 8 1 ++ le_split 4 TENSR_FLOAT32 ++ le_split 8 2 ++ le_split 8 2
    ++ le_split 4 f32_1.

Definition disk (name : string) (f : list byte) : FileSystem := fs_put no_files name f.

(** the library on top of the sample generator of the C standard; at the
    start of the program [rng_state] is 0 and [rand] is as after [srand(1)] *)
Definition lcg_seed : Z -> Rng Z -> Rng Z := tensr_seed Z lcg_srand.
Definition lcg_tensr_rand
  : list Z -> Z -> TensrDevice -> Z -> Rng Z -> M (option Tensor * Rng Z) :=
  tensr_rand Z lcg_srand lcg_rand LCG_RAND_MAX.
Definition program_start : Rng Z := {| rng_state := 0; libc := lcg_srand 1 |}.

(** ** The tensors the creation and shape operations return

    The number of dimensions fits an [int], as [compute_strides] takes it;
    the axes given to [transpose] are a permutation of the dimensions. *)
Inductive returned (t : Tensor) : Prop :=
| by_create (shp : list Z) (nd : Z) (dt : TensrDType) (dev : TensrDevice)
    (h h' : Heap) :
    0 <= nd < 2 ^ 31 ->
    tensr_create shp nd dt dev h = Ret (Some t, h') -> returned t
| by_zeros (shp : list Z) (nd : Z) (dt : TensrDType) (dev : TensrDevice)
    (h h' : Heap) :
    0 <= nd < 2 ^ 31 ->
    tensr_zeros shp nd dt dev h = Ret (Some t, h') -> returned t
| by_ones (shp : list Z) (nd : Z) (dt : TensrDType) (dev : TensrDevice)
    (h h' : Heap) :
    0 <= nd < 2 ^ 31 ->
    tensr_ones shp nd dt dev h = Ret (Some t, h') -> returned t
| by_full (shp : list Z) (nd value : Z) (dt : TensrDType) (dev : TensrDevice)
    (h h' : Heap) :
    0 <= nd < 2 ^ 31 ->
    tensr_full shp nd value dt dev h = Ret (Some t, h') -> returned t
| by_arange (start stop step : Z) (dt : TensrDType) (dev : TensrDevice)
    (h h' : Heap) :
    tensr_arange start stop step dt dev h = Ret (Some t, h') -> returned t
| by_linspace (start stop num : Z) (dt : TensrDType) (dev : TensrDevice)
    (h h' : Heap) :
    tensr_linspace start stop num dt dev h = Ret (Some t, h') -> returned t
| by_eye (n : Z) (dt : TensrDType) (dev : TensrDevice) (h h' : Heap) :
    tensr_eye n dt dev h = Ret (Some t, h') -> returned t
| by_copy (src : Tensor) (h h' : Heap) :
    0 <= ndim src < 2 ^ 31 ->
    tensr_copy src h = Ret (Some t, h') -> returned t
| by_reshape (t0 : Tensor) (new_shape : list Z) (new_ndim : Z) (h h' : Heap) :
    0 <= new_ndim < 2 ^ 31 ->
    tensr_reshape t0 new_shape new_ndim h = Ret (Some t, h') -> returned t
| by_transpose (t0 : Tensor) (axes : list Z) (naxes : Z) (h h' : Heap) :
    0 <= ndim t0 < 2 ^ 31 ->
    naxes = 0 \/ Permutation axes (map Z.of_nat (seq 0 (Z.to_nat (ndim t0)))) ->
    tensr_transpose t0 axes naxes h = Ret (Some t, h') -> returned t.

(** the transpose of the 2x3 matrix, as the code returns it *)
Definition mat23_transposed : Tensor :=
  {| data := repeat (byte.of_Z 0) 24; shape := [3; 2]; strides := [2; 1];
     ndim := 2; size := 6; dtype := TENSR_FLOAT32; device := TENSR_CPU;
     device_id := 0; owns_data := true |}.

(** ** Vocabulary of the further properties *)

(** [(T)value] for the dtype [T] of a tensor that is filled or set with the
    [double] [value] *)
Definition cast_value (dt : TensrDType) (value : Z) : result Z :=
  if dt =? TENSR_FLOAT32 then Ret (f64_to_f32 value)
  else if dt =? TENSR_FLOAT64 then Ret value
  else if dt =? TENSR_INT32 then f64_to_sint 32 value
  else f64_to_sint 64 value.


(** 1 in the dtype *)
Definition elem_one (dt : TensrDType) : Z :=
  if dt =? TENSR_FLOAT32 then one_f32
  else if dt =? TENSR_FLOAT64 then one_f64
  else 1.

(** the pattern [x] of a floating dtype is a NaN *)
Definition is_nan (dt : TensrDType) (x : Z) : Prop :=
  if dt =? TENSR_FLOAT32 then f32_of_bits x = S754_nan
  else f64_of_bits x = S754_nan.

(** a file system on which no file can be opened for writing *)
Definition read_only : FileSystem :=
  {| contents := fun _ => None; writable := fun _ => false |}.

(** [- x] in the dtype: the sign bit flipped for the floating dtypes, the
    two's complement for the integer dtypes *)
Definition elem_neg (dt : TensrDType) (x : Z) : Z :=
  if dt =? TENSR_FLOAT32 then float_neg 32 x
  else if dt =? TENSR_FLOAT64 then float_neg 64 x
  else if dt =? TENSR_INT32 then (- x) mod 2 ^ 32
  else (- x) mod 2 ^ 64.

(** the quiet NaN with an empty payload and one with the payload 1, each
    with the sign bit clear and set *)
Definition f32_qnan : Z := 0x7fc00000.
Definition f32_qnan_neg : Z := 0xffc00000.
Definition f32_qnan1 : Z := 0x7fc00001.
Definition f32_qnan1_neg : Z := 0xffc00001.

(** [[1.0, NaN, -NaN(1)]] *)
Definition nan_vector : Tensor := f32_tensor [3] [1] [f32_1; f32_qnan; f32_qnan1_neg].

(** well-formed empty matrices of 2^32 rows and of 2^32 columns: the number
    of entries of their product is 2^64 *)
Definition wide0 : Tensor := f32_tensor [2 ^ 32; 0] [0; 1] [].
Definition tall0 : Tensor := f32_tensor [0; 2 ^ 32] [2 ^ 32; 1] [].

(** [x op y] in the dtype, as C compares the two elements *)
Definition elem_cmp (dt : TensrDType) (op : cmp_op) (x y : Z) : bool :=
  if dt =? TENSR_FLOAT32 then float_cmp 8 23 op x y
  else if dt =? TENSR_FLOAT64 then float_cmp 11 52 op x y
  else if dt =? TENSR_INT32 then int_cmp 32 op x y
  else int_cmp 64 op x y.

(** the elements of a tensor are the truth values [v 0], [v 1], ... *)
Definition holds_bools (t : Tensor) (v : Z -> bool) : Prop :=
  forall i, 0 <= i < size t -> load 1 (data t) i = Ret (Z.b2z (v i)).

(** [[1 0 1 1]] and [[1 1 0 1]] of [bool] *)
Definition bool_tensor (vals : list bool) : Tensor :=
  {| data := map (fun b : bool => byte.of_Z (Z.b2z b)) vals;
     shape := [Z.of_nat (length vals)]; strides := [1]; ndim := 1;
     size := Z.of_nat (length vals); dtype := TENSR_BOOL; device := TENSR_CPU;
     device_id := 0; owns_data := true |}.

(** the elements of a tensor, in the order of the buffer *)
Definition elements (t : Tensor) : list Z :=
  map (fun i : nat =>
         le_combine (firstn (elem_width (dtype t))
                       (skipn (i * elem_width (dtype t)) (data t))))
    (seq 0 (Z.to_nat (size t))).

Definition float_div (dt : TensrDType) : Z -> Z -> Z :=
  if dt =? TENSR_FLOAT32 then f32_div else f64_div.

(** [(float)n] and [(double)n] for a [size_t] [n] *)
Definition float_of_size (dt : TensrDType) (n : Z) : Z :=
  if dt =? TENSR_FLOAT32 then IEEE.of_Z 8 23 n else f64_of_Z n.

Definition float_ltb (dt : TensrDType) : Z -> Z -> bool :=
  if dt =? TENSR_FLOAT32 then f32_ltb else f64_ltb.

(** [FLT_MAX] and [DBL_MAX] *)
Definition float_highest (dt : TensrDType) : Z :=
  if dt =? TENSR_FLOAT32 then FLT_MAX else DBL_MAX.

(** [-FLT_MAX] and [-DBL_MAX] *)
Definition float_lowest (dt : TensrDType) : Z :=
  if dt =? TENSR_FLOAT32 then IEEE.opp 8 23 FLT_MAX else IEEE.opp 11 52 DBL_MAX.

(** what the search loops of [argmax] and [argmin] establish: [idx] is the
    index found, [better x v] holds when the element [x] replaces the value
    [v] kept so far, [init] is the value the search starts from.  Either no
    element is better than [init] and the index is 0, or the element at
    [idx] is better than [init]; no element is better than the value kept
    at the end. *)
Definition arg_result (better : Z -> Z -> bool) (init : Z) (t : Tensor) (idx : Z)
  : Prop :=
  exists val,
    ((val = init /\ idx = 0)
     \/ (0 <= idx < size t /\ elem t idx = Ret val /\ better val init = true))
    /\ forall j y, 0 <= j < size t -> elem t j = Ret y -> better y val = false.

(** the element [tensr_array_1d] stores for the argument [x] *)
Definition array_value (dt : TensrDType) (x : Z) : Z :=
  if dt =? TENSR_FLOAT32 then f64_to_f32 x else x.

(** the width in bits of an argument of [tensr_array_1d]: a [double] for
    the floating dtypes, an [int32_t] for int32 *)
Definition arg_bits (dt : TensrDType) : Z :=
  if dt =? TENSR_INT32 then 32 else 64.

(** * Properties *)

(** ** Machine integers, loops and arrays *)

Lemma size_t_range (z : Z) : 0 <= size_t z < 2 ^ 64.
Proof. unfold size_t. apply Z.mod_pos_bound. lia. Qed.

Lemma size_t_small (z : Z) : 0 <= z < 2 ^ 64 -> size_t z = z.
Proof. intros H. unfold size_t. now apply Z.mod_small. Qed.

Lemma to_int_small (z : Z) : - 2 ^ 31 <= z < 2 ^ 31 -> to_int z = z.
Proof. intros H. unfold to_int. rewrite Z.mod_small; lia. Qed.

Lemma bindR_Ret {A B : Type} (r : result A) (k : A -> result B) (b : B) :
  bindR r k = Ret b -> exists a, r = Ret a /\ k a = Ret b.
Proof. destruct r as [a|]; simpl; [eauto | discriminate]. Qed.

(** the invariant rule of a counting loop, for the runs that return *)
Lemma for_loop_inv {St : Type} (P : Z -> St -> Prop) (body : Z -> St -> result St) :
  forall (n : nat) (i : Z) (s s' : St),
    for_loop n i body s = Ret s' ->
    P i s ->
    (forall j x y, i <= j < i + Z.of_nat n -> P j x -> body j x = Ret y -> P (j + 1) y) ->
    P (i + Z.of_nat n) s'.
Proof.
  induction n as [|n IH]; intros i s s' Hrun Hinit Hstep; simpl in Hrun.
  - injection Hrun as <-. now replace (i + Z.of_nat 0) with i by lia.
  - apply bindR_Ret in Hrun as (s1 & Hb & Hrest).
    replace (i + Z.of_nat (S n)) with ((i + 1) + Z.of_nat n) by lia.
    apply (IH (i + 1) s1 s' Hrest).
    + apply (Hstep i s s1); [lia | assumption | assumption].
    + intros j x y Hj. apply Hstep. lia.
Qed.

(** the invariant rule of a counting loop whose body always returns *)
Lemma for_loop_total {St : Type} (P : Z -> St -> Prop) (body : Z -> St -> result St) :
  forall (n : nat) (i : Z) (s : St),
    P i s ->
    (forall j x, i <= j < i + Z.of_nat n -> P j x ->
                 exists y, body j x = Ret y /\ P (j + 1) y) ->
    exists s', for_loop n i body s = Ret s' /\ P (i + Z.of_nat n) s'.
Proof.
  induction n as [|n IH]; intros i s Hinit Hstep; cbn [for_loop].
  - exists s. split; [reflexivity|]. now replace (i + Z.of_nat 0) with i by lia.
  - destruct (Hstep i s) as (s1 & Hb & Hs1); [lia | assumption |].
    rewrite Hb. cbn [bindR].
    replace (i + Z.of_nat (S n)) with ((i + 1) + Z.of_nat n) by lia.
    apply IH; [assumption|].
    intros j x Hj. apply Hstep. lia.
Qed.

Lemma for_down_inv {St : Type} (Q : Z -> St -> Prop) (body : Z -> St -> result St) :
  forall (n : nat) (s s' : St),
    for_down n body s = Ret s' ->
    Q (Z.of_nat n) s ->
    (forall k x y, 0 <= k < Z.of_nat n -> Q (k + 1) x -> body k x = Ret y -> Q k y) ->
    Q 0 s'.
Proof.
  induction n as [|n IH]; intros s s' Hrun Hinit Hstep; simpl in Hrun.
  - injection Hrun as <-. exact Hinit.
  - apply bindR_Ret in Hrun as (s1 & Hb & Hrest).
    apply (IH s1 s' Hrest).
    + apply (Hstep (Z.of_nat n) s s1); [lia | | assumption].
      now replace (Z.of_nat n + 1) with (Z.of_nat (S n)) by lia.
    + intros k x y Hk. apply Hstep. lia.
Qed.

Lemma for_down_total {St : Type} (Q : Z -> St -> Prop) (body : Z -> St -> result St) :
  forall (n : nat) (s : St),
    Q (Z.of_nat n) s ->
    (forall k x, 0 <= k < Z.of_nat n -> Q (k + 1) x ->
                 exists y, body k x = Ret y /\ Q k y) ->
    exists s', for_down n body s = Ret s' /\ Q 0 s'.
Proof.
  induction n as [|n IH]; intros s Hinit Hstep; cbn [for_down].
  - exists s. split; [reflexivity | exact Hinit].
  - destruct (Hstep (Z.of_nat n) s) as (s1 & Hb & Hs1); [lia | |].
    + now replace (Z.of_nat n + 1) with (Z.of_nat (S n)) by lia.
    + rewrite Hb. cbn [bindR]. apply IH; [assumption|].
      intros k x Hk. apply Hstep. lia.
Qed.

Lemma length_upd (a : list Z) (i : nat) (v : Z) : length (upd a i v) = length a.
Proof.
  revert i; induction a as [|x a IH]; intros [|i]; simpl; auto.
Qed.

Lemma nth_upd_same (a : list Z) (i : nat) (v d : Z) :
  (i < length a)%nat -> nth i (upd a i v) d = v.
Proof.
  revert i; induction a as [|x a IH]; intros [|i] H; simpl in *; try lia; auto.
  apply IH. lia.
Qed.

Lemma nth_upd_other (a : list Z) (i j : nat) (v d : Z) :
  i <> j -> nth j (upd a i v) d = nth j a d.
Proof.
  revert i j; induction a as [|x a IH]; intros [|i] [|j] H; simpl; auto; try lia.
Qed.

Lemma arr_get_Ret (a : list Z) (i v : Z) :
  arr_get a i = Ret v ->
  0 <= i < Z.of_nat (length a) /\ nth (Z.to_nat i) a 0 = v
  /\ nth_error a (Z.to_nat i) = Some v.
Proof.
  unfold arr_get. destruct (i <? 0) eqn:Hi; [discriminate|].
  destruct (nth_error a (Z.to_nat i)) as [x|] eqn:Hn; [|discriminate].
  intros [= <-]. apply Z.ltb_ge in Hi.
  assert (Hlt : (Z.to_nat i < length a)%nat) by (apply nth_error_Some; congruence).
  repeat split; try lia. now apply nth_error_nth.
Qed.

Lemma arr_get_ok (a : list Z) (i : Z) :
  0 <= i < Z.of_nat (length a) -> arr_get a i = Ret (nth (Z.to_nat i) a 0).
Proof.
  intros H. unfold arr_get.
  destruct (i <? 0) eqn:Hi; [apply Z.ltb_lt in Hi; lia|].
  destruct (nth_error a (Z.to_nat i)) as [x|] eqn:Hn.
  - now rewrite (nth_error_nth _ _ 0 Hn).
  - apply nth_error_None in Hn. lia.
Qed.

Lemma arr_set_Ret (a : list Z) (i v : Z) (a' : list Z) :
  arr_set a i v = Ret a' ->
  0 <= i < Z.of_nat (length a) /\ a' = upd a (Z.to_nat i) v.
Proof.
  unfold arr_set.
  destruct ((0 <=? i) && (i <? Z.of_nat (length a))) eqn:Hb; [|discriminate].
  intros [= <-]. apply andb_true_iff in Hb as [H1 H2].
  apply Z.leb_le in H1. apply Z.ltb_lt in H2. auto.
Qed.

Lemma arr_set_ok (a : list Z) (i v : Z) :
  0 <= i < Z.of_nat (length a) -> arr_set a i v = Ret (upd a (Z.to_nat i) v).
Proof.
  intros H. unfold arr_set.
  replace ((0 <=? i) && (i <? Z.of_nat (length a))) with true; [reflexivity|].
  symmetry. apply andb_true_iff. split; [apply Z.leb_le | apply Z.ltb_lt]; lia.
Qed.

(** ** Sizes and strides *)

Lemma product_snoc (l : list Z) (d : Z) : product (l ++ [d]) = product l * d.
Proof.
  unfold product.
  induction l as [|x l IH]; cbn [app fold_right].
  - lia.
  - rewrite IH. lia.
Qed.

Lemma firstn_snoc (l : list Z) (i : nat) (d : Z) :
  nth_error l i = Some d -> firstn (S i) l = firstn i l ++ [d].
Proof.
  revert i; induction l as [|x l IH]; intros [|i] H; simpl in *; try discriminate.
  - now injection H as ->.
  - f_equal. now apply IH.
Qed.

Lemma size_t_mul_l (a d : Z) : size_t (size_t a * d) = size_t (a * d).
Proof. unfold size_t. now rewrite Z.mul_mod_idemp_l by lia. Qed.

Lemma compute_size_Ret (shp : list Z) (nd sz : Z) :
  0 <= nd ->
  compute_size shp nd = Ret sz ->
  nd <= Z.of_nat (length shp)
  /\ sz = size_t (product (firstn (Z.to_nat nd) shp)).
Proof.
  intros Hnd Hrun. unfold compute_size in Hrun.
  pose (P := fun (i sz : Z) =>
               0 <= i <= Z.of_nat (length shp)
               /\ sz = size_t (product (firstn (Z.to_nat i) shp))).
  assert (H : P (0 + Z.of_nat (Z.to_nat nd)) sz).
  { apply (for_loop_inv P _ _ _ _ _ Hrun).
    - unfold P. simpl. split; [lia | reflexivity].
    - intros j x y Hj [Hr Hx] Hb.
      apply bindR_Ret in Hb as (d & Hd & Hy). injection Hy as <-.
      apply arr_get_Ret in Hd as (Hjr & _ & Hn).
      unfold P. split; [lia|].
      replace (Z.to_nat (j + 1)) with (S (Z.to_nat j)) by lia.
      rewrite (firstn_snoc _ _ _ Hn), product_snoc, Hx.
      apply size_t_mul_l. }
  unfold P in H. replace (0 + Z.of_nat (Z.to_nat nd)) with nd in H by lia.
  destruct H as [H1 H2]. split; [lia | exact H2].
Qed.

Lemma compute_size_ok (shp : list Z) (nd : Z) :
  0 <= nd <= Z.of_nat (length shp) ->
  compute_size shp nd = Ret (size_t (product (firstn (Z.to_nat nd) shp))).
Proof.
  intros Hnd. unfold compute_size.
  pose (P := fun (i sz : Z) =>
               0 <= i /\ sz = size_t (product (firstn (Z.to_nat i) shp))).
  destruct (for_loop_total P
              (fun i sz => d <~ arr_get shp i ;; Ret (size_t (sz * d)))
              (Z.to_nat nd) 0 1) as (sz & Hrun & _ & Hsz).
  - unfold P. simpl. split; [lia | reflexivity].
  - intros j x Hj [Hj0 Hx].
    rewrite arr_get_ok by lia. cbn [bindR]. eexists. split; [reflexivity|].
    unfold P. split; [lia|].
    replace (Z.to_nat (j + 1)) with (S (Z.to_nat j)) by lia.
    assert (Hn : nth_error shp (Z.to_nat j) = Some (nth (Z.to_nat j) shp 0)).
    { apply nth_error_nth'. lia. }
    rewrite (firstn_snoc _ _ _ Hn), product_snoc, Hx.
    apply size_t_mul_l.
  - rewrite Hrun, Hsz.
    now replace (0 + Z.of_nat (Z.to_nat nd)) with nd by lia.
Qed.

Lemma compute_strides_ok (str shp : list Z) (nd : Z) :
  1 <= nd < 2 ^ 31 ->
  Z.of_nat (length str) = nd ->
  Z.of_nat (length shp) = nd ->
  exists s, compute_strides str shp nd = Ret s /\ row_major s shp.
Proof.
  intros Hnd Hstr Hshp. unfold compute_strides.
  rewrite size_t_small by lia. rewrite arr_set_ok by lia. cbn [bindR].
  rewrite to_int_small by lia.
  set (s0 := upd str (Z.to_nat (nd - 1)) 1).
  pose (Q := fun (k : Z) (s : list Z) =>
               length s = length shp
               /\ nth (length shp - 1) s 0 = 1
               /\ forall i : nat, k <= Z.of_nat i -> (S i < length shp)%nat ->
                    nth i s 0 = size_t (nth (S i) s 0 * nth (S i) shp 0)).
  destruct (for_down_total Q
              (fun i s =>
                 a <~ arr_get s (i + 1) ;;
                 d <~ arr_get shp (i + 1) ;;
                 arr_set s i (size_t (a * d)))
              (Z.to_nat (nd - 1)) s0) as (s & Hrun & Hlen & Hlast & Hstep).
  - unfold Q, s0. rewrite length_upd. split; [lia|]. split.
    + replace (length shp - 1)%nat with (Z.to_nat (nd - 1)) by lia.
      apply nth_upd_same. lia.
    + intros i Hi Hlt. lia.
  - intros k x Hk (Hlen & Hlast & Hstep).
    rewrite (arr_get_ok x) by lia. cbn [bindR].
    rewrite (arr_get_ok shp) by lia. cbn [bindR].
    rewrite arr_set_ok by lia.
    eexists. split; [reflexivity|].
    unfold Q. rewrite length_upd. split; [exact Hlen|]. split.
    + rewrite nth_upd_other by lia. exact Hlast.
    + intros i Hi Hlt.
      destruct (Nat.eq_dec i (Z.to_nat k)) as [->|Hne].
      * rewrite nth_upd_same by lia. rewrite nth_upd_other by lia.
        replace (Z.to_nat (k + 1)) with (S (Z.to_nat k)) by lia. reflexivity.
      * rewrite !nth_upd_other by lia. apply Hstep; lia.
  - exists s. split; [exact Hrun|].
    unfold row_major. split; [exact Hlen|]. split; [exact Hlast|].
    intros i Hi. apply Hstep; lia.
Qed.

Lemma compute_strides_Ret (str shp : list Z) (nd : Z) (s : list Z) :
  0 <= nd < 2 ^ 31 ->
  Z.of_nat (length str) = nd ->
  Z.of_nat (length shp) = nd ->
  compute_strides str shp nd = Ret s ->
  1 <= nd /\ row_major s shp.
Proof.
  intros Hnd Hstr Hshp Hrun.
  assert (H1 : 1 <= nd).
  { unfold compute_strides in Hrun.
    apply bindR_Ret in Hrun as (s0 & Hset & _).
    apply arr_set_Ret in Hset as [Hr _].
    destruct (Z.eq_dec nd 0) as [->|]; [|lia].
    unfold size_t in Hr. simpl in Hr. lia. }
  split; [exact H1|].
  destruct (compute_strides_ok str shp nd) as (s' & Hs' & Hrm); try lia.
  congruence.
Qed.

(** ** The monad of allocating code *)

Lemma bind_Ret {A B : Type} (m : M A) (k : A -> M B) (h h' : Heap) (b : B) :
  bind m k h = Ret (b, h') ->
  exists a h1, m h = Ret (a, h1) /\ k a h1 = Ret (b, h').
Proof.
  unfold bind. destruct (m h) as [[a h1]|]; [eauto | discriminate].
Qed.

Lemma lift_Ret {A : Type} (r : result A) (h h' : Heap) (a : A) :
  lift r h = Ret (a, h') -> r = Ret a /\ h' = h.
Proof.
  unfold lift. destruct r; [|discriminate]. now intros [= -> ->].
Qed.

Lemma ret_Ret {A : Type} (a b : A) (h h' : Heap) :
  ret a h = Ret (b, h') -> b = a /\ h' = h.
Proof. unfold ret. now intros [= -> ->]. Qed.

Lemma malloc_Ret (n : Z) (h h' : Heap) (p : option (list byte)) :
  malloc n h = Ret (p, h') ->
  match p with
  | Some b => exists junk, h = Some junk :: h' /\ b = map junk (seq 0 (Z.to_nat n))
  | None => True
  end.
Proof.
  unfold malloc. destruct h as [|[junk|] h1]; intros [= <- <-]; eauto.
Qed.

Lemma with_data_Ret (t : Tensor) (d : result (list byte)) (h h' : Heap)
  (r : option Tensor) :
  with_data t d h = Ret (r, h') ->
  exists buf, d = Ret buf /\ r = Some (set_data t buf) /\ h' = h.
Proof.
  unfold with_data. intros H.
  apply bind_Ret in H as (buf & h1 & Hl & Hr).
  apply lift_Ret in Hl as [-> ->]. apply ret_Ret in Hr as [-> ->]. eauto.
Qed.

(** ** [tensr_create] *)

Lemma length_le_words (n : nat) (b : list byte) : length (le_words n b) = n.
Proof. revert b; induction n as [|n IH]; intros b; simpl; auto. Qed.

Lemma length_block (junk : nat -> byte) (n : nat) : length (map junk (seq 0 n)) = n.
Proof. now rewrite length_map, length_seq. Qed.

Lemma block_words (junk : nat -> byte) (nd : Z) :
  0 <= nd < 2 ^ 31 ->
  (length (map junk (seq 0 (Z.to_nat (size_t (nd * sizeof_size_t))))) / 8)%nat
  = Z.to_nat nd.
Proof.
  intros H. rewrite length_block. unfold sizeof_size_t.
  rewrite size_t_small by lia.
  replace (Z.to_nat (nd * 8)) with (Z.to_nat nd * 8)%nat by lia.
  apply Nat.div_mul. lia.
Qed.

Lemma memcpy_words_all (dst src : list Z) (n : nat) :
  length dst = n -> (n <= length src)%nat ->
  memcpy_words dst src n = Ret (firstn n src).
Proof.
  intros Hd Hs. unfold memcpy_words.
  replace ((n <=? length src)%nat && (n <=? length dst)%nat) with true.
  - rewrite skipn_all2 by lia. now rewrite app_nil_r.
  - symmetry. apply andb_true_iff. split; apply Nat.leb_le; lia.
Qed.

Lemma memcpy_words_Ret (dst src : list Z) (n : nat) (r : list Z) :
  memcpy_words dst src n = Ret r -> (n <= length src)%nat.
Proof.
  unfold memcpy_words.
  destruct ((n <=? length src)%nat && (n <=? length dst)%nat) eqn:Hb; [|discriminate].
  intros _. apply andb_true_iff in Hb as [H _]. now apply Nat.leb_le.
Qed.

Lemma tensr_create_ok (shp : list Z) (nd : Z) (dt : TensrDType) (dev : TensrDevice)
  (j0 j1 j2 j3 : nat -> byte) (h : Heap) :
  1 <= nd < 2 ^ 31 ->
  nd <= Z.of_nat (length shp) ->
  exists t,
    tensr_create shp nd dt dev (Some j0 :: Some j1 :: Some j2 :: Some j3 :: h)
    = Ret (Some t, h)
    /\ created shp nd dt dev j3 t.
Proof.
  intros Hnd Hlen.
  assert (Hfl : Z.of_nat (length (firstn (Z.to_nat nd) shp)) = nd).
  { rewrite length_firstn. lia. }
  destruct (compute_strides_ok
              (le_words (Z.to_nat nd)
                 (map j2 (seq 0 (Z.to_nat (size_t (nd * sizeof_size_t))))))
              (firstn (Z.to_nat nd) shp) nd) as (str & Hstr & Hrm);
    [lia | rewrite length_le_words; lia | exact Hfl |].
  eexists. split.
  - unfold tensr_create, bind. cbn [malloc].
    rewrite !block_words by lia.
    rewrite memcpy_words_all by (rewrite ?length_le_words; lia).
    cbn [lift]. rewrite Hstr.
    rewrite compute_size_ok by lia. cbn [ret]. reflexivity.
  - unfold created. cbn [ndim shape strides size dtype device device_id owns_data data].
    repeat split; try reflexivity; apply Hrm.
Qed.

Lemma tensr_create_Ret (shp : list Z) (nd : Z) (dt : TensrDType) (dev : TensrDevice)
  (h h' : Heap) (t : Tensor) :
  0 <= nd < 2 ^ 31 ->
  tensr_create shp nd dt dev h = Ret (Some t, h') ->
  1 <= nd <= Z.of_nat (length shp)
  /\ exists j0 j1 j2 j3,
       h = Some j0 :: Some j1 :: Some j2 :: Some j3 :: h'
       /\ created shp nd dt dev j3 t.
Proof.
  intros Hnd Hrun.
  assert (Hshape : 1 <= nd <= Z.of_nat (length shp)
                   /\ exists j0 j1 j2 j3,
                        h = Some j0 :: Some j1 :: Some j2 :: Some j3 :: h').
  { unfold tensr_create in Hrun.
    apply bind_Ret in Hrun as ([b0|] & h1 & Hm0 & Hrun);
      [|apply ret_Ret in Hrun as [[=] _]].
    apply malloc_Ret in Hm0 as (j0 & -> & _).
    apply bind_Ret in Hrun as (p1 & h2 & Hm1 & Hrun).
    apply bind_Ret in Hrun as (p2 & h3 & Hm2 & Hrun).
    destruct p1 as [b1|]; [|apply ret_Ret in Hrun as [[=] _]].
    destruct p2 as [b2|]; [|apply ret_Ret in Hrun as [[=] _]].
    apply malloc_Ret in Hm1 as (j1 & -> & ->).
    apply malloc_Ret in Hm2 as (j2 & -> & ->).
    rewrite !block_words in Hrun by lia.
    apply bind_Ret in Hrun as (shape1 & h4 & Hcp & Hrun).
    apply lift_Ret in Hcp as [Hcp ->].
    pose proof (memcpy_words_Ret _ _ _ _ Hcp) as Hle.
    rewrite memcpy_words_all in Hcp by (rewrite ?length_le_words; lia).
    injection Hcp as <-.
    apply bind_Ret in Hrun as (strides1 & h5 & Hst & Hrun).
    apply lift_Ret in Hst as [Hst ->].
    apply compute_strides_Ret in Hst as [H1 _];
      [| lia | rewrite length_le_words; lia | rewrite length_firstn; lia].
    apply bind_Ret in Hrun as (sz & h6 & Hsz & Hrun).
    apply lift_Ret in Hsz as [_ ->].
    apply bind_Ret in Hrun as ([b3|] & h7 & Hm3 & Hrun);
      [|apply ret_Ret in Hrun as [[=] _]].
    apply malloc_Ret in Hm3 as (j3 & -> & _).
    apply ret_Ret in Hrun as [_ ->].
    split; [lia|]. now exists j0, j1, j2, j3. }
  destruct Hshape as (Hr & j0 & j1 & j2 & j3 & ->).
  split; [exact Hr|]. exists j0, j1, j2, j3. split; [reflexivity|].
  destruct (tensr_create_ok shp nd dt dev j0 j1 j2 j3 h') as (t' & Ht' & Hc); try lia.
  rewrite Ht' in Hrun. now injection Hrun as <-.
Qed.

(** ** The layout invariant *)

Lemma row_major_contiguous (t : Tensor) :
  1 <= ndim t ->
  Z.of_nat (length (shape t)) = ndim t ->
  row_major (strides t) (shape t) ->
  size t = size_t (product (shape t)) ->
  contiguous t.
Proof.
  intros Hnd Hlen (Hl & Hlast & Hstep) Hsz.
  unfold contiguous. repeat split; try lia; try assumption.
  - now replace (Z.to_nat (ndim t - 1)) with (length (shape t) - 1)%nat by lia.
  - intros i Hi.
    replace (Z.to_nat (i + 1)) with (S (Z.to_nat i)) by lia.
    apply Hstep. lia.
Qed.

Lemma created_contiguous (shp : list Z) (nd : Z) (dt : TensrDType) (dev : TensrDevice)
  (junk : nat -> byte) (t : Tensor) :
  1 <= nd <= Z.of_nat (length shp) ->
  created shp nd dt dev junk t ->
  contiguous t.
Proof.
  intros Hnd (Hn & Hs & Hrm & Hsz & _).
  apply row_major_contiguous; try assumption; try lia.
  rewrite Hs, length_firstn. lia.
Qed.

(** When the product of the extents fits a [size_t], [size] is that
    product. *)
Lemma contiguous_exact_size (t : Tensor) :
  contiguous t ->
  0 <= product (shape t) < 2 ^ 64 ->
  size t = product (shape t).
Proof.
  intros (_ & _ & _ & _ & Hsz) Hfit. rewrite Hsz. now apply size_t_small.
Qed.

Lemma contiguous_set_data (t : Tensor) (d : list byte) :
  contiguous t -> contiguous (set_data t d).
Proof. intros H. exact H. Qed.

Lemma tensr_create_contiguous (shp : list Z) (nd : Z) (dt : TensrDType)
  (dev : TensrDevice) (h h' : Heap) (t : Tensor) :
  0 <= nd < 2 ^ 31 ->
  tensr_create shp nd dt dev h = Ret (Some t, h') ->
  contiguous t.
Proof.
  intros Hnd Hrun.
  apply tensr_create_Ret in Hrun as (Hr & j0 & j1 & j2 & j3 & _ & Hc); [|exact Hnd].
  exact (created_contiguous _ _ _ _ _ _ Hr Hc).
Qed.

(** a function that allocates with [tensr_create] and then only writes
    into the buffer *)
Ltac fill_inversion H :=
  repeat match type of H with
         | (if ?c then _ else _) _ = Ret _ => destruct c
         | with_data _ _ _ = Ret _ =>
             apply with_data_Ret in H as (? & _ & [= ->] & _)
         | ret _ _ = Ret _ => apply ret_Ret in H as [[= ->] _]
         end.

Lemma tensr_zeros_Ret (shp : list Z) (nd : Z) (dt : TensrDType) (dev : TensrDevice)
  (h h' : Heap) (t : Tensor) :
  tensr_zeros shp nd dt dev h = Ret (Some t, h') ->
  exists t0 buf, tensr_create shp nd dt dev h = Ret (Some t0, h')
                 /\ memset (data t0) (byte.of_Z 0)
                      (size_t (size t0 * tensr_dtype_size dt)) = Ret buf
                 /\ t = set_data t0 buf.
Proof.
  unfold tensr_zeros. intros H.
  apply bind_Ret in H as ([t0|] & h1 & Hc & H); [|apply ret_Ret in H as [[=] _]].
  apply with_data_Ret in H as (buf & Hm & [= ->] & ->). eauto.
Qed.

Lemma tensr_zeros_contiguous (shp : list Z) (nd : Z) (dt : TensrDType)
  (dev : TensrDevice) (h h' : Heap) (t : Tensor) :
  0 <= nd < 2 ^ 31 ->
  tensr_zeros shp nd dt dev h = Ret (Some t, h') ->
  contiguous t.
Proof.
  intros Hnd H. apply tensr_zeros_Ret in H as (t0 & buf & Hc & _ & ->).
  apply contiguous_set_data. eapply tensr_create_contiguous; eauto.
Qed.

Lemma tensr_ones_contiguous (shp : list Z) (nd : Z) (dt : TensrDType)
  (dev : TensrDevice) (h h' : Heap) (t : Tensor) :
  0 <= nd < 2 ^ 31 ->
  tensr_ones shp nd dt dev h = Ret (Some t, h') ->
  contiguous t.
Proof.
  intros Hnd H. unfold tensr_ones in H.
  apply bind_Ret in H as ([t0|] & h1 & Hc & H); [|apply ret_Ret in H as [[=] _]].
  apply tensr_create_contiguous in Hc; [|exact Hnd].
  fill_inversion H; exact Hc.
Qed.

Lemma tensr_full_contiguous (shp : list Z) (nd value : Z) (dt : TensrDType)
  (dev : TensrDevice) (h h' : Heap) (t : Tensor) :
  0 <= nd < 2 ^ 31 ->
  tensr_full shp nd value dt dev h = Ret (Some t, h') ->
  contiguous t.
Proof.
  intros Hnd H. unfold tensr_full in H.
  apply bind_Ret in H as ([t0|] & h1 & Hc & H); [|apply ret_Ret in H as [[=] _]].
  apply tensr_create_contiguous in Hc; [|exact Hnd].
  fill_inversion H; exact Hc.
Qed.

Lemma tensr_arange_contiguous (start stop step : Z) (dt : TensrDType)
  (dev : TensrDevice) (h h' : Heap) (t : Tensor) :
  tensr_arange start stop step dt dev h = Ret (Some t, h') ->
  contiguous t.
Proof.
  intros H. unfold tensr_arange in H.
  apply bind_Ret in H as (n & h0 & _ & H).
  apply bind_Ret in H as ([t0|] & h1 & Hc & H); [|apply ret_Ret in H as [[=] _]].
  apply tensr_create_contiguous in Hc; [|lia].
  fill_inversion H; exact Hc.
Qed.

Lemma tensr_linspace_contiguous (start stop num : Z) (dt : TensrDType)
  (dev : TensrDevice) (h h' : Heap) (t : Tensor) :
  tensr_linspace start stop num dt dev h = Ret (Some t, h') ->
  contiguous t.
Proof.
  intros H. unfold tensr_linspace in H.
  apply bind_Ret in H as ([t0|] & h1 & Hc & H); [|apply ret_Ret in H as [[=] _]].
  apply tensr_create_contiguous in Hc; [|lia].
  fill_inversion H; exact Hc.
Qed.

Lemma tensr_eye_contiguous (n : Z) (dt : TensrDType) (dev : TensrDevice)
  (h h' : Heap) (t : Tensor) :
  tensr_eye n dt dev h = Ret (Some t, h') ->
  contiguous t.
Proof.
  intros H. unfold tensr_eye in H.
  apply bind_Ret in H as ([t0|] & h1 & Hc & H); [|apply ret_Ret in H as [[=] _]].
  apply tensr_zeros_contiguous in Hc; [|lia].
  fill_inversion H; exact Hc.
Qed.

Lemma tensr_copy_Ret (src : Tensor) (h h' : Heap) (t : Tensor) :
  tensr_copy src h = Ret (Some t, h') ->
  exists t0 buf,
    tensr_create (shape src) (ndim src) (dtype src) (device src) h = Ret (Some t0, h')
    /\ memcpy (data t0) (data src)
         (size_t (size src * tensr_dtype_size (dtype src))) = Ret buf
    /\ t = set_data t0 buf.
Proof.
  unfold tensr_copy. intros H.
  apply bind_Ret in H as ([t0|] & h1 & Hc & H); [|apply ret_Ret in H as [[=] _]].
  apply with_data_Ret in H as (buf & Hm & [= ->] & ->). eauto.
Qed.

Lemma tensr_copy_contiguous (src : Tensor) (h h' : Heap) (t : Tensor) :
  0 <= ndim src < 2 ^ 31 ->
  tensr_copy src h = Ret (Some t, h') ->
  contiguous t.
Proof.
  intros Hnd H. apply tensr_copy_Ret in H as (t0 & buf & Hc & _ & ->).
  apply contiguous_set_data. eapply tensr_create_contiguous; eauto.
Qed.

Lemma tensr_reshape_contiguous (t0 : Tensor) (new_shape : list Z) (new_ndim : Z)
  (h h' : Heap) (t : Tensor) :
  0 <= new_ndim < 2 ^ 31 ->
  tensr_reshape t0 new_shape new_ndim h = Ret (Some t, h') ->
  contiguous t.
Proof.
  intros Hnd H. unfold tensr_reshape in H.
  apply bind_Ret in H as (new_size & h0 & Hsz & H).
  apply lift_Ret in Hsz as [Hsz ->].
  apply compute_size_Ret in Hsz as [Hle Hsz]; [|lia].
  destruct (new_size =? size t0) eqn:Heq; cbn [negb] in H;
    [|apply ret_Ret in H as [[=] _]].
  apply Z.eqb_eq in Heq.
  apply bind_Ret in H as ([b0|] & h1 & _ & H); [|apply ret_Ret in H as [[=] _]].
  apply bind_Ret in H as (p1 & h2 & Hm1 & H).
  apply bind_Ret in H as (p2 & h3 & Hm2 & H).
  destruct p1 as [b1|]; [|apply lift_Ret in H as [[=] _]].
  destruct p2 as [b2|]; [|apply lift_Ret in H as [[=] _]].
  apply malloc_Ret in Hm1 as (j1 & -> & ->).
  apply malloc_Ret in Hm2 as (j2 & -> & ->).
  rewrite !block_words in H by lia.
  apply bind_Ret in H as (shape1 & h4 & Hcp & H).
  apply lift_Ret in Hcp as [Hcp ->].
  rewrite memcpy_words_all in Hcp by (rewrite ?length_le_words; lia).
  injection Hcp as <-.
  apply bind_Ret in H as (strides1 & h5 & Hst & H).
  apply lift_Ret in Hst as [Hst ->].
  apply compute_strides_Ret in Hst as [H1 Hrm];
    [| lia | rewrite length_le_words; lia | rewrite length_firstn; lia].
  apply ret_Ret in H as [[= ->] _].
  apply row_major_contiguous; cbn [ndim shape strides size].
  - exact H1.
  - rewrite length_firstn. lia.
  - exact Hrm.
  - congruence.
Qed.

(** *** Transposition: the extents are permuted, their product is not changed *)

Lemma product_Permutation (l l' : list Z) :
  Permutation l l' -> product l = product l'.
Proof.
  unfold product. induction 1; cbn [fold_right]; try lia.
Qed.

Lemma nth_map_Z {A : Type} (f : A -> Z) (l : list A) (i : nat) (d : A) :
  (i < length l)%nat -> nth i (map f l) 0 = f (nth i l d).
Proof.
  intros H. rewrite (nth_indep (map f l) 0 (f d)) by (rewrite length_map; lia).
  apply map_nth.
Qed.

Lemma map_nth_seq (l : list Z) (n : nat) :
  (n <= length l)%nat -> map (fun j => nth j l 0) (seq 0 n) = firstn n l.
Proof.
  intros H. apply (nth_ext _ _ 0 0).
  - rewrite length_map, length_seq, length_firstn. lia.
  - intros i Hi. rewrite length_map, length_seq in Hi.
    rewrite (nth_map_Z _ _ _ O) by (rewrite length_seq; lia).
    rewrite seq_nth by lia.
    rewrite nth_firstn.
    destruct (i <? n)%nat eqn:E; [reflexivity|]. apply Nat.ltb_ge in E. lia.
Qed.

Lemma reversed_axes_Ret (nd : Z) (blk a : list Z) :
  0 <= nd < 2 ^ 64 ->
  Z.of_nat (length blk) = nd ->
  reversed_axes nd blk = Ret a ->
  a = map Z.of_nat (rev (seq 0 (Z.to_nat nd))).
Proof.
  intros Hnd Hlen Hrun. unfold reversed_axes in Hrun.
  pose (P := fun (i : Z) (x : list Z) =>
               length x = length blk
               /\ forall j : nat, Z.of_nat j < i -> nth j x 0 = nd - 1 - Z.of_nat j).
  assert (H : P (0 + Z.of_nat (Z.to_nat nd)) a).
  { apply (for_loop_inv P _ _ _ _ _ Hrun).
    - unfold P. split; [reflexivity | intros; lia].
    - intros j x y Hj [Hl Hx] Hb.
      apply arr_set_Ret in Hb as [Hr ->].
      unfold P. rewrite length_upd. split; [exact Hl|].
      intros k Hk. destruct (Nat.eq_dec k (Z.to_nat j)) as [->|Hne].
      + rewrite nth_upd_same by lia. rewrite size_t_small; lia.
      + rewrite nth_upd_other by lia. apply Hx. lia. }
  destruct H as [Hl Ha].
  apply (nth_ext _ _ 0 0).
  - rewrite length_map, length_rev, length_seq. lia.
  - intros i Hi.
    rewrite (nth_map_Z _ _ _ O) by (rewrite length_rev, length_seq; lia).
    rewrite rev_nth by (rewrite length_seq; lia).
    rewrite length_seq, seq_nth by lia.
    rewrite Ha by lia. lia.
Qed.

Lemma permute_shape_Ret (src axes dst : list Z) (nd : Z) (s : list Z) :
  0 <= nd ->
  Z.of_nat (length dst) = nd ->
  Z.of_nat (length axes) = nd ->
  permute_shape src axes dst nd = Ret s ->
  s = map (fun ax => nth (Z.to_nat ax) src 0) axes.
Proof.
  intros Hnd Hdst Haxes Hrun. unfold permute_shape in Hrun.
  pose (P := fun (i : Z) (x : list Z) =>
               length x = length dst
               /\ forall j : nat, Z.of_nat j < i ->
                    nth j x 0 = nth (Z.to_nat (nth j axes 0)) src 0).
  assert (H : P (0 + Z.of_nat (Z.to_nat nd)) s).
  { apply (for_loop_inv P _ _ _ _ _ Hrun).
    - unfold P. split; [reflexivity | intros; lia].
    - intros j x y Hj [Hl Hx] Hb.
      apply bindR_Ret in Hb as (ax & Hax & Hb).
      apply bindR_Ret in Hb as (d & Hd & Hb).
      apply arr_get_Ret in Hax as (_ & Hax & _).
      apply arr_get_Ret in Hd as (_ & Hd & _).
      apply arr_set_Ret in Hb as [Hr ->].
      unfold P. rewrite length_upd. split; [exact Hl|].
      intros k Hk. destruct (Nat.eq_dec k (Z.to_nat j)) as [->|Hne].
      + rewrite nth_upd_same by lia. congruence.
      + rewrite nth_upd_other by lia. apply Hx. lia. }
  destruct H as [Hl Hs].
  apply (nth_ext _ _ 0 0).
  - rewrite length_map. lia.
  - intros i Hi.
    rewrite (nth_map_Z _ _ _ 0) by lia.
    apply Hs. lia.
Qed.

Lemma product_permuted (src axes : list Z) (n : nat) :
  (n <= length src)%nat ->
  Permutation axes (map Z.of_nat (seq 0 n)) ->
  product (map (fun ax => nth (Z.to_nat ax) src 0) axes) = product (firstn n src).
Proof.
  intros Hn Hperm.
  rewrite (product_Permutation _ _
             (Permutation_map (fun ax => nth (Z.to_nat ax) src 0) Hperm)).
  rewrite map_map. rewrite <- (map_nth_seq src n Hn).
  f_equal. apply map_ext. intros j. now rewrite Nat2Z.id.
Qed.

Lemma tensr_transpose_contiguous (t0 : Tensor) (axes : list Z) (naxes : Z)
  (h h' : Heap) (t : Tensor) :
  0 <= ndim t0 < 2 ^ 31 ->
  naxes = 0 \/ Permutation axes (map Z.of_nat (seq 0 (Z.to_nat (ndim t0)))) ->
  tensr_transpose t0 axes naxes h = Ret (Some t, h') ->
  contiguous t.
Proof.
  intros Hnd Haxes H. unfold tensr_transpose in H.
  apply bind_Ret in H as (axes1 & h0 & Hax & H).
  apply bind_Ret in H as ([res|] & h1 & Hc & H); [|apply ret_Ret in H as [[=] _]].
  apply tensr_create_Ret in Hc as (Hr & j0 & j1 & j2 & j3 & _ & Hc); [|exact Hnd].
  destruct Hc as (Hn & Hs & Hrm & Hsz & _).
  assert (Hperm : Permutation axes1 (map Z.of_nat (seq 0 (Z.to_nat (ndim t0))))).
  { destruct (naxes =? 0) eqn:Hz.
    - apply bind_Ret in Hax as (p & h2 & Hm & Hax).
      apply lift_Ret in Hax as [Hax _].
      destruct p as [b|].
      + apply malloc_Ret in Hm as (j & _ & ->).
        rewrite block_words in Hax by lia.
        apply reversed_axes_Ret in Hax; [| lia | rewrite length_le_words; lia].
        subst axes1. apply Permutation_map. apply Permutation_sym, Permutation_rev.
      + unfold reversed_axes in Hax.
        destruct (Z.to_nat (ndim t0)) as [|n] eqn:En; [lia|].
        cbn in Hax. discriminate.
    - apply Z.eqb_neq in Hz. apply ret_Ret in Hax as [-> _].
      destruct Haxes as [?|Hp]; [lia | exact Hp]. }
  assert (Hlen : Z.of_nat (length axes1) = ndim t0).
  { rewrite (Permutation_length Hperm), length_map, length_seq. lia. }
  apply bind_Ret in H as (shape1 & h3 & Hps & H).
  apply lift_Ret in Hps as [Hps ->].
  apply permute_shape_Ret in Hps;
    [| lia | rewrite Hs, length_firstn; lia | exact Hlen].
  apply bind_Ret in H as (strides1 & h4 & Hst & H).
  apply lift_Ret in Hst as [Hst ->].
  assert (Hl1 : Z.of_nat (length shape1) = ndim t0).
  { rewrite Hps, length_map. exact Hlen. }
  destruct Hrm as (Hls & _).
  apply compute_strides_Ret in Hst as [H1 Hrm1];
    [| lia | rewrite Hls, Hs, length_firstn; lia | lia].
  apply ret_Ret in H as [[= ->] _].
  apply row_major_contiguous; cbn [ndim shape strides size]; try lia.
  - exact Hrm1.
  - rewrite Hsz, Hs, Hps.
    now rewrite (product_permuted (shape t0) axes1 (Z.to_nat (ndim t0))) by (lia || assumption).
Qed.

(** ** Typed access to buffers *)

Lemma in_bounds_iff (w : nat) (buf : list byte) (i : Z) :
  in_bounds w buf i = true
  <-> 0 <= i /\ i * Z.of_nat w + Z.of_nat w <= Z.of_nat (length buf).
Proof.
  unfold in_bounds. rewrite andb_true_iff, Z.leb_le, Z.leb_le. reflexivity.
Qed.

Lemma load_ok (w : nat) (buf : list byte) (i : Z) :
  0 <= i -> i * Z.of_nat w + Z.of_nat w <= Z.of_nat (length buf) ->
  load w buf i = Ret (le_combine (firstn w (skipn (Z.to_nat i * w) buf))).
Proof.
  intros H0 H1. unfold load.
  now rewrite (proj2 (in_bounds_iff w buf i) (conj H0 H1)).
Qed.

Lemma load_Ret (w : nat) (buf : list byte) (i x : Z) :
  load w buf i = Ret x ->
  0 <= i /\ i * Z.of_nat w + Z.of_nat w <= Z.of_nat (length buf).
Proof.
  unfold load. destruct (in_bounds w buf i) eqn:E; [|discriminate].
  intros _. now apply in_bounds_iff.
Qed.

Lemma store_ok (w : nat) (buf : list byte) (i v : Z) :
  0 <= i -> i * Z.of_nat w + Z.of_nat w <= Z.of_nat (length buf) ->
  store w buf i v
  = Ret (firstn (Z.to_nat i * w) buf ++ le_split w v
           ++ skipn (Z.to_nat i * w + w) buf).
Proof.
  intros H0 H1. unfold store.
  now rewrite (proj2 (in_bounds_iff w buf i) (conj H0 H1)).
Qed.

Lemma store_Ret (w : nat) (buf : list byte) (i v : Z) (buf' : list byte) :
  store w buf i v = Ret buf' ->
  (0 <= i /\ i * Z.of_nat w + Z.of_nat w <= Z.of_nat (length buf))
  /\ buf' = firstn (Z.to_nat i * w) buf ++ le_split w v
              ++ skipn (Z.to_nat i * w + w) buf.
Proof.
  unfold store. destruct (in_bounds w buf i) eqn:E; [|discriminate].
  intros [= <-]. split; [now apply in_bounds_iff | reflexivity].
Qed.

Lemma length_store (w : nat) (buf : list byte) (i v : Z) (buf' : list byte) :
  store w buf i v = Ret buf' -> length buf' = length buf.
Proof.
  intros H. apply store_Ret in H as [[H0 H1] ->].
  rewrite !length_app, length_firstn, length_le_split, length_skipn. nia.
Qed.

Lemma slice_app_l {A : Type} (l1 l2 : list A) (m w : nat) :
  (m + w <= length l1)%nat ->
  firstn w (skipn m (l1 ++ l2)) = firstn w (skipn m l1).
Proof.
  intros H. rewrite skipn_app, firstn_app, length_skipn.
  replace (w - (length l1 - m))%nat with 0%nat by lia.
  replace (m - length l1)%nat with 0%nat by lia.
  cbn [skipn firstn]. now rewrite app_nil_r.
Qed.

Lemma slice_firstn {A : Type} (l : list A) (n m w : nat) :
  (m + w <= n)%nat ->
  firstn w (skipn m (firstn n l)) = firstn w (skipn m l).
Proof.
  intros H. rewrite skipn_firstn_comm, firstn_firstn.
  now replace (Nat.min w (n - m)) with w by lia.
Qed.

Lemma load_store_same (w : nat) (buf : list byte) (i v : Z) (buf' : list byte) :
  store w buf i v = Ret buf' ->
  load w buf' i = Ret (v mod 2 ^ (Z.of_nat w * 8)).
Proof.
  intros H. pose proof (length_store _ _ _ _ _ H) as Hl.
  apply store_Ret in H as [[H0 H1] ->].
  rewrite load_ok; [| lia | rewrite Hl; lia].
  f_equal. rewrite <- le_combine_split. f_equal.
  rewrite skipn_app, length_firstn.
  replace (Nat.min (Z.to_nat i * w) (length buf)) with (Z.to_nat i * w)%nat by nia.
  rewrite skipn_all2 by (rewrite length_firstn; lia).
  rewrite Nat.sub_diag. cbn [skipn app].
  rewrite firstn_app, length_le_split, Nat.sub_diag. cbn [firstn].
  rewrite app_nil_r. apply firstn_all2. rewrite length_le_split. lia.
Qed.

Lemma load_store_other (w : nat) (buf : list byte) (i j v : Z) (buf' : list byte) :
  store w buf i v = Ret buf' ->
  0 <= j -> j <> i ->
  load w buf' j = load w buf j.
Proof.
  intros H Hj Hne. pose proof (length_store _ _ _ _ _ H) as Hl.
  apply store_Ret in H as [[H0 H1] ->].
  unfold load, in_bounds. rewrite Hl.
  destruct ((0 <=? j)
            && (j * Z.of_nat w + Z.of_nat w <=? Z.of_nat (length buf))) eqn:E;
    [|reflexivity].
  apply andb_true_iff in E as [_ E]. apply Z.leb_le in E.
  do 2 f_equal.
  destruct (Z_lt_ge_dec j i) as [Hlt|Hge].
  - rewrite slice_app_l by (rewrite length_firstn; nia).
    apply slice_firstn. nia.
  - f_equal. rewrite app_assoc.
    rewrite skipn_app.
    rewrite skipn_all2 by (rewrite length_app, length_firstn, length_le_split; nia).
    cbn [app]. rewrite skipn_skipn. f_equal.
    rewrite length_app, length_firstn, length_le_split. nia.
Qed.

(** ** Element-wise binary operations *)

Lemma zip_loop_ok (w : nat) (g : Z -> Z -> Z) (n : Z) (ra rb rr : list byte) :
  (forall x y, g x y mod 2 ^ (Z.of_nat w * 8) = g x y) ->
  n * Z.of_nat w <= Z.of_nat (length ra) ->
  n * Z.of_nat w <= Z.of_nat (length rb) ->
  n * Z.of_nat w <= Z.of_nat (length rr) ->
  exists rr',
    zip_loop w (fun x y => Ret (g x y)) n ra rb rr = Ret rr'
    /\ length rr' = length rr
    /\ forall i, 0 <= i < n ->
         exists x y, load w ra i = Ret x /\ load w rb i = Ret y
                     /\ load w rr' i = Ret (g x y).
Proof.
  intros Hg Ha Hb Hr. unfold zip_loop.
  pose (P := fun (k : Z) (r : list byte) =>
               length r = length rr
               /\ forall i, 0 <= i < k ->
                    exists x y, load w ra i = Ret x /\ load w rb i = Ret y
                                /\ load w r i = Ret (g x y)).
  destruct (for_loop_total P
              (fun i r => x <~ load w ra i ;; y <~ load w rb i ;;
                          v <~ Ret (g x y) ;; store w r i v)
              (Z.to_nat n) 0 rr) as (rr' & Hrun & Hlen & Hall).
  - unfold P. split; [reflexivity | intros; lia].
  - intros j r Hj [Hl Hprev].
    rewrite (load_ok w ra j) by nia. cbn [bindR].
    rewrite (load_ok w rb j) by nia. cbn [bindR].
    destruct (store w r j
                (g (le_combine (firstn w (skipn (Z.to_nat j * w) ra)))
                   (le_combine (firstn w (skipn (Z.to_nat j * w) rb)))))
      as [r'|] eqn:Hst;
      [| rewrite store_ok in Hst by nia; discriminate].
    exists r'. split; [reflexivity|].
    unfold P. split; [rewrite (length_store _ _ _ _ _ Hst); exact Hl|].
    intros i Hi. destruct (Z.eq_dec i j) as [->|Hne].
    + do 2 eexists. split; [apply load_ok; nia|]. split; [apply load_ok; nia|].
      rewrite (load_store_same _ _ _ _ _ Hst). now rewrite Hg.
    + destruct (Hprev i) as (x & y & Hx & Hy & Hz); [lia|].
      exists x, y. split; [exact Hx|]. split; [exact Hy|].
      rewrite (load_store_other _ _ _ _ _ _ Hst) by lia. exact Hz.
  - exists rr'. split; [exact Hrun|]. split; [exact Hlen|].
    intros i Hi. apply Hall. lia.
Qed.

Lemma to_bits_wrapped (ew mw : Z) (f : spec_float) :
  0 <= ew + mw + 1 ->
  IEEE.to_bits ew mw f mod 2 ^ (ew + mw + 1) = IEEE.to_bits ew mw f.
Proof.
  intros H. unfold IEEE.to_bits. apply Z.mod_mod. apply Z.pow_nonzero; lia.
Qed.

Lemma BINARY_OP_mismatch (op : arith_op) (a b : Tensor) (h : Heap) :
  size a <> size b \/ dtype a <> dtype b ->
  BINARY_OP op a b h = Ret (None, h).
Proof.
  intros H. unfold BINARY_OP.
  replace (negb (size a =? size b) || negb (dtype a =? dtype b)) with true;
    [reflexivity|].
  symmetry. apply orb_true_iff.
  destruct H as [H|H]; [left|right]; apply negb_true_iff; now apply Z.eqb_neq.
Qed.

Lemma well_formed_size (t : Tensor) :
  well_formed t -> size t = size_t (product (firstn (Z.to_nat (ndim t)) (shape t))).
Proof.
  intros (Hnd & Hlen & _ & Hsz & Hr & _).
  rewrite firstn_all2 by lia. rewrite <- Hsz. now rewrite size_t_small.
Qed.

Lemma tensr_add_ok (a b : Tensor) (j0 j1 j2 j3 : nat -> byte) (h : Heap) :
  well_formed a -> well_formed b ->
  size a = size b -> dtype a = dtype b -> arith_dtype (dtype a) ->
  exists r,
    tensr_add a b (Some j0 :: Some j1 :: Some j2 :: Some j3 :: h) = Ret (Some r, h)
    /\ ndim r = ndim a /\ shape r = shape a /\ dtype r = dtype a
    /\ device r = device a /\ size r = size a
    /\ forall i, 0 <= i < size a ->
         exists x y, elem a i = Ret x /\ elem b i = Ret y
                     /\ elem r i = Ret (elem_add (dtype a) x y).
Proof.
  intros Hwa Hwb Hsz Hdt Har.
  pose proof (well_formed_size a Hwa) as Hsa.
  destruct Hwa as (Hnd & Hlen & _ & _ & Hra & Hda & Hba).
  destruct Hwb as (_ & _ & _ & _ & _ & Hdb & _).
  destruct (tensr_create_ok (shape a) (ndim a) (dtype a) (device a) j0 j1 j2 j3 h)
    as (t & Hc & Hn & Hs & _ & Hst & Hd & Hdev & _ & _ & Hbuf); try lia.
  rewrite firstn_all2 in Hs by lia.
  assert (Hsize : size t = size a).
  { rewrite Hst, Hs, Hsa. now rewrite firstn_all2 by lia. }
  assert (Hlt : Z.of_nat (length (data t)) = size a * tensr_dtype_size (dtype a)).
  { rewrite Hbuf, length_block, Hsize. rewrite size_t_small; [lia|].
    destruct Har as [E|[E|[E|E]]]; rewrite E in *; cbn in *; lia. }
  unfold tensr_add, BINARY_OP.
  rewrite Hsz, Hdt, !Z.eqb_refl. cbn [negb orb]. rewrite <- Hdt, <- Hsz.
  unfold bind at 1. rewrite Hc.
  set (w := elem_width (dtype a)).
  assert (Hw : Z.of_nat w = tensr_dtype_size (dtype a)).
  { unfold w, elem_width.
    destruct Har as [E|[E|[E|E]]]; rewrite E; reflexivity. }
  assert (Hloop : forall g : Z -> Z -> Z,
             (forall x y, g x y mod 2 ^ (Z.of_nat w * 8) = g x y) ->
             exists buf,
               zip_loop w (fun x y => Ret (g x y)) (size a) (data a) (data b) (data t)
               = Ret buf
               /\ forall i, 0 <= i < size a ->
                    exists x y, load w (data a) i = Ret x /\ load w (data b) i = Ret y
                                /\ load w buf i = Ret (g x y)).
  { intros g Hg.
    destruct (zip_loop_ok w g (size a) (data a) (data b) (data t) Hg)
      as (buf & Hrun & _ & Hall); try (rewrite Hw; lia).
    - rewrite Hw, Hdb, <- Hsz, <- Hdt. lia.
    - eauto. }
  assert (Hgoal : forall (g : Z -> Z -> Z) buf,
             (forall x y, g x y = elem_add (dtype a) x y) ->
             (forall i, 0 <= i < size a ->
                exists x y, load w (data a) i = Ret x /\ load w (data b) i = Ret y
                            /\ load w buf i = Ret (g x y)) ->
             ndim (set_data t buf) = ndim a /\ shape (set_data t buf) = shape a
             /\ dtype (set_data t buf) = dtype a /\ device (set_data t buf) = device a
             /\ size (set_data t buf) = size a
             /\ forall i, 0 <= i < size a ->
                  exists x y, elem a i = Ret x /\ elem b i = Ret y
                              /\ elem (set_data t buf) i
                                 = Ret (elem_add (dtype a) x y)).
  { intros g buf Hg Hall. cbn [set_data ndim shape dtype device size].
    repeat split; try assumption.
    intros i Hi. destruct (Hall i Hi) as (x & y & Hx & Hy & Hz).
    exists x, y. unfold elem. cbn [set_data dtype data].
    rewrite <- Hdt, Hd. fold w. rewrite <- Hg. auto. }
  destruct Har as [E|[E|[E|E]]].
  - destruct (Hloop (IEEE.add 8 23)) as (buf & Hrun & Hall).
    { intros x y. unfold w, elem_width. rewrite E.
      apply (to_bits_wrapped 8 23). lia. }
    exists (set_data t buf). split.
    + rewrite E. cbn [Z.eqb TENSR_FLOAT32].
      assert (Hw4 : w = 4%nat) by (unfold w, elem_width; rewrite E; reflexivity).
      rewrite Hw4 in Hrun. unfold with_data, bind, lift.
      change (float_op 8 23 OpAdd) with (fun x y => Ret (IEEE.add 8 23 x y)).
      rewrite Hrun. reflexivity.
    + apply (Hgoal (IEEE.add 8 23)); [|exact Hall].
      intros x y. unfold elem_add. rewrite E. reflexivity.
  - destruct (Hloop (IEEE.add 11 52)) as (buf & Hrun & Hall).
    { intros x y. unfold w, elem_width. rewrite E.
      apply (to_bits_wrapped 11 52). lia. }
    exists (set_data t buf). split.
    + rewrite E. cbn [Z.eqb TENSR_FLOAT32 TENSR_FLOAT64].
      assert (Hw4 : w = 8%nat) by (unfold w, elem_width; rewrite E; reflexivity).
      rewrite Hw4 in Hrun. unfold with_data, bind, lift.
      change (float_op 11 52 OpAdd) with (fun x y => Ret (IEEE.add 11 52 x y)).
      rewrite Hrun. reflexivity.
    + apply (Hgoal (IEEE.add 11 52)); [|exact Hall].
      intros x y. unfold elem_add. rewrite E. reflexivity.
  - destruct (Hloop (fun x y => (x + y) mod 2 ^ 32)) as (buf & Hrun & Hall).
    { intros x y. unfold w, elem_width. rewrite E. apply Z.mod_mod. cbn. lia. }
    exists (set_data t buf). split.
    + rewrite E. cbn [Z.eqb TENSR_FLOAT32 TENSR_FLOAT64 TENSR_INT32].
      assert (Hw4 : w = 4%nat) by (unfold w, elem_width; rewrite E; reflexivity).
      rewrite Hw4 in Hrun. unfold with_data, bind, lift.
      change (int_op 32 OpAdd) with (fun x y => Ret ((x + y) mod 2 ^ 32)).
      rewrite Hrun. reflexivity.
    + apply (Hgoal (fun x y => (x + y) mod 2 ^ 32)); [|exact Hall].
      intros x y. unfold elem_add. rewrite E. reflexivity.
  - destruct (Hloop (fun x y => (x + y) mod 2 ^ 64)) as (buf & Hrun & Hall).
    { intros x y. unfold w, elem_width. rewrite E. apply Z.mod_mod. cbn. lia. }
    exists (set_data t buf). split.
    + rewrite E. cbn [Z.eqb TENSR_FLOAT32 TENSR_FLOAT64 TENSR_INT32 TENSR_INT64].
      assert (Hw4 : w = 8%nat) by (unfold w, elem_width; rewrite E; reflexivity).
      rewrite Hw4 in Hrun. unfold with_data, bind, lift.
      change (int_op 64 OpAdd) with (fun x y => Ret ((x + y) mod 2 ^ 64)).
      rewrite Hrun. reflexivity.
    + apply (Hgoal (fun x y => (x + y) mod 2 ^ 64)); [|exact Hall].
      intros x y. unfold elem_add. rewrite E. reflexivity.
Qed.

(** ** Full reductions of an empty tensor *)

Lemma store_whole (w : nat) (buf : list byte) (v : Z) :
  length buf = w -> store w buf 0 v = Ret (le_split w v).
Proof.
  intros H. rewrite store_ok by lia.
  cbn [Z.to_nat Nat.mul Nat.add firstn app].
  rewrite skipn_all2 by lia. now rewrite app_nil_r.
Qed.

Lemma scalar_created (dt : TensrDType) (dev : TensrDevice) (j0 j1 j2 j3 : nat -> byte)
  (h : Heap) :
  exists res,
    tensr_create [1] 1 dt dev (Some j0 :: Some j1 :: Some j2 :: Some j3 :: h)
    = Ret (Some res, h)
    /\ ndim res = 1 /\ shape res = [1] /\ size res = 1 /\ dtype res = dt
    /\ device res = dev
    /\ Z.of_nat (length (data res)) = size_t (tensr_dtype_size dt).
Proof.
  destruct (tensr_create_ok [1] 1 dt dev j0 j1 j2 j3 h)
    as (res & Hc & Hn & Hs & _ & Hsz & Hd & Hdev & _ & _ & Hbuf);
    [lia | cbn; lia |].
  exists res. change (firstn (Z.to_nat 1) [1]) with [1] in Hs.
  rewrite Hs in Hsz. change (size_t (product [1])) with 1 in Hsz.
  repeat split; try assumption.
  rewrite Hbuf, length_block, Hsz.
  rewrite Z2Nat.id by apply size_t_range. f_equal. lia.
Qed.

Lemma reduce_loop_empty (w : nat) (step : Z -> Z -> Z) (buf : list byte) (init : Z) :
  reduce_loop w step 0 buf init = Ret init.
Proof. reflexivity. Qed.

Lemma max_min_empty (w : nat) (dt : TensrDType) (t : Tensor) (axes : list Z)
  (naxes : Z) (keepdims : bool) (j0 j1 j2 j3 : nat -> byte) (h : Heap) :
  size t = 0 ->
  dtype t = dt ->
  (dt = TENSR_FLOAT32 /\ w = 4%nat) \/ (dt = TENSR_FLOAT64 /\ w = 8%nat) ->
  let lowest := if dt =? TENSR_FLOAT32 then IEEE.opp 8 23 FLT_MAX
                else IEEE.opp 11 52 DBL_MAX in
  let highest := if dt =? TENSR_FLOAT32 then FLT_MAX else DBL_MAX in
  let heap := Some j0 :: Some j1 :: Some j2 :: Some j3 :: h in
  exists rmax rmin,
    tensr_max t axes naxes keepdims heap = Ret (Some rmax, h)
    /\ tensr_min t axes naxes keepdims heap = Ret (Some rmin, h)
    /\ ndim rmax = 1 /\ shape rmax = [1] /\ size rmax = 1 /\ dtype rmax = dt
    /\ data rmax = le_split w lowest
    /\ ndim rmin = 1 /\ shape rmin = [1] /\ size rmin = 1 /\ dtype rmin = dt
    /\ data rmin = le_split w highest.
Proof.
  intros Hsz Hdt Hcase lowest highest heap.
  destruct (scalar_created (dtype t) (device t) j0 j1 j2 j3 h)
    as (res & Hc & Hn & Hs & Hsize & Hd & _ & Hlen).
  exists (set_data res (le_split w lowest)), (set_data res (le_split w highest)).
  unfold tensr_max, tensr_min, bind. fold heap in Hc. rewrite Hc.
  rewrite Hsz, !reduce_loop_empty. cbn [bindR]. unfold with_data, bind, lift, ret.
  rewrite Hdt in *. unfold lowest, highest.
  destruct Hcase as [[-> ->]|[-> ->]]; cbn [Z.eqb TENSR_FLOAT32 TENSR_FLOAT64];
    rewrite !store_whole by (change (size_t _) with 4 in Hlen
                             || change (size_t _) with 8 in Hlen; lia);
    cbn [set_data ndim shape size dtype data]; repeat split; assumption.
Qed.

(** ** Matrix product *)

Lemma cell_in_bounds (rows cols r c w len : Z) :
  0 <= r < rows -> 0 <= c < cols -> 0 <= w ->
  rows * cols * w <= len ->
  0 <= r * cols + c < rows * cols /\ (r * cols + c) * w + w <= len.
Proof.
  intros Hr Hc Hw Hlen.
  assert (H1 : 0 <= r * cols) by nia.
  assert (H2 : r * cols + cols <= rows * cols) by nia.
  assert (H3 : (r * cols + c + 1) * w <= rows * cols * w) by nia.
  split; [lia | nia].
Qed.

Lemma dot_loop_ok (w : nat) (add mul : Z -> Z -> Z) (m k n i j : Z)
  (da db : list byte) :
  0 <= i < m -> 0 <= j < n -> 0 <= k ->
  m * k < 2 ^ 64 -> k * n < 2 ^ 64 ->
  m * k * Z.of_nat w <= Z.of_nat (length da) ->
  k * n * Z.of_nat w <= Z.of_nat (length db) ->
  dot_loop w add mul k n i j da db = Ret (dot_product w add mul da db k n i j).
Proof.
  intros Hi Hj Hk Hmk Hkn Hda Hdb. unfold dot_loop, dot_product.
  pose (P := fun (p s : Z) =>
               0 <= p
               /\ s = fold_left
                        (fun s p => add s (mul (mat_at w da k i p) (mat_at w db n p j)))
                        (map Z.of_nat (seq 0 (Z.to_nat p))) 0).
  destruct (for_loop_total P
              (fun p sum =>
                 x <~ load w da (size_t (i * k + p)) ;;
                 y <~ load w db (size_t (p * n + j)) ;;
                 Ret (add sum (mul x y)))
              (Z.to_nat k) 0 0) as (s & Hrun & _ & Hs).
  - unfold P. split; [lia | reflexivity].
  - intros p s Hp [Hp0 Hs].
    destruct (cell_in_bounds m k i p (Z.of_nat w) (Z.of_nat (length da)))
      as [Ha1 Ha2]; try lia.
    destruct (cell_in_bounds k n p j (Z.of_nat w) (Z.of_nat (length db)))
      as [Hb1 Hb2]; try lia.
    rewrite (size_t_small (i * k + p)) by lia.
    rewrite (size_t_small (p * n + j)) by lia.
    rewrite (load_ok w da) by lia. cbn [bindR].
    rewrite (load_ok w db) by lia. cbn [bindR].
    eexists. split; [reflexivity|]. unfold P. split; [lia|].
    replace (Z.to_nat (p + 1)) with (S (Z.to_nat p)) by lia.
    rewrite seq_S, map_app, fold_left_app. cbn [map fold_left Nat.add].
    rewrite <- Hs. unfold mat_at. now rewrite Z2Nat.id by lia.
  - rewrite Hrun, Hs. now replace (0 + Z.of_nat (Z.to_nat k)) with k by lia.
Qed.

Lemma dot_product_wrapped (w : nat) (add mul : Z -> Z -> Z) (da db : list byte)
  (k n i j : Z) :
  (forall x y, add x y mod 2 ^ (Z.of_nat w * 8) = add x y) ->
  dot_product w add mul da db k n i j mod 2 ^ (Z.of_nat w * 8)
  = dot_product w add mul da db k n i j.
Proof.
  intros Hadd. unfold dot_product.
  destruct (Z.to_nat k) as [|c]; [reflexivity|].
  rewrite seq_S, map_app, fold_left_app. cbn [map fold_left]. apply Hadd.
Qed.

Lemma matmul_loops_ok (w : nat) (add mul : Z -> Z -> Z) (m n k : Z)
  (da db dr : list byte) :
  (forall x y, add x y mod 2 ^ (Z.of_nat w * 8) = add x y) ->
  0 <= m -> 0 <= n -> 0 <= k ->
  m * k < 2 ^ 64 -> k * n < 2 ^ 64 -> m * n < 2 ^ 64 ->
  m * k * Z.of_nat w <= Z.of_nat (length da) ->
  k * n * Z.of_nat w <= Z.of_nat (length db) ->
  m * n * Z.of_nat w <= Z.of_nat (length dr) ->
  exists dr',
    matmul_loops w add mul m n k da db dr = Ret dr'
    /\ forall i j, 0 <= i < m -> 0 <= j < n ->
         load w dr' (i * n + j) = Ret (dot_product w add mul da db k n i j).
Proof.
  intros Hadd Hm Hn Hk Hmk Hkn Hmn Hda Hdb Hdr. unfold matmul_loops.
  pose (done := fun (r : list byte) (i j : Z) =>
                  load w r (i * n + j) = Ret (dot_product w add mul da db k n i j)).
  pose (P := fun (i : Z) (r : list byte) =>
               length r = length dr
               /\ forall i' j', 0 <= i' < i -> 0 <= j' < n -> done r i' j').
  destruct (for_loop_total P
              (fun i dr1 =>
                 for_loop (Z.to_nat n) 0
                   (fun j dr2 =>
                      sum <~ dot_loop w add mul k n i j da db ;;
                      store w dr2 (size_t (i * n + j)) sum)
                   dr1)
              (Z.to_nat m) 0 dr) as (dr' & Hrun & _ & Hall).
  - unfold P. split; [reflexivity | intros; lia].
  - intros i r Hi [Hl Hrows].
    pose (Q := fun (j : Z) (x : list byte) =>
                 length x = length dr
                 /\ (forall i' j', 0 <= i' < i -> 0 <= j' < n -> done x i' j')
                 /\ forall j', 0 <= j' < j -> done x i j').
    destruct (for_loop_total Q
                (fun j dr2 =>
                   sum <~ dot_loop w add mul k n i j da db ;;
                   store w dr2 (size_t (i * n + j)) sum)
                (Z.to_nat n) 0 r) as (r' & Hrow & Hl' & Hrows' & Hcur).
    + unfold Q. split; [exact Hl|]. split; [exact Hrows | intros; lia].
    + intros j x Hj (Hlx & Hx1 & Hx2).
      rewrite (dot_loop_ok w add mul m) by lia. cbn [bindR].
      destruct (cell_in_bounds m n i j (Z.of_nat w) (Z.of_nat (length dr)))
        as [Hc1 Hc2]; try lia.
      rewrite (size_t_small (i * n + j)) by lia.
      destruct (store w x (i * n + j) (dot_product w add mul da db k n i j))
        as [x'|] eqn:Hst; [| rewrite store_ok in Hst by lia; discriminate].
      exists x'. split; [reflexivity|].
      unfold Q. split; [rewrite (length_store _ _ _ _ _ Hst); exact Hlx|].
      split.
      * intros i' j' Hi' Hj'. unfold done.
        rewrite (load_store_other _ _ _ _ _ _ Hst) by nia. now apply Hx1.
      * intros j' Hj'. unfold done. destruct (Z.eq_dec j' j) as [->|Hne].
        -- rewrite (load_store_same _ _ _ _ _ Hst).
           now rewrite dot_product_wrapped.
        -- rewrite (load_store_other _ _ _ _ _ _ Hst) by nia. apply Hx2. lia.
    + exists r'. split; [exact Hrow|]. unfold P. split; [exact Hl'|].
      intros i' j' Hi' Hj'. destruct (Z.eq_dec i' i) as [->|Hne].
      * apply Hcur. lia.
      * apply Hrows'; lia.
  - exists dr'. split; [exact Hrun|].
    intros i j Hi Hj. apply Hall; lia.
Qed.

Lemma memset_whole (buf : list byte) (c : byte) (n : Z) :
  Z.of_nat (length buf) = n -> memset buf c n = Ret (repeat c (Z.to_nat n)).
Proof.
  intros H. unfold memset. rewrite (proj2 (Z.leb_le _ _)) by lia.
  rewrite skipn_all2 by lia. now rewrite app_nil_r.
Qed.

Lemma tensr_zeros_ok (shp : list Z) (nd : Z) (dt : TensrDType) (dev : TensrDevice)
  (j0 j1 j2 j3 : nat -> byte) (h : Heap) :
  1 <= nd < 2 ^ 31 ->
  nd <= Z.of_nat (length shp) ->
  exists t,
    tensr_zeros shp nd dt dev (Some j0 :: Some j1 :: Some j2 :: Some j3 :: h)
    = Ret (Some t, h)
    /\ ndim t = nd
    /\ shape t = firstn (Z.to_nat nd) shp
    /\ size t = size_t (product (shape t))
    /\ dtype t = dt
    /\ device t = dev
    /\ data t = repeat (byte.of_Z 0) (Z.to_nat (size_t (size t * tensr_dtype_size dt))).
Proof.
  intros Hnd Hlen.
  destruct (tensr_create_ok shp nd dt dev j0 j1 j2 j3 h Hnd Hlen)
    as (t & Hc & Hn & Hs & _ & Hsz & Hd & Hdev & _ & _ & Hbuf).
  eexists. split.
  - unfold tensr_zeros, bind. rewrite Hc. unfold with_data, bind, lift.
    rewrite memset_whole; [reflexivity|].
    rewrite Hbuf, length_block. rewrite Z2Nat.id by apply size_t_range. reflexivity.
  - cbn [set_data ndim shape size dtype device data]. auto 10.
Qed.

Lemma tensr_matmul_mismatch (a b : Tensor) (h : Heap) (m k k' n : Z) :
  ndim a = 2 -> ndim b = 2 ->
  shape a = [m; k] -> shape b = [k'; n] ->
  k <> k' ->
  tensr_matmul a b h = Ret (None, h).
Proof.
  intros Ha Hb Hsa Hsb Hne. unfold tensr_matmul.
  rewrite Ha, Hb, Hsa, Hsb. cbn [Z.eqb negb orb Pos.eqb].
  change (arr_get [m; k] 1) with (Ret k).
  change (arr_get [k'; n] 0) with (Ret k').
  unfold bind, lift. cbv beta iota.
  now rewrite (proj2 (Z.eqb_neq k k') Hne).
Qed.

Lemma tensr_matmul_ok (a b : Tensor) (m k n : Z) (j0 j1 j2 j3 : nat -> byte)
  (h : Heap) :
  well_formed a -> well_formed b ->
  shape a = [m; k] -> shape b = [k; n] ->
  dtype b = dtype a -> float_dtype (dtype a) ->
  m * n * tensr_dtype_size (dtype a) < 2 ^ 64 ->
  exists r,
    tensr_matmul a b (Some j0 :: Some j1 :: Some j2 :: Some j3 :: h) = Ret (Some r, h)
    /\ ndim r = 2 /\ shape r = [m; n] /\ dtype r = dtype a /\ device r = device a
    /\ forall i j, 0 <= i < m -> 0 <= j < n ->
         elem r (i * n + j)
         = Ret (dot_product (elem_width (dtype a)) (float_add (dtype a))
                  (float_mul (dtype a)) (data a) (data b) k n i j).
Proof.
  intros (_ & Hla & Hfa & Hsa & Hra & Hda & _) (_ & Hlb & Hfb & Hsb & Hrb & Hdb & _)
         Ea Eb Hdt Hfl Hmn.
  rewrite Ea in *. rewrite Eb in *. rewrite Hdt in *.
  cbn [length] in Hla, Hlb. unfold product in Hsa, Hsb. cbn [fold_right] in Hsa, Hsb.
  apply Forall_cons_iff in Hfa as [Hm Hfa]. apply Forall_cons_iff in Hfa as [Hk _].
  apply Forall_cons_iff in Hfb as [_ Hfb]. apply Forall_cons_iff in Hfb as [Hn _].
  set (w := elem_width (dtype a)).
  assert (Hw : Z.of_nat w = tensr_dtype_size (dtype a) /\ 1 <= Z.of_nat w).
  { unfold w, elem_width. destruct Hfl as [E|E]; rewrite E; cbn; lia. }
  destruct Hw as [Hw Hw1].
  assert (Hmn' : m * n < 2 ^ 64) by nia.
  destruct (tensr_zeros_ok [m; n] 2 (dtype a) (device a) j0 j1 j2 j3 h)
    as (t & Hz & Hn2 & Hs & Hsz & Hd & Hdev & Hbuf); [lia | cbn; lia |].
  change (firstn (Z.to_nat 2) [m; n]) with [m; n] in Hs.
  rewrite Hs in Hsz. unfold product in Hsz. cbn [fold_right] in Hsz.
  rewrite size_t_small in Hsz by nia.
  assert (Hlen : Z.of_nat (length (data t)) = m * n * Z.of_nat w).
  { rewrite Hbuf, repeat_length, Hsz. rewrite size_t_small by nia.
    rewrite Z2Nat.id by nia. rewrite Hw. lia. }
  assert (Hloop : forall add mul : Z -> Z -> Z,
             (forall x y, add x y mod 2 ^ (Z.of_nat w * 8) = add x y) ->
             exists dr,
               matmul_loops w add mul m n k (data a) (data b) (data t) = Ret dr
               /\ forall i j, 0 <= i < m -> 0 <= j < n ->
                    load w dr (i * n + j)
                    = Ret (dot_product w add mul (data a) (data b) k n i j)).
  { intros add mul Hadd.
    apply matmul_loops_ok; try assumption; try lia; try nia. }
  unfold tensr_matmul. rewrite <- Hla, <- Hlb, Ea, Eb.
  cbn [length Z.of_nat Pos.of_succ_nat Pos.succ Z.eqb negb orb Pos.eqb].
  change (arr_get [m; k] 1) with (Ret k).
  change (arr_get [k; n] 0) with (Ret k).
  change (arr_get [m; k] 0) with (Ret m).
  change (arr_get [k; n] 1) with (Ret n).
  unfold bind at 1 2, lift at 1 2. cbv beta iota.
  rewrite Z.eqb_refl. cbn [negb].
  unfold bind at 1 2, lift at 1 2. cbv beta iota.
  unfold bind at 1. rewrite Hz.
  destruct Hfl as [E|E].
  - destruct (Hloop f32_add f32_mul) as (dr & Hrun & Hall).
    { intros x y. unfold w, elem_width. rewrite E. apply (to_bits_wrapped 8 23). lia. }
    exists (set_data t dr). split.
    + rewrite E. cbn [Z.eqb TENSR_FLOAT32]. unfold with_data, bind, lift.
      assert (Hw4 : w = 4%nat) by (unfold w, elem_width; rewrite E; reflexivity).
      rewrite Hw4 in Hrun. rewrite Hrun. reflexivity.
    + cbn [set_data ndim shape dtype device]. repeat split; try assumption.
      intros i j Hi Hj. unfold elem. cbn [set_data dtype data]. rewrite Hd. fold w.
      rewrite (Hall i j Hi Hj). unfold float_add, float_mul. now rewrite E.
  - destruct (Hloop f64_add f64_mul) as (dr & Hrun & Hall).
    { intros x y. unfold w, elem_width. rewrite E. apply (to_bits_wrapped 11 52). lia. }
    exists (set_data t dr). split.
    + rewrite E. cbn [Z.eqb TENSR_FLOAT32 TENSR_FLOAT64]. unfold with_data, bind, lift.
      assert (Hw8 : w = 8%nat) by (unfold w, elem_width; rewrite E; reflexivity).
      rewrite Hw8 in Hrun. rewrite Hrun. reflexivity.
    + cbn [set_data ndim shape dtype device]. repeat split; try assumption.
      intros i j Hi Hj. unfold elem. cbn [set_data dtype data]. rewrite Hd. fold w.
      rewrite (Hall i j Hi Hj). unfold float_add, float_mul. now rewrite E.
Qed.

(** ** Saving and loading *)

Lemma firstn_exact {A : Type} (l r : list A) (n : nat) :
  length l = n -> firstn n (l ++ r) = l.
Proof.
  intros <-. rewrite firstn_app, Nat.sub_diag, firstn_all, firstn_O.
  apply app_nil_r.
Qed.

Lemma skipn_exact {A : Type} (l r : list A) (n : nat) :
  length l = n -> skipn n (l ++ r) = r.
Proof.
  intros <-. rewrite skipn_app, Nat.sub_diag, skipn_all. reflexivity.
Qed.

Lemma fread_var_app (w : nat) (v : Z) (rest : list byte) :
  0 <= v < 2 ^ (Z.of_nat w * 8) ->
  fread_var w (le_split w v ++ rest) = (Some v, rest).
Proof.
  intros Hv. unfold fread_var.
  rewrite (proj2 (Nat.leb_le _ _)) by (rewrite length_app, length_le_split; lia).
  rewrite firstn_exact, skipn_exact by apply length_le_split.
  now rewrite le_combine_split, Z.mod_small by exact Hv.
Qed.

Lemma length_flat_words (l : list Z) :
  length (flat_map (le_split 8) l) = (8 * length l)%nat.
Proof.
  induction l as [|x l IH]; [reflexivity|].
  cbn [flat_map]. rewrite length_app, length_le_split, IH. cbn [length]. lia.
Qed.

Lemma le_words_flat_map (l : list Z) :
  Forall (fun d => 0 <= d < 2 ^ 64) l ->
  le_words (length l) (flat_map (le_split 8) l) = l.
Proof.
  induction 1 as [|x l Hx Hl IH]; [reflexivity|].
  cbn [length le_words flat_map].
  rewrite firstn_exact, skipn_exact by apply length_le_split.
  rewrite le_combine_split, Z.mod_small by exact Hx.
  now rewrite IH.
Qed.

Lemma fread_into_exact (blk got rest : list byte) (n : Z) :
  Z.of_nat (length got) = n ->
  length blk = length got ->
  fread_into (Some blk) n (got ++ rest) = Ret (got, rest).
Proof.
  intros Hn Hb. unfold fread_into.
  replace (Z.to_nat n) with (length got) by lia.
  rewrite firstn_exact, skipn_exact by reflexivity.
  rewrite (proj2 (Nat.leb_le _ _)) by lia.
  rewrite skipn_all2 by lia. now rewrite app_nil_r.
Qed.

Lemma supported_dtype_range (dt : TensrDType) :
  supported_dtype dt -> 0 <= dt < 2 ^ 32 /\ 1 <= tensr_dtype_size dt <= 8.
Proof.
  unfold supported_dtype. cbn [In].
  intros [<-|[<-|[<-|[<-|[<-|[<-|[]]]]]]];
    (split; [vm_compute; split; [discriminate | reflexivity]
            | vm_compute; split; discriminate]).
Qed.


(** ** Constants *)

Example FLT_MAX_bits : FLT_MAX = 0x7f7fffff /\ IEEE.opp 8 23 FLT_MAX = 0xff7fffff.
Proof. split; reflexivity. Qed.

Example DBL_MAX_bits :
  DBL_MAX = 0x7fefffffffffffff /\ IEEE.opp 11 52 DBL_MAX = 0xffefffffffffffff.
Proof. split; reflexivity. Qed.

Example f32_samples :
  f64_to_f32 f64_2 = f32_2 /\ f64_to_f32 f64_3 = f32_3
  /\ f32_mul f32_2 f32_3 = f32_6
  /\ f32_add (f32_add (f32_add 0 f32_6) f32_6) f32_6 = f32_18
  /\ f32_to_f64 f32_2 = f64_2.
Proof. repeat split; reflexivity. Qed.

(** well-formedness of a tensor that is written out *)
Ltac closed_well_formed :=
  unfold well_formed; cbn; repeat split; try lia; repeat constructor; lia.

Lemma well_formed_mat23 : well_formed mat23.
Proof. closed_well_formed. Qed.

(** ** Transposition *)

(** The buffer of the source is never read. *)
Lemma tensr_transpose_ignores_data (t : Tensor) (d : list byte) (axes : list Z)
  (naxes : Z) (h : Heap) :
  tensr_transpose (set_data t d) axes naxes h = tensr_transpose t axes naxes h.
Proof. reflexivity. Qed.

(** ** Inverse *)

(** On a square matrix [tensr_inv] is [tensr_copy]. *)
Lemma tensr_inv_is_copy (t : Tensor) (n : Z) (h : Heap) :
  ndim t = 2 -> shape t = [n; n] -> tensr_inv t h = tensr_copy t h.
Proof.
  intros Hnd Hs. unfold tensr_inv. rewrite Hnd, Hs. cbn [Z.eqb Pos.eqb negb].
  change (arr_get [n; n] 0) with (Ret n). change (arr_get [n; n] 1) with (Ret n).
  unfold bind, lift. cbv beta iota. now rewrite Z.eqb_refl.
Qed.

(** ** Reductions over axes *)

Lemma tensr_sum_axes_null (t : Tensor) (axes : list Z) (naxes : Z) (keepdims : bool)
  (h : Heap) :
  naxes <> 0 -> tensr_sum t axes naxes keepdims h = Ret (None, h).
Proof.
  intros H. unfold tensr_sum. now rewrite (proj2 (Z.eqb_neq _ _) H).
Qed.

(** ** Loading *)

Lemma tensr_load_missing (fs : FileSystem) (filename : string) (h : Heap) :
  contents fs filename = None -> tensr_load fs filename h = Ret (None, h).
Proof. intros H. unfold tensr_load. now rewrite H. Qed.

(** ** Seeding *)

Section RandomFacts.
Variable rand_state : Type.
Variable libc_srand : Z -> rand_state.
Variable libc_rand : rand_state -> Z * rand_state.
Variable RAND_MAX : Z.
Variables libm_log libm_cos : Z -> Z.

Lemma ensure_seeded_after_seed (seed now : Z) (g : Rng rand_state) :
  seed mod 2 ^ 32 <> 0 ->
  ensure_seeded rand_state libc_srand now (tensr_seed rand_state libc_srand seed g)
  = tensr_seed rand_state libc_srand seed g.
Proof.
  intros H. unfold ensure_seeded, tensr_seed. cbn [rng_state].
  now rewrite (proj2 (Z.eqb_neq _ _) H).
Qed.

(** After [seed(s)] with a seed other than 0, what the three generators
    return depends neither on the clock nor on the state before. *)
Lemma seeded_runs_agree (seed now1 now2 : Z) (g1 g2 : Rng rand_state)
  (shp : list Z) (nd low high : Z) (dev : TensrDevice) (h : Heap) :
  seed mod 2 ^ 32 <> 0 ->
  let s1 := tensr_seed rand_state libc_srand seed g1 in
  let s2 := tensr_seed rand_state libc_srand seed g2 in
  tensr_rand rand_state libc_srand libc_rand RAND_MAX shp nd dev now1 s1 h
  = tensr_rand rand_state libc_srand libc_rand RAND_MAX shp nd dev now2 s2 h
  /\ tensr_randn rand_state libc_srand libc_rand RAND_MAX libm_log libm_cos
       shp nd dev now1 s1 h
     = tensr_randn rand_state libc_srand libc_rand RAND_MAX libm_log libm_cos
         shp nd dev now2 s2 h
  /\ tensr_randint rand_state libc_srand libc_rand low high shp nd dev now1 s1 h
     = tensr_randint rand_state libc_srand libc_rand low high shp nd dev now2 s2 h.
Proof.
  intros H s1 s2. unfold tensr_rand, tensr_randn, tensr_randint, random_tensor.
  unfold s1, s2. rewrite !ensure_seeded_after_seed by exact H.
  repeat split; reflexivity.
Qed.
End RandomFacts.

(** * The claims *)

(** C1 (fails on the code).  [tensr_transpose] allocates a fresh tensor,
    permutes the extents and recomputes contiguous strides, and never
    writes the buffer.  On the 2x3 matrix [[1 2 3] [4 5 6]], with an
    allocator that hands out zero-filled blocks, the result has shape
    [3; 2], strides [2; 1] and 24 zero bytes: its element at [1][0] is
    0.0, where the source has 2.0 at [0][1]. *)
Theorem transpose_leaves_buffer_unwritten :
  exists r,
    tensr_transpose mat23 [] 0 (zero_heap 5) = Ret (Some r, [])
    /\ shape r = [3; 2]
    /\ strides r = [2; 1]
    /\ data r = repeat (byte.of_Z 0) 24
    /\ tensr_get mat23 [0; 1] 2 = Ret f64_2
    /\ tensr_get r [1; 0] 2 = Ret f64_0.
Proof.
  eexists. split; [vm_compute; reflexivity|].
  repeat split; vm_compute; reflexivity.
Qed.

(** C4 (fails on the code).  [tensr_load] checks that the file opens and
    nothing else.  A file whose dtype tag is 99 is loaded as a tensor of
    dtype 99 and no bytes; a [float32] file that announces two elements
    and holds one is loaded as a tensor of two elements, the second one
    being what the allocator left in the block. *)
Theorem load_accepts_malformed_files :
  (exists t,
     tensr_load (disk "t.bin" bad_tag_file) "t.bin" (zero_heap 5) = Ret (Some t, [])
     /\ dtype t = 99 /\ size t = 1 /\ data t = [])
  /\ (exists t,
        tensr_load (disk "t.bin" short_file) "t.bin" (zero_heap 5) = Ret (Some t, [])
        /\ dtype t = TENSR_FLOAT32 /\ size t = 2
        /\ data t = le_split 4 f32_1 ++ repeat (byte.of_Z 0) 4).
Proof.
  split; eexists; (split; [vm_compute; reflexivity|]);
    repeat split; vm_compute; reflexivity.
Qed.

(** C5 (fails on the code).  With axes given, [tensr_sum] returns NULL: the
    sums of the 2x3 matrix over axis 0, over axis 1 with [keepdims], and
    over the invalid axis 5 are all NULL, and nothing is allocated. *)
Theorem sum_over_axes_returns_null :
  tensr_sum mat23 [0] 1 false (zero_heap 4) = Ret (None, zero_heap 4)
  /\ tensr_sum mat23 [1] 1 true (zero_heap 4) = Ret (None, zero_heap 4)
  /\ tensr_sum mat23 [5] 1 false (zero_heap 4) = Ret (None, zero_heap 4).
Proof. repeat split; apply tensr_sum_axes_null; discriminate. Qed.

(** C6 (fails on the code).  [tensr_inv] returns a copy of its argument.
    For [[2 0] [0 2]] the result holds the same bytes, and the product of
    the matrix with it is [[4 0] [0 4]], not the identity; the singular
    zero matrix is copied as well, where a failure is due. *)
Theorem inv_returns_copy :
  (exists r p,
     tensr_inv two_eye (zero_heap 4) = Ret (Some r, [])
     /\ data r = data two_eye
     /\ tensr_matmul two_eye r (zero_heap 4) = Ret (Some p, [])
     /\ data p = flat_map (le_split 4) [f32_4; f32_0; f32_0; f32_4])
  /\ (exists r,
        tensr_inv zero22 (zero_heap 4) = Ret (Some r, [])
        /\ data r = data zero22).
Proof.
  split.
  - do 2 eexists. split; [vm_compute; reflexivity|].
    split; [reflexivity|]. split; vm_compute; reflexivity.
  - eexists. split; [vm_compute; reflexivity | reflexivity].
Qed.

(** C8 (fails on the code at seed 0).  [rng_state == 0] stands for "not
    seeded yet", so after [seed(0)] the first generator call seeds again
    from the clock: two runs from the same program state, both seeded with
    0, the one at time 1000 and the other at time 1001, return different
    tensors. *)
Theorem seed_zero_follows_the_clock :
  exists t1 g1 t2 g2,
    lcg_tensr_rand [2] 1 TENSR_CPU 1000 (lcg_seed 0 program_start) (zero_heap 4)
    = Ret (Some t1, g1, [])
    /\ lcg_tensr_rand [2] 1 TENSR_CPU 1001 (lcg_seed 0 program_start) (zero_heap 4)
       = Ret (Some t2, g2, [])
    /\ rng_state Z g1 = 1000 /\ rng_state Z g2 = 1001
    /\ data t1 <> data t2.
Proof.
  do 4 eexists. split; [vm_compute; reflexivity|].
  split; [vm_compute; reflexivity|].
  repeat split; vm_compute; discriminate.
Qed.

(** C2 (counterexample).  Shapes are not compared, sizes are: the sum of a
    2x3 and of a 3x2 tensor is computed, and carries the shape of the
    first. *)
Lemma add_accepts_mismatched_shapes :
  shape mat23 <> shape mat32
  /\ exists r,
       tensr_add mat23 mat32 (zero_heap 4) = Ret (Some r, [])
       /\ shape r = [2; 3].
Proof.
  split; [discriminate|].
  eexists. split; [vm_compute; reflexivity | reflexivity].
Qed.

(** C2 (amended).  [add], [sub], [mul] and [div] return NULL for operands
    of different size or different dtype, whatever the allocator does.  For
    well-formed operands of equal size and equal dtype, the dtype being
    float32, float64, int32 or int64, and an allocator that grants the four
    blocks, [add] returns a new tensor with the number of dimensions, shape,
    dtype, device and size of [a], whose flat element [i] is [a[i] + b[i]]
    in the arithmetic of the dtype. *)
Theorem binary_op_contract (a b : Tensor) (j0 j1 j2 j3 : nat -> byte) (h : Heap) :
  (size a <> size b \/ dtype a <> dtype b ->
   forall h0,
     tensr_add a b h0 = Ret (None, h0) /\ tensr_sub a b h0 = Ret (None, h0)
     /\ tensr_mul a b h0 = Ret (None, h0) /\ tensr_div a b h0 = Ret (None, h0))
  /\ (well_formed a -> well_formed b ->
      size a = size b -> dtype a = dtype b -> arith_dtype (dtype a) ->
      exists r,
        tensr_add a b (Some j0 :: Some j1 :: Some j2 :: Some j3 :: h) = Ret (Some r, h)
        /\ ndim r = ndim a /\ shape r = shape a /\ dtype r = dtype a
        /\ device r = device a /\ size r = size a
        /\ forall i, 0 <= i < size a ->
             exists x y, elem a i = Ret x /\ elem b i = Ret y
                         /\ elem r i = Ret (elem_add (dtype a) x y)).
Proof.
  split.
  - intros Hm h0. unfold tensr_add, tensr_sub, tensr_mul, tensr_div.
    repeat split; now apply BINARY_OP_mismatch.
  - apply tensr_add_ok.
Qed.

Lemma binary_op_contract_witness :
  (tensr_add mat23 empty_f32 (zero_heap 4) = Ret (None, zero_heap 4)
   /\ tensr_sub mat23 empty_f32 (zero_heap 4) = Ret (None, zero_heap 4)
   /\ tensr_mul mat23 empty_f32 (zero_heap 4) = Ret (None, zero_heap 4)
   /\ tensr_div mat23 empty_f32 (zero_heap 4) = Ret (None, zero_heap 4))
  /\ exists r,
       tensr_add mat23 mat23 (zero_heap 4) = Ret (Some r, [])
       /\ ndim r = 2 /\ shape r = [2; 3] /\ dtype r = TENSR_FLOAT32
       /\ device r = TENSR_CPU /\ size r = 6
       /\ forall i, 0 <= i < 6 ->
            exists x y, elem mat23 i = Ret x /\ elem mat23 i = Ret y
                        /\ elem r i = Ret (elem_add TENSR_FLOAT32 x y).
Proof.
  split.
  - apply (proj1 (binary_op_contract mat23 empty_f32 zero_junk zero_junk zero_junk
                    zero_junk [])).
    left. discriminate.
  - apply (proj2 (binary_op_contract mat23 mat23 zero_junk zero_junk zero_junk
                    zero_junk [])).
    + closed_well_formed.
    + closed_well_formed.
    + reflexivity.
    + reflexivity.
    + left. reflexivity.
Defined.

(** C3.  For a well-formed tensor of one of the six dtypes, a writable
    file name and an allocator that grants the five blocks of [load],
    [save] returns 0 and the following [load] returns a tensor with the
    same ndim, shape, dtype and size and with the same bytes as payload, on
    the CPU device. *)
Theorem save_load_roundtrip (fs : FileSystem) (filename : string) (t : Tensor)
  (j0 j1 j2 j3 j4 : nat -> byte) (h : Heap) :
  well_formed t ->
  supported_dtype (dtype t) ->
  writable fs filename = true ->
  exists fs' t',
    tensr_save fs filename t = Ret (0, fs')
    /\ tensr_load fs' filename
         (Some j0 :: Some j1 :: Some j2 :: Some j3 :: Some j4 :: h)
       = Ret (Some t', h)
    /\ ndim t' = ndim t /\ shape t' = shape t /\ dtype t' = dtype t
    /\ size t' = size t /\ data t' = data t /\ device t' = TENSR_CPU.
Proof.
  intros (Hnd & Hlen & Hfa & Hsz & Hr & Hd & Hb) Hsup Hw.
  destruct (supported_dtype_range _ Hsup) as [Hdt Hds].
  set (file := le_split 8 (ndim t) ++ le_split 4 (dtype t) ++ le_split 8 (size t)
                 ++ flat_map (le_split 8) (shape t) ++ data t).
  assert (Hsave : tensr_save fs filename t = Ret (0, fs_put fs filename file)).
  { unfold tensr_save. rewrite Hw. unfold fwrite_words, fwrite_bytes, sizeof_size_t.
    rewrite (size_t_small (8 * ndim t)) by lia.
    replace (Z.to_nat (8 * ndim t / 8)) with (length (shape t))
      by (rewrite Z.mul_comm, Z.div_mul by lia; lia).
    rewrite Nat.leb_refl, firstn_all. cbn [bindR].
    rewrite (size_t_small (tensr_dtype_size (dtype t) * size t)) by lia.
    rewrite (proj2 (Z.leb_le _ _)) by lia. cbn [bindR].
    rewrite firstn_all2 by lia. reflexivity. }
  destruct (tensr_create_ok (shape t) (ndim t) (dtype t) TENSR_CPU j1 j2 j3 j4 h)
    as (t0 & Hc & Hn0 & Hs0 & _ & Hsz0 & Hd0 & Hdev0 & _ & _ & Hbuf0); try lia.
  rewrite firstn_all2 in Hs0 by lia.
  assert (Hsize0 : size t0 = size t).
  { rewrite Hsz0, Hs0, <- Hsz. now apply size_t_small. }
  exists (fs_put fs filename file), (set_data t0 (data t)).
  split; [exact Hsave|]. split.
  - unfold tensr_load. cbn [fs_put contents]. rewrite String.eqb_refl.
    unfold file.
    rewrite fread_var_app by (cbn; lia).
    rewrite fread_var_app by (cbn; lia).
    rewrite fread_var_app by (cbn; lia).
    cbn [use]. unfold bind at 1, lift at 1. cbv beta iota.
    unfold bind at 1. cbn [malloc].
    unfold bind at 1, lift at 1, sizeof_size_t.
    rewrite (size_t_small (8 * ndim t)) by lia.
    rewrite fread_into_exact;
      [| rewrite length_flat_words; lia
       | rewrite length_block, length_flat_words, size_t_small by lia; lia].
    cbv beta iota.
    unfold bind at 1, lift at 1. cbv beta iota.
    rewrite length_flat_words.
    replace (8 * length (shape t) / 8)%nat with (length (shape t))
      by (rewrite Nat.mul_comm, Nat.div_mul; lia).
    rewrite le_words_flat_map by exact Hfa.
    unfold bind at 1. rewrite Hc.
    unfold bind at 1, lift at 1. cbv beta iota.
    unfold bind at 1, lift at 1.
    rewrite <- (app_nil_r (data t)) at 1.
    rewrite fread_into_exact;
      [| rewrite size_t_small by lia; lia
       | rewrite Hbuf0, length_block, Hsize0, size_t_small by lia; lia].
    reflexivity.
  - cbn [set_data ndim shape dtype size data device]. auto 10.
Qed.

Lemma save_load_roundtrip_witness :
  exists fs' t',
    tensr_save no_files "t.bin" mat23 = Ret (0, fs')
    /\ tensr_load fs' "t.bin" (zero_heap 5) = Ret (Some t', [])
    /\ ndim t' = 2 /\ shape t' = [2; 3] /\ dtype t' = TENSR_FLOAT32
    /\ size t' = 6 /\ data t' = data mat23 /\ device t' = TENSR_CPU.
Proof.
  apply (save_load_roundtrip no_files "t.bin" mat23 zero_junk zero_junk zero_junk
           zero_junk zero_junk []).
  - closed_well_formed.
  - left. reflexivity.
  - reflexivity.
Defined.

(** C7 (fails on the code).  [tensr_matmul] has a loop for float32 and for
    float64 only.  On [int32] matrices it returns the zero-filled result of
    [tensr_zeros] and no failure: the product of [[1 1] [1 1]] with itself
    is returned as four zeros, where every entry of the product is 2. *)
Lemma matmul_int32_is_zero :
  exists r,
    tensr_matmul ones22_i32 ones22_i32 (zero_heap 4) = Ret (Some r, [])
    /\ shape r = [2; 2] /\ dtype r = TENSR_INT32
    /\ (forall i, 0 <= i < 4 -> elem r i = Ret 0)
    /\ dot_product 4 (fun x y => (x + y) mod 2 ^ 32) (fun x y => (x * y) mod 2 ^ 32)
         (data ones22_i32) (data ones22_i32) 2 2 0 0 = 2.
Proof.
  eexists. split; [vm_compute; reflexivity|].
  split; [reflexivity|]. split; [reflexivity|]. split; [|reflexivity].
  intros i Hi.
  assert (Hc : i = 0 \/ i = 1 \/ i = 2 \/ i = 3) by lia.
  destruct Hc as [->|[->|[->| ->]]]; reflexivity.
Qed.

(** What the floating kernel of [tensr_matmul] does.  For 2-D operands of
    shapes [m; k] and [k'; n], [tensr_matmul] returns NULL when [k] differs
    from [k'].  For
    well-formed operands of shapes [m; k] and [k; n] and of the same dtype,
    float32 or float64, and an allocator that grants the four blocks, it
    returns a tensor of shape [m; n] whose entry [(i, j)] is the sum over
    [p] of [a[i][p] * b[p][j]], accumulated from zero in the order of [p] in
    the arithmetic of the dtype.  The product of [full([2,3], 2.0)] and
    [full([3,2], 3.0)] is the 2x2 tensor with every entry 18.0. *)
Theorem matmul_contract :
  (forall (a b : Tensor) (h : Heap) (m k k' n : Z),
      ndim a = 2 -> ndim b = 2 -> shape a = [m; k] -> shape b = [k'; n] ->
      k <> k' ->
      tensr_matmul a b h = Ret (None, h))
  /\ (forall (a b : Tensor) (m k n : Z) (j0 j1 j2 j3 : nat -> byte) (h : Heap),
         well_formed a -> well_formed b ->
         shape a = [m; k] -> shape b = [k; n] ->
         dtype b = dtype a -> float_dtype (dtype a) ->
         m * n * tensr_dtype_size (dtype a) < 2 ^ 64 ->
         exists r,
           tensr_matmul a b (Some j0 :: Some j1 :: Some j2 :: Some j3 :: h)
           = Ret (Some r, h)
           /\ ndim r = 2 /\ shape r = [m; n] /\ dtype r = dtype a
           /\ device r = device a
           /\ forall i j, 0 <= i < m -> 0 <= j < n ->
                elem r (i * n + j)
                = Ret (dot_product (elem_width (dtype a)) (float_add (dtype a))
                         (float_mul (dtype a)) (data a) (data b) k n i j))
  /\ (exists a b r,
         tensr_full [2; 3] 2 f64_2 TENSR_FLOAT32 TENSR_CPU (zero_heap 4)
         = Ret (Some a, [])
         /\ tensr_full [3; 2] 2 f64_3 TENSR_FLOAT32 TENSR_CPU (zero_heap 4)
            = Ret (Some b, [])
         /\ tensr_matmul a b (zero_heap 4) = Ret (Some r, [])
         /\ shape r = [2; 2] /\ size r = 4
         /\ data r = flat_map (le_split 4) [f32_18; f32_18; f32_18; f32_18]).
Proof.
  split; [|split].
  - intros a b h m k k' n. apply tensr_matmul_mismatch.
  - intros a b m k n j0 j1 j2 j3 h. apply tensr_matmul_ok.
  - do 3 eexists. split; [vm_compute; reflexivity|].
    split; [vm_compute; reflexivity|]. split; [vm_compute; reflexivity|].
    repeat split; reflexivity.
Qed.

Lemma matmul_contract_witness :
  tensr_matmul mat23 mat23 (zero_heap 4) = Ret (None, zero_heap 4)
  /\ exists r,
       tensr_matmul mat23 mat32 (zero_heap 4) = Ret (Some r, [])
       /\ ndim r = 2 /\ shape r = [2; 2] /\ dtype r = TENSR_FLOAT32
       /\ device r = TENSR_CPU
       /\ forall i j, 0 <= i < 2 -> 0 <= j < 2 ->
            elem r (i * 2 + j)
            = Ret (dot_product 4 f32_add f32_mul (data mat23) (data mat32) 3 2 i j).
Proof.
  split.
  - apply (proj1 matmul_contract mat23 mat23 (zero_heap 4) 2 3 2 3);
      (reflexivity || lia).
  - apply (proj1 (proj2 matmul_contract) mat23 mat32 2 3 2
             zero_junk zero_junk zero_junk zero_junk []).
    + closed_well_formed.
    + closed_well_formed.
    + reflexivity.
    + reflexivity.
    + reflexivity.
    + left. reflexivity.
    + cbn. lia.
Defined.

(** The bound on the size of the result is needed: for well-formed empty
    operands of 2^32 rows and of 2^32 columns the number of entries of the
    product wraps around to 0, [tensr_zeros] returns an empty buffer, and
    the first entry is written behind it. *)
Lemma matmul_result_size_wraps :
  well_formed wide0 /\ well_formed tall0
  /\ tensr_matmul wide0 tall0 (zero_heap 4) = Undef.
Proof.
  split; [closed_well_formed|]. split; [closed_well_formed|].
  destruct (tensr_zeros_ok [2 ^ 32; 2 ^ 32] 2 TENSR_FLOAT32 TENSR_CPU
              zero_junk zero_junk zero_junk zero_junk [])
    as (t & Hz & _ & Hs & Hsz & _ & _ & Hbuf); [lia | cbn; lia |].
  assert (Hsize : size t = 0) by (rewrite Hsz, Hs; vm_compute; reflexivity).
  rewrite Hsize in Hbuf. change (Z.to_nat (size_t (0 * _))) with 0%nat in Hbuf.
  cbn [repeat] in Hbuf.
  assert (Ha0 : arr_get [2 ^ 32; 0] 0 = Ret (2 ^ 32)) by reflexivity.
  assert (Ha1 : arr_get [2 ^ 32; 0] 1 = Ret 0) by reflexivity.
  assert (Hb0 : arr_get [0; 2 ^ 32] 0 = Ret 0) by reflexivity.
  assert (Hb1 : arr_get [0; 2 ^ 32] 1 = Ret (2 ^ 32)) by reflexivity.
  unfold tensr_matmul.
  change (ndim wide0) with 2. change (ndim tall0) with 2.
  change (shape wide0) with [2 ^ 32; 0]. change (shape tall0) with [0; 2 ^ 32].
  change (dtype wide0) with TENSR_FLOAT32. change (device wide0) with TENSR_CPU.
  change (zero_heap 4)
    with (Some zero_junk :: Some zero_junk :: Some zero_junk :: Some zero_junk :: []).
  cbn [Z.eqb Pos.eqb negb orb]. unfold bind, lift.
  rewrite Ha1, Hb0. cbn [Z.eqb negb]. rewrite Ha0, Hb1, Hz.
  cbn [Z.eqb TENSR_FLOAT32].
  unfold with_data, bind, lift, matmul_loops. rewrite Hbuf.
  destruct (Z.to_nat (2 ^ 32)) as [|n] eqn:E; [lia|].
  reflexivity.
Qed.

(** C9 (fails on the code).  The size of a returned tensor is not always
    the product of its extents.  [tensr_create] multiplies the extents in
    [size_t] and does not detect the overflow: for the shape [2^32, 2^32] it
    returns a tensor of that shape with size 0 (and an empty buffer), where
    the product is 2^64.  [tensr_transpose] does not check that the axes
    are a permutation: for the axes [0, 0] it returns, for the 2x3 matrix,
    a tensor of shape [2, 2] with the size 6 of its argument, where the
    product is 4. *)
Theorem returned_size_is_not_the_product :
  (exists t,
     tensr_create [2 ^ 32; 2 ^ 32] 2 TENSR_FLOAT32 TENSR_CPU (zero_heap 4)
     = Ret (Some t, [])
     /\ ndim t = 2 /\ shape t = [2 ^ 32; 2 ^ 32] /\ strides t = [2 ^ 32; 1]
     /\ size t = 0 /\ data t = []
     /\ product (shape t) = 2 ^ 64)
  /\ (exists r,
        tensr_transpose mat23 [0; 0] 2 (zero_heap 4) = Ret (Some r, [])
        /\ ndim r = 2 /\ shape r = [2; 2] /\ strides r = [2; 1]
        /\ size r = 6
        /\ product (shape r) = 4).
Proof.
  split.
  - eexists. split; [vm_compute; reflexivity|].
    repeat split; vm_compute; reflexivity.
  - eexists. split; [vm_compute; reflexivity|].
    repeat split; vm_compute; reflexivity.
Qed.

(** What does hold of every tensor returned by create, zeros, ones, full,
    arange, linspace, eye, copy, reshape or transpose, when the number of
    dimensions fits an [int] and the axes given to transpose are a
    permutation: it has [ndim] extents and [ndim] strides, its last stride
    is 1, each other stride is the [size_t] product of the next stride and
    the next extent, and its size is the [size_t] product of its extents. *)
Theorem returned_tensors_are_contiguous (t : Tensor) :
  returned t -> contiguous t.
Proof.
  intros [shp nd dt dev h h' Hnd H | shp nd dt dev h h' Hnd H
         | shp nd dt dev h h' Hnd H | shp nd value dt dev h h' Hnd H
         | start stop step dt dev h h' H | start stop num dt dev h h' H
         | n dt dev h h' H | src h h' Hnd H
         | t0 new_shape new_ndim h h' Hnd H | t0 axes naxes h h' Hnd Hax H].
  - exact (tensr_create_contiguous _ _ _ _ _ _ _ Hnd H).
  - exact (tensr_zeros_contiguous _ _ _ _ _ _ _ Hnd H).
  - exact (tensr_ones_contiguous _ _ _ _ _ _ _ Hnd H).
  - exact (tensr_full_contiguous _ _ _ _ _ _ _ _ Hnd H).
  - exact (tensr_arange_contiguous _ _ _ _ _ _ _ _ H).
  - exact (tensr_linspace_contiguous _ _ _ _ _ _ _ _ H).
  - exact (tensr_eye_contiguous _ _ _ _ _ _ H).
  - exact (tensr_copy_contiguous _ _ _ _ Hnd H).
  - exact (tensr_reshape_contiguous _ _ _ _ _ _ Hnd H).
  - exact (tensr_transpose_contiguous _ _ _ _ _ _ Hnd Hax H).
Qed.

Lemma returned_tensors_are_contiguous_witness :
  contiguous mat23_transposed.
Proof.
  apply (returned_tensors_are_contiguous mat23_transposed).
  apply (by_transpose mat23_transposed mat23 [1; 0] 2 (zero_heap 4) []).
  - cbn. lia.
  - right. apply perm_swap.
  - vm_compute. reflexivity.
Defined.

(** C10.  For a float32 (float64) tensor with [size = 0] and an allocator
    that grants the four blocks, [max] and [min] return, whatever [axes],
    [naxes] and [keepdims] are, a tensor of shape [1] and size 1 that holds
    [-FLT_MAX] and [FLT_MAX] ([-DBL_MAX] and [DBL_MAX]). *)
Theorem empty_max_min_sentinels (t : Tensor) (axes : list Z) (naxes : Z)
  (keepdims : bool) (j0 j1 j2 j3 : nat -> byte) (h : Heap) :
  size t = 0 ->
  (dtype t = TENSR_FLOAT32 ->
   exists rmax rmin,
     tensr_max t axes naxes keepdims (Some j0 :: Some j1 :: Some j2 :: Some j3 :: h)
     = Ret (Some rmax, h)
     /\ tensr_min t axes naxes keepdims (Some j0 :: Some j1 :: Some j2 :: Some j3 :: h)
        = Ret (Some rmin, h)
     /\ ndim rmax = 1 /\ shape rmax = [1] /\ size rmax = 1
     /\ dtype rmax = TENSR_FLOAT32
     /\ data rmax = le_split 4 (IEEE.opp 8 23 FLT_MAX)
     /\ ndim rmin = 1 /\ shape rmin = [1] /\ size rmin = 1
     /\ dtype rmin = TENSR_FLOAT32
     /\ data rmin = le_split 4 FLT_MAX)
  /\ (dtype t = TENSR_FLOAT64 ->
      exists rmax rmin,
        tensr_max t axes naxes keepdims (Some j0 :: Some j1 :: Some j2 :: Some j3 :: h)
        = Ret (Some rmax, h)
        /\ tensr_min t axes naxes keepdims
             (Some j0 :: Some j1 :: Some j2 :: Some j3 :: h)
           = Ret (Some rmin, h)
        /\ ndim rmax = 1 /\ shape rmax = [1] /\ size rmax = 1
        /\ dtype rmax = TENSR_FLOAT64
        /\ data rmax = le_split 8 (IEEE.opp 11 52 DBL_MAX)
        /\ ndim rmin = 1 /\ shape rmin = [1] /\ size rmin = 1
        /\ dtype rmin = TENSR_FLOAT64
        /\ data rmin = le_split 8 DBL_MAX).
Proof.
  intros Hsz. split; intros Hdt.
  - exact (max_min_empty 4 TENSR_FLOAT32 t axes naxes keepdims j0 j1 j2 j3 h
             Hsz Hdt (or_introl (conj eq_refl eq_refl))).
  - exact (max_min_empty 8 TENSR_FLOAT64 t axes naxes keepdims j0 j1 j2 j3 h
             Hsz Hdt (or_intror (conj eq_refl eq_refl))).
Qed.

Lemma empty_max_min_sentinels_witness :
  (exists rmax rmin,
     tensr_max empty_f32 [] 0 false (zero_heap 4) = Ret (Some rmax, [])
     /\ tensr_min empty_f32 [] 0 false (zero_heap 4) = Ret (Some rmin, [])
     /\ ndim rmax = 1 /\ shape rmax = [1] /\ size rmax = 1
     /\ dtype rmax = TENSR_FLOAT32
     /\ data rmax = le_split 4 (IEEE.opp 8 23 FLT_MAX)
     /\ ndim rmin = 1 /\ shape rmin = [1] /\ size rmin = 1
     /\ dtype rmin = TENSR_FLOAT32
     /\ data rmin = le_split 4 FLT_MAX)
  /\ (exists rmax rmin,
        tensr_max empty_f64 [0] 1 true (zero_heap 4) = Ret (Some rmax, [])
        /\ tensr_min empty_f64 [0] 1 true (zero_heap 4) = Ret (Some rmin, [])
        /\ ndim rmax = 1 /\ shape rmax = [1] /\ size rmax = 1
        /\ dtype rmax = TENSR_FLOAT64
        /\ data rmax = le_split 8 (IEEE.opp 11 52 DBL_MAX)
        /\ ndim rmin = 1 /\ shape rmin = [1] /\ size rmin = 1
        /\ dtype rmin = TENSR_FLOAT64
        /\ data rmin = le_split 8 DBL_MAX).
Proof.
  split.
  - apply (proj1 (empty_max_min_sentinels empty_f32 [] 0 false
                    zero_junk zero_junk zero_junk zero_junk [] eq_refl)).
    reflexivity.
  - apply (proj2 (empty_max_min_sentinels empty_f64 [0] 1 true
                    zero_junk zero_junk zero_junk zero_junk [] eq_refl)).
    reflexivity.
Defined.

(** * Further properties *)

(** ** Allocation in [tensr_create] *)

(** X1.  [tensr_create] returns NULL when one of its four allocations is
    refused: the one of the structure, of the shape, of the strides, or
    (for 1 to 2^31 - 1 dimensions read from an array that holds them) of
    the data.  A tensor with no dimension cannot be created: with
    [ndim = 0] and the three first allocations granted, [compute_strides]
    writes [strides[ndim - 1]] outside the empty block, and the call is
    undefined. *)
Theorem tensr_create_failures (shp : list Z) (nd : Z) (dt : TensrDType)
  (dev : TensrDevice) (j0 j1 j2 : nat -> byte) (h : Heap) :
  tensr_create shp nd dt dev (None :: h) = Ret (None, h)
  /\ tensr_create shp nd dt dev [] = Ret (None, [])
  /\ tensr_create shp nd dt dev (Some j0 :: None :: Some j2 :: h) = Ret (None, h)
  /\ tensr_create shp nd dt dev (Some j0 :: Some j1 :: None :: h) = Ret (None, h)
  /\ (1 <= nd < 2 ^ 31 -> nd <= Z.of_nat (length shp) ->
      tensr_create shp nd dt dev (Some j0 :: Some j1 :: Some j2 :: None :: h)
      = Ret (None, h))
  /\ tensr_create shp 0 dt dev (Some j0 :: Some j1 :: Some j2 :: h) = Undef.
Proof.
  repeat split; try reflexivity.
  intros Hnd Hlen.
  destruct (compute_strides_ok
              (le_words (Z.to_nat nd)
                 (map j2 (seq 0 (Z.to_nat (size_t (nd * sizeof_size_t))))))
              (firstn (Z.to_nat nd) shp) nd) as (str & Hstr & _);
    [lia | rewrite length_le_words; lia | rewrite length_firstn; lia |].
  unfold tensr_create, bind. cbn [malloc].
  rewrite !block_words by lia.
  rewrite memcpy_words_all by (rewrite ?length_le_words; lia).
  cbn [lift]. rewrite Hstr.
  rewrite compute_size_ok by lia. reflexivity.
Qed.

Lemma tensr_create_failures_witness :
  tensr_create [2; 3] 2 TENSR_FLOAT32 TENSR_CPU
    (Some zero_junk :: Some zero_junk :: Some zero_junk :: None :: [])
  = Ret (None, []).
Proof.
  destruct (tensr_create_failures [2; 3] 2 TENSR_FLOAT32 TENSR_CPU
              zero_junk zero_junk zero_junk []) as (_ & _ & _ & _ & H & _).
  apply H.
  - lia.
  - cbn. lia.
Defined.

(** ** The type registry *)

(** X2.  The width of a dtype is positive exactly for the six tags of the
    enumeration, and exactly the other integers are named "unknown". *)
Theorem dtype_size_and_name (dt : TensrDType) :
  (0 < tensr_dtype_size dt <-> supported_dtype dt)
  /\ (tensr_dtype_size dt = 0 <-> ~ supported_dtype dt)
  /\ (tensr_dtype_name dt = "unknown"%string <-> ~ supported_dtype dt).
Proof.
  assert (Hdec : supported_dtype dt \/ ~ supported_dtype dt).
  { unfold supported_dtype. cbn [In].
    destruct (Z.eq_dec dt 0) as [->|]; [left; left; reflexivity|].
    destruct (Z.eq_dec dt 1) as [->|]; [left; right; left; reflexivity|].
    destruct (Z.eq_dec dt 2) as [->|]; [left; do 2 right; left; reflexivity|].
    destruct (Z.eq_dec dt 3) as [->|]; [left; do 3 right; left; reflexivity|].
    destruct (Z.eq_dec dt 4) as [->|]; [left; do 4 right; left; reflexivity|].
    destruct (Z.eq_dec dt 5) as [->|]; [left; do 5 right; left; reflexivity|].
    right. unfold TENSR_FLOAT32, TENSR_FLOAT64, TENSR_INT32, TENSR_INT64,
             TENSR_UINT8, TENSR_BOOL. intuition congruence. }
  destruct Hdec as [Hs|Hn].
  - assert (H : 0 < tensr_dtype_size dt /\ tensr_dtype_name dt <> "unknown"%string).
    { unfold supported_dtype in Hs. cbn [In] in Hs.
      destruct Hs as [<-|[<-|[<-|[<-|[<-|[<-|[]]]]]]];
        (split; [reflexivity | discriminate]). }
    destruct H as [H1 H2]. repeat split; intros; try (tauto || lia).
  - assert (H : tensr_dtype_size dt = 0 /\ tensr_dtype_name dt = "unknown"%string).
    { unfold supported_dtype in Hn. cbn [In] in Hn.
      unfold tensr_dtype_size, tensr_dtype_name.
      repeat match goal with
             | |- context [dt =? ?c] =>
                 let E := fresh "E" in
                 destruct (Z.eqb_spec dt c) as [E|E];
                 [exfalso; apply Hn; rewrite E;
                  repeat ((left; reflexivity) || right)|]
             end.
      split; reflexivity. }
    destruct H as [H1 H2]. repeat split; intros; try (tauto || lia).
Qed.

(** ** Filling *)

Lemma fill_ok (w : nat) (g : Z -> Z) (n : Z) (buf : list byte) :
  (forall i, g i mod 2 ^ (Z.of_nat w * 8) = g i) ->
  n * Z.of_nat w <= Z.of_nat (length buf) ->
  exists buf',
    fill w n (fun i => Ret (g i)) buf = Ret buf'
    /\ length buf' = length buf
    /\ forall i, 0 <= i < n -> load w buf' i = Ret (g i).
Proof.
  intros Hg Hlen. unfold fill.
  pose (P := fun (k : Z) (r : list byte) =>
               length r = length buf
               /\ forall i, 0 <= i < k -> load w r i = Ret (g i)).
  destruct (for_loop_total P (fun i b => x <~ Ret (g i) ;; store w b i x)
              (Z.to_nat n) 0 buf) as (buf' & Hrun & Hl & Hall).
  - unfold P. split; [reflexivity | intros; lia].
  - intros j r Hj [Hl Hprev]. cbn [bindR].
    destruct (store w r j (g j)) as [r'|] eqn:Hst;
      [| rewrite store_ok in Hst by nia; discriminate].
    exists r'. split; [reflexivity|].
    unfold P. split; [rewrite (length_store _ _ _ _ _ Hst); exact Hl|].
    intros i Hi. destruct (Z.eq_dec i j) as [->|Hne].
    + rewrite (load_store_same _ _ _ _ _ Hst). now rewrite Hg.
    + rewrite (load_store_other _ _ _ _ _ _ Hst) by lia. apply Hprev. lia.
  - exists buf'. split; [exact Hrun|]. split; [exact Hl|].
    intros i Hi. apply Hall. lia.
Qed.

(** the first iteration of a filling loop whose value is undefined *)
Lemma fill_undefined (w : nat) (n : Z) (buf : list byte) :
  0 < n -> fill w n (fun _ => Undef) buf = Undef.
Proof.
  intros Hn. unfold fill.
  destruct (Z.to_nat n) as [|k] eqn:E; [lia | reflexivity].
Qed.

(** [ones] is [full] with the value 1.0, for every dtype and allocator. *)
Lemma tensr_ones_is_full_one (shp : list Z) (nd : Z) (dt : TensrDType)
  (dev : TensrDevice) (h : Heap) :
  tensr_ones shp nd dt dev h = tensr_full shp nd one_f64 dt dev h.
Proof.
  unfold tensr_ones, tensr_full, bind.
  destruct (tensr_create shp nd dt dev h) as [[[t|] h1]|]; reflexivity.
Qed.

Lemma filled_branch (t : Tensor) (w : nat) (g : Z -> Z) (n : Z) (h : Heap) :
  (forall i, g i mod 2 ^ (Z.of_nat w * 8) = g i) ->
  n * Z.of_nat w <= Z.of_nat (length (data t)) ->
  exists buf,
    with_data t (fill w n (fun i => Ret (g i)) (data t)) h
    = Ret (Some (set_data t buf), h)
    /\ length buf = length (data t)
    /\ forall i, 0 <= i < n -> load w buf i = Ret (g i).
Proof.
  intros Hg Hlen.
  destruct (fill_ok w g n (data t) Hg Hlen) as (buf & Hrun & Hl & Hall).
  exists buf. unfold with_data, bind, lift. rewrite Hrun. auto.
Qed.

Lemma f64_to_sint_wrapped (w value x : Z) :
  0 <= w -> f64_to_sint w value = Ret x -> x mod 2 ^ w = x.
Proof.
  intros Hw. unfold f64_to_sint.
  destruct (IEEE.trunc (f64_of_bits value)) as [z|]; [|discriminate].
  destruct ((- 2 ^ (w - 1) <=? z) && (z <? 2 ^ (w - 1))); [|discriminate].
  intros [= <-]. apply Z.mod_mod. apply Z.pow_nonzero; lia.
Qed.

Lemma cast_value_wrapped (dt : TensrDType) (value x : Z) :
  arith_dtype dt -> 0 <= value < 2 ^ 64 ->
  cast_value dt value = Ret x ->
  x mod 2 ^ (Z.of_nat (elem_width dt) * 8) = x.
Proof.
  intros [->|[->|[->| ->]]] Hv; unfold cast_value, elem_width;
    cbn [Z.eqb TENSR_FLOAT32 TENSR_FLOAT64 TENSR_INT32 TENSR_INT64
           tensr_dtype_size Pos.eqb]; intros H.
  - injection H as <-. apply (to_bits_wrapped 8 23). lia.
  - injection H as <-. apply Z.mod_small. exact Hv.
  - apply (f64_to_sint_wrapped 32 value); [lia | exact H].
  - apply (f64_to_sint_wrapped 64 value); [lia | exact H].
Qed.

(** a tensor freshly created for [shp]: its buffer holds [size] elements *)
Lemma created_buffer (shp : list Z) (nd : Z) (dt : TensrDType) (dev : TensrDevice)
  (j0 j1 j2 j3 : nat -> byte) (h : Heap) :
  1 <= nd < 2 ^ 31 ->
  Z.of_nat (length shp) = nd ->
  size_t (product shp) * tensr_dtype_size dt < 2 ^ 64 ->
  0 <= tensr_dtype_size dt ->
  exists t,
    tensr_create shp nd dt dev (Some j0 :: Some j1 :: Some j2 :: Some j3 :: h)
    = Ret (Some t, h)
    /\ ndim t = nd /\ shape t = shp /\ size t = size_t (product shp)
    /\ dtype t = dt /\ device t = dev /\ owns_data t = true
    /\ row_major (strides t) shp
    /\ Z.of_nat (length (data t)) = size t * tensr_dtype_size dt.
Proof.
  intros Hnd Hlen Hfit Hw.
  destruct (tensr_create_ok shp nd dt dev j0 j1 j2 j3 h)
    as (t & Hc & Hn & Hs & Hrm & Hsz & Hd & Hdev & _ & Ho & Hbuf); try lia.
  rewrite firstn_all2 in Hs by lia. rewrite Hs in Hsz, Hrm.
  exists t. repeat split; try assumption; try apply Hrm.
  rewrite Hbuf, length_block, Hsz.
  pose proof (size_t_range (product shp)).
  rewrite size_t_small by nia. rewrite Z2Nat.id by nia. reflexivity.
Qed.

Lemma elem_width_spec (dt : TensrDType) :
  0 <= tensr_dtype_size dt /\ Z.of_nat (elem_width dt) = tensr_dtype_size dt.
Proof.
  assert (H : 0 <= tensr_dtype_size dt).
  { unfold tensr_dtype_size.
    repeat match goal with |- context [if ?c then _ else _] => destruct c end; lia. }
  split; [exact H|]. unfold elem_width. lia.
Qed.

(** X3.  For the four computing dtypes, every element of [full(value)] is
    [value] converted to the dtype; when the conversion is undefined (a
    NaN or a value out of range for an integer dtype) and the tensor is not
    empty, so is the call. *)
Theorem tensr_full_elements (shp : list Z) (nd value : Z) (dt : TensrDType)
  (dev : TensrDevice) (j0 j1 j2 j3 : nat -> byte) (h : Heap) :
  1 <= nd < 2 ^ 31 ->
  Z.of_nat (length shp) = nd ->
  size_t (product shp) * tensr_dtype_size dt < 2 ^ 64 ->
  arith_dtype dt ->
  0 <= value < 2 ^ 64 ->
  (forall x, cast_value dt value = Ret x ->
     exists t,
       tensr_full shp nd value dt dev (Some j0 :: Some j1 :: Some j2 :: Some j3 :: h)
       = Ret (Some t, h)
       /\ ndim t = nd /\ shape t = shp /\ size t = size_t (product shp)
       /\ dtype t = dt /\ device t = dev
       /\ forall i, 0 <= i < size t -> elem t i = Ret x)
  /\ (cast_value dt value = Undef -> 0 < size_t (product shp) ->
      tensr_full shp nd value dt dev (Some j0 :: Some j1 :: Some j2 :: Some j3 :: h)
      = Undef).
Proof.
  intros Hnd Hlen Hfit Har Hv.
  destruct (elem_width_spec dt) as [Hw0 Hw].
  destruct (created_buffer shp nd dt dev j0 j1 j2 j3 h Hnd Hlen Hfit Hw0)
    as (t & Hc & Hn & Hs & Hsz & Hd & Hdev & _ & _ & Hbuf).
  split.
  - intros x Hx.
    pose proof (cast_value_wrapped dt value x Har Hv Hx) as Hwr.
    destruct (filled_branch t (elem_width dt) (fun _ => x) (size t) h)
      as (buf & Hrun & _ & Hall); [intros _; exact Hwr | rewrite Hw; lia |].
    exists (set_data t buf).
    split.
    + unfold tensr_full, bind. rewrite Hc.
      unfold cast_value in Hx. unfold elem_width in Hrun.
      destruct Har as [E|[E|[E|E]]]; rewrite E in *;
        cbn [Z.eqb TENSR_FLOAT32 TENSR_FLOAT64 TENSR_INT32 TENSR_INT64 Pos.eqb
               tensr_dtype_size] in *;
        try (injection Hx as Hx); rewrite ?Hx; exact Hrun.
    + cbn [set_data ndim shape size dtype device]. repeat split; try assumption.
      intros i Hi. unfold elem. cbn [set_data dtype data]. rewrite Hd.
      now apply Hall.
  - intros Hx Hpos.
    unfold tensr_full, bind. rewrite Hc.
    unfold cast_value in Hx.
    destruct Har as [E|[E|[E|E]]]; rewrite E in *;
      cbn [Z.eqb TENSR_FLOAT32 TENSR_FLOAT64 TENSR_INT32 TENSR_INT64 Pos.eqb] in *;
      try discriminate;
      unfold with_data, bind, lift; rewrite Hx;
      rewrite fill_undefined by lia; reflexivity.
Qed.

Lemma tensr_full_elements_witness :
  exists t,
    tensr_full [2; 3] 2 f64_2 TENSR_FLOAT32 TENSR_CPU (zero_heap 4) = Ret (Some t, [])
    /\ shape t = [2; 3]
    /\ forall i, 0 <= i < size t -> elem t i = Ret f32_2.
Proof.
  destruct (tensr_full_elements [2; 3] 2 f64_2 TENSR_FLOAT32 TENSR_CPU
              zero_junk zero_junk zero_junk zero_junk []) as [H _].
  - lia.
  - reflexivity.
  - vm_compute. reflexivity.
  - left. reflexivity.
  - vm_compute. split; [discriminate | reflexivity].
  - destruct (H f32_2 eq_refl) as (t & Hrun & _ & Hs & _ & _ & _ & Hall).
    exists t. auto.
Defined.

Lemma with_data_ok (t : Tensor) (d : result (list byte)) (buf : list byte) (h : Heap) :
  d = Ret buf -> with_data t d h = Ret (Some (set_data t buf), h).
Proof. intros ->. reflexivity. Qed.

(** ** Zero-filled buffers *)

Lemma le_combine_zeros (n : nat) : le_combine (repeat (byte.of_Z 0) n) = 0.
Proof.
  induction n as [|n IH]; [reflexivity|].
  cbn [repeat].
  change (le_combine (byte.of_Z 0 :: repeat (byte.of_Z 0) n))
    with (Z.lor (byte.unsigned (byte.of_Z 0))
            (Z.shiftl (le_combine (repeat (byte.of_Z 0) n)) 8)).
  rewrite IH. reflexivity.
Qed.

Lemma slice_repeat {A : Type} (c : A) (n m w : nat) :
  (m + w <= n)%nat -> firstn w (skipn m (repeat c n)) = repeat c w.
Proof.
  intros H. replace n with (m + (w + (n - m - w)))%nat by lia.
  rewrite !repeat_app.
  rewrite skipn_exact by apply repeat_length.
  apply firstn_exact, repeat_length.
Qed.

Lemma load_zeros (w : nat) (n : nat) (i : Z) :
  0 <= i -> i * Z.of_nat w + Z.of_nat w <= Z.of_nat n ->
  load w (repeat (byte.of_Z 0) n) i = Ret 0.
Proof.
  intros Hi Hb. rewrite load_ok by (rewrite ?repeat_length; lia).
  rewrite slice_repeat by nia. now rewrite le_combine_zeros.
Qed.

(** a zero tensor for [shp]: the buffer of [size] elements is all zeros *)
Lemma zeros_buffer (shp : list Z) (nd : Z) (dt : TensrDType) (dev : TensrDevice)
  (j0 j1 j2 j3 : nat -> byte) (h : Heap) :
  1 <= nd < 2 ^ 31 ->
  Z.of_nat (length shp) = nd ->
  size_t (product shp) * tensr_dtype_size dt < 2 ^ 64 ->
  exists t,
    tensr_zeros shp nd dt dev (Some j0 :: Some j1 :: Some j2 :: Some j3 :: h)
    = Ret (Some t, h)
    /\ ndim t = nd /\ shape t = shp /\ size t = size_t (product shp)
    /\ dtype t = dt /\ device t = dev
    /\ data t = repeat (byte.of_Z 0) (Z.to_nat (size t * tensr_dtype_size dt)).
Proof.
  intros Hnd Hlen Hfit.
  destruct (tensr_zeros_ok shp nd dt dev j0 j1 j2 j3 h)
    as (t & Hz & Hn & Hs & Hsz & Hd & Hdev & Hbuf); try lia.
  rewrite firstn_all2 in Hs by lia. rewrite Hs in Hsz.
  exists t. repeat split; try assumption.
  rewrite Hbuf, Hsz.
  destruct (elem_width_spec dt) as [Hw _].
  pose proof (size_t_range (product shp)).
  now rewrite size_t_small by nia.
Qed.

(** X4.  Every element of [zeros(shape)] reads as 0, for each of the six
    dtypes. *)
Theorem tensr_zeros_elements (shp : list Z) (nd : Z) (dt : TensrDType)
  (dev : TensrDevice) (j0 j1 j2 j3 : nat -> byte) (h : Heap) :
  1 <= nd < 2 ^ 31 ->
  Z.of_nat (length shp) = nd ->
  size_t (product shp) * tensr_dtype_size dt < 2 ^ 64 ->
  exists t,
    tensr_zeros shp nd dt dev (Some j0 :: Some j1 :: Some j2 :: Some j3 :: h)
    = Ret (Some t, h)
    /\ ndim t = nd /\ shape t = shp /\ size t = size_t (product shp)
    /\ dtype t = dt /\ device t = dev
    /\ forall i, 0 <= i < size t -> elem t i = Ret 0.
Proof.
  intros Hnd Hlen Hfit.
  destruct (zeros_buffer shp nd dt dev j0 j1 j2 j3 h Hnd Hlen Hfit)
    as (t & Hz & Hn & Hs & Hsz & Hd & Hdev & Hbuf).
  exists t. repeat split; try assumption.
  intros i Hi. unfold elem. rewrite Hbuf, Hd.
  destruct (elem_width_spec dt) as [Hw0 Hw].
  apply load_zeros; [lia|]. rewrite Hw. 
  pose proof (size_t_range (product shp)). rewrite Z2Nat.id by nia. nia.
Qed.

Lemma tensr_zeros_elements_witness :
  exists t,
    tensr_zeros [3; 3] 2 TENSR_INT64 TENSR_CPU (zero_heap 4) = Ret (Some t, [])
    /\ forall i, 0 <= i < size t -> elem t i = Ret 0.
Proof.
  destruct (tensr_zeros_elements [3; 3] 2 TENSR_INT64 TENSR_CPU
              zero_junk zero_junk zero_junk zero_junk [])
    as (t & Hrun & _ & _ & _ & _ & _ & Hall).
  - lia.
  - reflexivity.
  - vm_compute. reflexivity.
  - exists t. auto.
Defined.

(** ** The identity matrix *)

Lemma diag_cell (n i j k : Z) :
  0 <= i < n -> 0 <= j < n -> 0 <= k < n ->
  i * n + j = k * n + k -> i = k /\ j = k.
Proof. intros Hi Hj Hk H. assert (i = k) by nia. subst. lia. Qed.

Lemma fill_diag_ok (w : nat) (n v : Z) (buf : list byte) :
  v mod 2 ^ (Z.of_nat w * 8) = v ->
  0 <= n -> n * n < 2 ^ 64 ->
  n * n * Z.of_nat w <= Z.of_nat (length buf) ->
  (forall p, 0 <= p < n * n -> load w buf p = Ret 0) ->
  exists buf',
    fill_diag w n v buf = Ret buf'
    /\ forall i j, 0 <= i < n -> 0 <= j < n ->
         load w buf' (i * n + j) = Ret (if i =? j then v else 0).
Proof.
  intros Hv Hn Hnn Hlen Hzero. unfold fill_diag.
  pose (done := fun (k : Z) (b : list byte) =>
    length b = length buf
    /\ forall i j, 0 <= i < n -> 0 <= j < n ->
         load w b (i * n + j) = Ret (if (i =? j) && (i <? k) then v else 0)).
  destruct (for_loop_total done
              (fun i b => store w b (size_t (i * n + i)) v) (Z.to_nat n) 0 buf)
    as (buf' & Hrun & _ & Hall).
  - split; [reflexivity|]. intros i j Hi Hj.
    replace (i <? 0) with false by (symmetry; apply Z.ltb_ge; lia).
    rewrite andb_false_r. apply Hzero. nia.
  - intros k b Hk (Hl & Hb).
    assert (0 <= k * n + k < n * n) by nia.
    rewrite size_t_small by lia.
    assert (Hin : (k * n + k) * Z.of_nat w + Z.of_nat w <= Z.of_nat (length b)).
    { rewrite Hl. nia. }
    rewrite store_ok by lia.
    eexists. split; [reflexivity|].
    pose proof (store_ok w b (k * n + k) v ltac:(lia) Hin) as Hst.
    split.
    + apply length_store in Hst. congruence.
    + intros i j Hi Hj.
      destruct (Z.eq_dec (i * n + j) (k * n + k)) as [E|E].
      * destruct (diag_cell n i j k Hi Hj ltac:(lia) E) as [-> ->].
        rewrite (load_store_same _ _ _ _ _ Hst), Hv.
        rewrite Z.eqb_refl. cbn [andb].
        now replace (k <? k + 1) with true by (symmetry; apply Z.ltb_lt; lia).
      * rewrite (load_store_other _ _ _ _ _ _ Hst) by nia.
        rewrite Hb by assumption.
        destruct (Z.eqb_spec i j) as [->|]; [|reflexivity]. cbn [andb].
        assert (j <> k) by (intros ->; apply E; reflexivity).
        destruct (Z.ltb_spec j k), (Z.ltb_spec j (k + 1)); try reflexivity; lia.
  - exists buf'. split; [exact Hrun|].
    intros i j Hi Hj. rewrite Hall by assumption.
    replace (i <? 0 + Z.of_nat (Z.to_nat n)) with true
      by (symmetry; apply Z.ltb_lt; lia).
    now rewrite andb_true_r.
Qed.

Lemma elem_one_wrapped (dt : TensrDType) :
  arith_dtype dt -> elem_one dt mod 2 ^ (Z.of_nat (elem_width dt) * 8) = elem_one dt.
Proof. intros [->|[->|[->| ->]]]; reflexivity. Qed.

(** X5.  [eye(n)] is the n x n matrix with 1 on the diagonal and 0
    elsewhere, for the four computing dtypes. *)
Theorem tensr_eye_elements (n : Z) (dt : TensrDType) (dev : TensrDevice)
  (j0 j1 j2 j3 : nat -> byte) (h : Heap) :
  0 <= n -> n * n * tensr_dtype_size dt < 2 ^ 64 ->
  arith_dtype dt ->
  exists t,
    tensr_eye n dt dev (Some j0 :: Some j1 :: Some j2 :: Some j3 :: h) = Ret (Some t, h)
    /\ ndim t = 2 /\ shape t = [n; n] /\ size t = n * n /\ dtype t = dt
    /\ device t = dev
    /\ forall i j, 0 <= i < n -> 0 <= j < n ->
         elem t (i * n + j) = Ret (if i =? j then elem_one dt else 0).
Proof.
  intros Hn Hfit Har.
  destruct (elem_width_spec dt) as [Hw0 Hw].
  assert (Hw1 : 1 <= tensr_dtype_size dt).
  { destruct Har as [->|[->|[->| ->]]]; vm_compute; discriminate. }
  assert (Hnn : 0 <= n * n < 2 ^ 64) by nia.
  assert (Hp : product [n; n] = n * n) by (unfold product; cbn [fold_right]; lia).
  destruct (zeros_buffer [n; n] 2 dt dev j0 j1 j2 j3 h)
    as (t & Hz & Hnd & Hs & Hsz & Hd & Hdev & Hbuf);
    [lia | reflexivity | rewrite Hp, size_t_small by lia; lia |].
  rewrite Hp, size_t_small in Hsz by lia.
  destruct (fill_diag_ok (elem_width dt) n (elem_one dt) (data t))
    as (buf & Hrun & Hall).
  - now apply elem_one_wrapped.
  - exact Hn.
  - lia.
  - rewrite Hbuf, repeat_length, Hsz, Hw. lia.
  - intros p Hp'. rewrite Hbuf. apply load_zeros; [lia|].
    rewrite Hsz, Hw. nia.
  - exists (set_data t buf). split.
    + unfold tensr_eye, bind. rewrite Hz.
      destruct Har as [E|[E|[E|E]]]; rewrite E in *;
        cbn [Z.eqb TENSR_FLOAT32 TENSR_FLOAT64 TENSR_INT32 TENSR_INT64 Pos.eqb];
        apply with_data_ok; exact Hrun.
    + cbn [set_data ndim shape size dtype device]. repeat split; try assumption.
      intros i j Hi Hj. unfold elem. cbn [set_data dtype data]. rewrite Hd.
      now apply Hall.
Qed.

Lemma tensr_eye_elements_witness :
  exists t,
    tensr_eye 3 TENSR_FLOAT32 TENSR_CPU (zero_heap 4) = Ret (Some t, [])
    /\ shape t = [3; 3]
    /\ forall i j, 0 <= i < 3 -> 0 <= j < 3 ->
         elem t (i * 3 + j) = Ret (if i =? j then elem_one TENSR_FLOAT32 else 0).
Proof.
  destruct (tensr_eye_elements 3 TENSR_FLOAT32 TENSR_CPU
              zero_junk zero_junk zero_junk zero_junk [])
    as (t & Hrun & _ & Hs & _ & _ & _ & Hall).
  - lia.
  - vm_compute. reflexivity.
  - left. reflexivity.
  - exists t. auto.
Defined.

(** ** Ranges *)

Lemma for_loop_ext {St : Type} (body body' : Z -> St -> result St) :
  forall (n : nat) (i : Z) (s : St),
    (forall j x, i <= j < i + Z.of_nat n -> body j x = body' j x) ->
    for_loop n i body s = for_loop n i body' s.
Proof.
  induction n as [|n IH]; intros i s H; [reflexivity|].
  cbn [for_loop]. rewrite H by lia.
  destruct (body' i s) as [s'|]; [|reflexivity]. cbn [bindR].
  apply IH. intros j x Hj. apply H. lia.
Qed.

Lemma fill_ext (w : nat) (n : Z) (v v' : Z -> result Z) (buf : list byte) :
  (forall i, 0 <= i < n -> v i = v' i) ->
  fill w n v buf = fill w n v' buf.
Proof.
  intros H. unfold fill. apply for_loop_ext.
  intros j x Hj. rewrite H by lia. reflexivity.
Qed.

(** the loops that store [(T)val(i)] for the dtype [T] *)
Lemma cast_fill (t : Tensor) (dt : TensrDType) (val : Z -> Z) (n : Z) (h : Heap) :
  arith_dtype dt ->
  (forall i, 0 <= val i < 2 ^ 64) ->
  n * tensr_dtype_size dt <= Z.of_nat (length (data t)) ->
  (forall i, 0 <= i < n -> cast_value dt (val i) <> Undef) ->
  exists buf,
    (if dt =? TENSR_FLOAT32 then
       with_data t (fill 4 n (fun i => Ret (f64_to_f32 (val i))) (data t))
     else if dt =? TENSR_FLOAT64 then
       with_data t (fill 8 n (fun i => Ret (val i)) (data t))
     else if dt =? TENSR_INT32 then
       with_data t (fill 4 n (fun i => f64_to_sint 32 (val i)) (data t))
     else if dt =? TENSR_INT64 then
       with_data t (fill 8 n (fun i => f64_to_sint 64 (val i)) (data t))
     else ret (Some t)) h
    = Ret (Some (set_data t buf), h)
    /\ forall i, 0 <= i < n -> load (elem_width dt) buf i = cast_value dt (val i).
Proof.
  intros Har Hval Hlen Hdef.
  pose (g := fun i => match cast_value dt (val i) with Ret x => x | Undef => 0 end).
  assert (Hg : forall i, 0 <= i < n -> cast_value dt (val i) = Ret (g i)).
  { intros i Hi. unfold g. specialize (Hdef i Hi).
    destruct (cast_value dt (val i)); congruence. }
  destruct (elem_width_spec dt) as [_ Hw].
  destruct (fill_ok (elem_width dt) g n (data t)) as (buf & Hrun & _ & Hall).
  - intros i. unfold g.
    destruct (cast_value dt (val i)) as [x|] eqn:E; [|reflexivity].
    exact (cast_value_wrapped dt (val i) x Har (Hval i) E).
  - rewrite Hw. exact Hlen.
  - exists buf. split.
    + unfold cast_value, elem_width in *.
      destruct Har as [E|[E|[E|E]]]; rewrite E in *;
        cbn [Z.eqb TENSR_FLOAT32 TENSR_FLOAT64 TENSR_INT32 TENSR_INT64 Pos.eqb] in *;
        apply with_data_ok; rewrite <- Hrun; apply fill_ext;
        intros i Hi; now rewrite <- Hg.
    + intros i Hi. rewrite Hg by exact Hi. now apply Hall.
Qed.


Lemma affine_range (start step i : Z) : 0 <= affine start step i < 2 ^ 64.
Proof.
  unfold affine, f64_add, IEEE.add, IEEE.lift2, IEEE.to_bits.
  apply Z.mod_pos_bound. reflexivity.
Qed.

Lemma product_one (n : Z) : product [n] = n.
Proof. unfold product. cbn [fold_right]. lia. Qed.



Lemma div_by_zero_not_finite (x step : Z) (s : bool) :
  f64_of_bits step = S754_zero s ->
  IEEE.ceil (f64_of_bits (f64_div x step)) = None
  /\ f64_of_bits (f64_mul (f64_of_Z 0) (f64_div x step)) = S754_nan.
Proof.
  intros H.
  unfold f64_div, f64_mul, IEEE.div, IEEE.mul, IEEE.lift2.
  change (IEEE.of_bits 11 52 step) with (f64_of_bits step). rewrite H.
  destruct (IEEE.of_bits 11 52 x) as [sx|sx| |sx m e];
    try destruct sx; destruct s; split; vm_compute; reflexivity.
Qed.

(** X7.  [arange] with a step of zero (of either sign) is undefined for
    every start, stop and dtype: the quotient is an infinity or a NaN, which
    [(size_t)] cannot convert. *)
Theorem tensr_arange_zero_step (start stop step : Z) (s : bool) (dt : TensrDType)
  (dev : TensrDevice) (h : Heap) :
  f64_of_bits step = S754_zero s ->
  tensr_arange start stop step dt dev h = Undef.
Proof.
  intros H. unfold tensr_arange, bind, lift, f64_ceil_size_t.
  now rewrite (proj1 (div_by_zero_not_finite (f64_sub stop start) step s H)).
Qed.

Lemma tensr_arange_zero_step_witness :
  tensr_arange f64_0 f64_3 f64_0 TENSR_FLOAT32 TENSR_CPU (zero_heap 4) = Undef.
Proof.
  apply (tensr_arange_zero_step f64_0 f64_3 f64_0 false). reflexivity.
Defined.

Lemma linspace_ok (start stop num : Z) (dt : TensrDType)
  (dev : TensrDevice) (j0 j1 j2 j3 : nat -> byte) (h : Heap) :
  0 <= num -> num * tensr_dtype_size dt < 2 ^ 64 ->
  float_dtype dt ->
  let step := f64_div (f64_sub stop start) (f64_of_Z (size_t (num - 1))) in
  exists t,
    tensr_linspace start stop num dt dev (Some j0 :: Some j1 :: Some j2 :: Some j3 :: h)
    = Ret (Some t, h)
    /\ ndim t = 1 /\ shape t = [num] /\ size t = num /\ dtype t = dt
    /\ device t = dev
    /\ forall i, 0 <= i < num -> elem t i = cast_value dt (affine start step i).
Proof.
  intros Hn Hfit Hfl step.
  destruct (elem_width_spec dt) as [Hw0 Hw].
  assert (Hw1 : 1 <= tensr_dtype_size dt).
  { destruct Hfl as [->| ->]; vm_compute; discriminate. }
  assert (Hn' : 0 <= num < 2 ^ 64) by nia.
  destruct (created_buffer [num] 1 dt dev j0 j1 j2 j3 h)
    as (t & Hc & Hnd & Hs & Hsz & Hd & Hdev & _ & _ & Hbuf);
    [lia | reflexivity | rewrite product_one, size_t_small by lia; lia | lia |].
  rewrite product_one, size_t_small in Hsz by lia.
  destruct (cast_fill t dt (affine start step) num h) as (buf & Hrun & Hall).
  - destruct Hfl as [->| ->]; [left | right; left]; reflexivity.
  - apply affine_range.
  - lia.
  - intros i _. unfold cast_value.
    destruct Hfl as [->| ->]; cbn [Z.eqb TENSR_FLOAT32 TENSR_FLOAT64 Pos.eqb];
      discriminate.
  - exists (set_data t buf). split.
    + unfold tensr_linspace, bind. rewrite Hc. fold step.
      destruct Hfl as [E|E]; rewrite E in *;
        cbn [Z.eqb TENSR_FLOAT32 TENSR_FLOAT64 Pos.eqb] in *; exact Hrun.
    + cbn [set_data ndim shape size dtype device]. repeat split; try assumption.
      intros i Hi. unfold elem. cbn [set_data dtype data]. rewrite Hd.
      now apply Hall.
Qed.

(** X8.  [linspace(start, stop, num)] has num elements, element i being
    [start + i * step] with [step = (stop - start) / (double)(num - 1)],
    computed in double and converted to the floating dtype. *)
Theorem tensr_linspace_elements (start stop num : Z) (dt : TensrDType)
  (dev : TensrDevice) (j0 j1 j2 j3 : nat -> byte) (h : Heap) :
  0 <= num -> num * tensr_dtype_size dt < 2 ^ 64 ->
  float_dtype dt ->
  let step := f64_div (f64_sub stop start) (f64_of_Z (size_t (num - 1))) in
  exists t,
    tensr_linspace start stop num dt dev (Some j0 :: Some j1 :: Some j2 :: Some j3 :: h)
    = Ret (Some t, h)
    /\ ndim t = 1 /\ shape t = [num] /\ size t = num /\ dtype t = dt
    /\ device t = dev
    /\ forall i, 0 <= i < num -> elem t i = cast_value dt (affine start step i).
Proof. apply linspace_ok. Qed.

Lemma tensr_linspace_elements_witness :
  exists t,
    tensr_linspace f64_0 f64_2 3 TENSR_FLOAT64 TENSR_CPU (zero_heap 4)
    = Ret (Some t, [])
    /\ shape t = [3]
    /\ forall i, 0 <= i < 3 ->
         elem t i
         = cast_value TENSR_FLOAT64
             (affine f64_0 (f64_div (f64_sub f64_2 f64_0) (f64_of_Z (size_t (3 - 1)))) i).
Proof.
  destruct (tensr_linspace_elements f64_0 f64_2 3 TENSR_FLOAT64 TENSR_CPU
              zero_junk zero_junk zero_junk zero_junk [])
    as (t & Hrun & _ & Hs & _ & _ & _ & Hall).
  - lia.
  - vm_compute. reflexivity.
  - right. reflexivity.
  - exists t. auto.
Defined.

Lemma affine_zero_divisor (start x : Z) :
  f64_of_bits (affine start (f64_div x (f64_of_Z 0)) 0) = S754_nan.
Proof.
  assert (Hz : f64_of_bits (f64_of_Z 0) = S754_zero false)
    by (vm_compute; reflexivity).
  pose proof (proj2 (div_by_zero_not_finite x (f64_of_Z 0) false Hz)) as Hmul.
  unfold f64_of_bits in Hmul.
  unfold affine, f64_add, IEEE.add, IEEE.lift2. rewrite Hmul.
  destruct (IEEE.of_bits 11 52 start) as [sx|sx| |sx m e];
    try destruct sx; vm_compute; reflexivity.
Qed.

Lemma f64_to_f32_nan (d : Z) :
  f64_of_bits d = S754_nan -> f32_of_bits (f64_to_f32 d) = S754_nan.
Proof. intros H. unfold f64_to_f32. rewrite H. vm_compute. reflexivity. Qed.

(** X9.  [linspace(start, stop, 1)] does not return [start]: the step is
    [(stop - start) / 0.0], and the only element, [start + 0 * step], is a
    NaN for every start and stop. *)
Theorem tensr_linspace_single_is_nan (start stop : Z) (dt : TensrDType)
  (dev : TensrDevice) (j0 j1 j2 j3 : nat -> byte) (h : Heap) :
  float_dtype dt ->
  exists t x,
    tensr_linspace start stop 1 dt dev (Some j0 :: Some j1 :: Some j2 :: Some j3 :: h)
    = Ret (Some t, h)
    /\ size t = 1 /\ elem t 0 = Ret x /\ is_nan dt x.
Proof.
  intros Hfl.
  assert (Hfit : 1 * tensr_dtype_size dt < 2 ^ 64).
  { destruct Hfl as [->| ->]; vm_compute; reflexivity. }
  destruct (linspace_ok start stop 1 dt dev j0 j1 j2 j3 h
              ltac:(lia) Hfit Hfl)
    as (t & Hrun & _ & _ & Hsz & _ & _ & Hall).
  specialize (Hall 0 ltac:(lia)).
  replace (size_t (1 - 1)) with 0 in Hall by reflexivity.
  pose proof (affine_zero_divisor start (f64_sub stop start)) as Hnan.
  exists t.
  destruct Hfl as [E|E].
  - exists (f64_to_f32 (affine start (f64_div (f64_sub stop start) (f64_of_Z 0)) 0)).
    subst dt.
    repeat split; [exact Hrun | exact Hsz | exact Hall |].
    apply f64_to_f32_nan, Hnan.
  - exists (affine start (f64_div (f64_sub stop start) (f64_of_Z 0)) 0).
    subst dt.
    repeat split; [exact Hrun | exact Hsz | exact Hall | exact Hnan].
Qed.

Lemma tensr_linspace_single_is_nan_witness :
  exists t x,
    tensr_linspace f64_2 f64_3 1 TENSR_FLOAT64 TENSR_CPU (zero_heap 4)
    = Ret (Some t, [])
    /\ size t = 1 /\ elem t 0 = Ret x /\ is_nan TENSR_FLOAT64 x.
Proof.
  apply (tensr_linspace_single_is_nan f64_2 f64_3 TENSR_FLOAT64 TENSR_CPU
           zero_junk zero_junk zero_junk zero_junk []).
  right. reflexivity.
Defined.

(** ** Views and copies *)

(** X10.  [reshape] to a shape of the same number of elements returns a
    view: the bytes of the source, not owned, under the new shape with its
    row-major strides; to a shape of another number of elements it returns
    NULL and allocates nothing. *)
Theorem tensr_reshape_view (t : Tensor) (new_shape : list Z) (new_ndim : Z)
  (j0 j1 j2 : nat -> byte) (h : Heap) :
  1 <= new_ndim < 2 ^ 31 ->
  Z.of_nat (length new_shape) = new_ndim ->
  (size_t (product new_shape) = size t ->
   exists r,
     tensr_reshape t new_shape new_ndim (Some j0 :: Some j1 :: Some j2 :: h)
     = Ret (Some r, h)
     /\ data r = data t /\ owns_data r = false
     /\ ndim r = new_ndim /\ shape r = new_shape
     /\ row_major (strides r) new_shape
     /\ size r = size t /\ dtype r = dtype t
     /\ device r = device t /\ device_id r = device_id t)
  /\ (size_t (product new_shape) <> size t ->
      tensr_reshape t new_shape new_ndim h = Ret (None, h)).
Proof.
  intros Hnd Hlen.
  assert (Hsz : compute_size new_shape new_ndim = Ret (size_t (product new_shape))).
  { rewrite compute_size_ok by lia. now rewrite firstn_all2 by lia. }
  split; intros Hs.
  - destruct (compute_strides_ok
                (le_words (Z.to_nat new_ndim)
                   (map j2 (seq 0 (Z.to_nat (size_t (new_ndim * sizeof_size_t))))))
                new_shape new_ndim) as (str & Hstr & Hrm);
      [lia | rewrite length_le_words; lia | exact Hlen |].
    eexists. split.
    + unfold tensr_reshape, bind. rewrite Hsz. cbn [lift].
      rewrite (proj2 (Z.eqb_eq _ _) Hs). cbn [negb malloc].
      rewrite !block_words by lia.
      rewrite memcpy_words_all by (rewrite ?length_le_words; lia).
      rewrite firstn_all2 by lia.
      cbn [lift]. rewrite Hstr. cbn [ret]. reflexivity.
    + cbn [ndim shape strides size dtype device device_id owns_data data].
      repeat split; try reflexivity; apply Hrm.
  - unfold tensr_reshape, bind. rewrite Hsz. cbn [lift].
    now rewrite (proj2 (Z.eqb_neq _ _) Hs).
Qed.

Lemma tensr_reshape_view_witness :
  (exists r,
     tensr_reshape mat23 [3; 2] 2 (zero_heap 3) = Ret (Some r, [])
     /\ data r = data mat23 /\ owns_data r = false /\ shape r = [3; 2])
  /\ tensr_reshape mat23 [2; 2] 2 (zero_heap 3) = Ret (None, zero_heap 3).
Proof.
  split.
  - destruct (proj1 (tensr_reshape_view mat23 [3; 2] 2 zero_junk zero_junk zero_junk []
                       ltac:(lia) eq_refl) eq_refl)
      as (r & Hrun & Hd & Ho & _ & Hs & _).
    exists r. auto.
  - apply (proj2 (tensr_reshape_view mat23 [2; 2] 2 zero_junk zero_junk zero_junk
                    (zero_heap 3) ltac:(lia) eq_refl)).
    vm_compute. discriminate.
Defined.

Lemma memcpy_whole (dst src : list byte) (n : Z) :
  Z.of_nat (length src) = n -> Z.of_nat (length dst) = n ->
  memcpy dst src n = Ret src.
Proof.
  intros Hs Hd. unfold memcpy.
  rewrite !(proj2 (Z.leb_le _ _)) by lia. cbn [andb].
  rewrite firstn_all2, skipn_all2 by lia. now rewrite app_nil_r.
Qed.

Lemma copy_ok (src : Tensor) (j0 j1 j2 j3 : nat -> byte) (h : Heap) :
  well_formed src ->
  exists t,
    tensr_copy src (Some j0 :: Some j1 :: Some j2 :: Some j3 :: h) = Ret (Some t, h)
    /\ ndim t = ndim src /\ shape t = shape src /\ size t = size src
    /\ dtype t = dtype src /\ device t = device src
    /\ data t = data src
    /\ row_major (strides t) (shape src)
    /\ owns_data t = true /\ device_id t = 0.
Proof.
  intros (Hnd & Hlen & _ & Hsz & Hr & Hdata & Hfit).
  destruct (elem_width_spec (dtype src)) as [Hw0 _].
  destruct (tensr_create_ok (shape src) (ndim src) (dtype src) (device src)
              j0 j1 j2 j3 h)
    as (t & Hc & Hn & Hs & Hrm & Hsize & Hd & Hdev & Hid & Ho & Hbuf); try lia.
  rewrite firstn_all2 in Hs by lia. rewrite Hs in Hsize, Hrm.
  rewrite <- Hsz, size_t_small in Hsize by lia.
  exists (set_data t (data src)). split.
  - unfold tensr_copy, bind. rewrite Hc. apply with_data_ok.
    rewrite size_t_small by nia.
    apply memcpy_whole; [exact Hdata|].
    rewrite Hbuf, length_block, Hsize, size_t_small by nia.
    rewrite Z2Nat.id by nia. reflexivity.
  - cbn [set_data ndim shape strides size dtype device device_id owns_data data].
    repeat split; try assumption; apply Hrm.
Qed.

(** X11.  The copy of a well-formed tensor has its ndim, shape, size,
    dtype, device and bytes, with row-major strides; it owns its buffer, and
    its device id is 0 whatever the source's is. *)
Theorem tensr_copy_faithful (src : Tensor) (j0 j1 j2 j3 : nat -> byte) (h : Heap) :
  well_formed src ->
  exists t,
    tensr_copy src (Some j0 :: Some j1 :: Some j2 :: Some j3 :: h) = Ret (Some t, h)
    /\ ndim t = ndim src /\ shape t = shape src /\ size t = size src
    /\ dtype t = dtype src /\ device t = device src
    /\ data t = data src
    /\ row_major (strides t) (shape src)
    /\ owns_data t = true /\ device_id t = 0.
Proof. apply copy_ok. Qed.

Lemma tensr_copy_faithful_witness :
  exists t,
    tensr_copy mat23 (zero_heap 4) = Ret (Some t, [])
    /\ shape t = shape mat23 /\ data t = data mat23 /\ owns_data t = true.
Proof.
  destruct (tensr_copy_faithful mat23 zero_junk zero_junk zero_junk zero_junk []
              well_formed_mat23)
    as (t & Hrun & _ & Hs & _ & _ & _ & Hd & _ & Ho & _).
  exists t. auto.
Defined.

(** ** Transposition *)

Lemma reversed_axes_ok (nd : Z) (blk : list Z) :
  0 <= nd < 2 ^ 64 ->
  Z.of_nat (length blk) = nd ->
  reversed_axes nd blk = Ret (map Z.of_nat (rev (seq 0 (Z.to_nat nd)))).
Proof.
  intros Hnd Hlen.
  destruct (for_loop_total (fun (_ : Z) (a : list Z) => length a = length blk)
              (fun i a => arr_set a i (size_t (nd - 1 - i))) (Z.to_nat nd) 0 blk)
    as (a & Hrun & _).
  - reflexivity.
  - intros j x Hj Hx. rewrite arr_set_ok by lia.
    eexists. split; [reflexivity|]. now rewrite length_upd.
  - fold (reversed_axes nd blk) in Hrun. rewrite Hrun. f_equal.
    now apply (reversed_axes_Ret nd blk).
Qed.

Lemma reversed_gather (src : list Z) :
  map (fun ax => nth (Z.to_nat ax) src 0) (map Z.of_nat (rev (seq 0 (length src))))
  = rev src.
Proof.
  rewrite map_map, map_rev. f_equal.
  rewrite (map_ext _ (fun j => nth j src 0)) by (intros j; now rewrite Nat2Z.id).
  rewrite map_nth_seq by lia. apply firstn_all.
Qed.

Lemma permute_shape_reversed (src dst : list Z) (nd : Z) :
  Z.of_nat (length src) = nd ->
  Z.of_nat (length dst) = nd ->
  permute_shape src (map Z.of_nat (rev (seq 0 (Z.to_nat nd)))) dst nd
  = Ret (rev src).
Proof.
  intros Hs Hd.
  set (axes := map Z.of_nat (rev (seq 0 (Z.to_nat nd)))).
  assert (Hla : length axes = Z.to_nat nd).
  { unfold axes. now rewrite length_map, length_rev, length_seq. }
  assert (Hin : forall i, 0 <= i < nd ->
                  0 <= nth (Z.to_nat i) axes 0 < nd).
  { intros i Hi. unfold axes.
    rewrite (nth_map_Z _ _ _ O) by (rewrite length_rev, length_seq; lia).
    rewrite rev_nth by (rewrite length_seq; lia).
    rewrite length_seq, seq_nth by lia. lia. }
  destruct (for_loop_total (fun (_ : Z) (s : list Z) => length s = length dst)
              (fun i s => ax <~ arr_get axes i ;; d <~ arr_get src ax ;; arr_set s i d)
              (Z.to_nat nd) 0 dst) as (s & Hrun & _).
  - reflexivity.
  - intros j x Hj Hx.
    rewrite arr_get_ok by lia. cbn [bindR].
    rewrite arr_get_ok by (specialize (Hin j); lia). cbn [bindR].
    rewrite arr_set_ok by lia.
    eexists. split; [reflexivity|]. now rewrite length_upd.
  - fold (permute_shape src axes dst nd) in Hrun. rewrite Hrun. f_equal.
    apply permute_shape_Ret in Hrun; [| lia | exact Hd | lia].
    rewrite Hrun. unfold axes.
    replace (Z.to_nat nd) with (length src) by lia.
    apply reversed_gather.
Qed.

Lemma transpose_default (t : Tensor) (axes : list Z) (j0 j1 j2 j3 j4 : nat -> byte)
  (h : Heap) :
  1 <= ndim t < 2 ^ 31 ->
  Z.of_nat (length (shape t)) = ndim t ->
  exists r,
    tensr_transpose t axes 0
      (Some j0 :: Some j1 :: Some j2 :: Some j3 :: Some j4 :: h) = Ret (Some r, h)
    /\ ndim r = ndim t /\ shape r = rev (shape t)
    /\ row_major (strides r) (rev (shape t))
    /\ size r = size_t (product (shape t))
    /\ dtype r = dtype t /\ device r = device t.
Proof.
  intros Hnd Hlen.
  destruct (tensr_create_ok (shape t) (ndim t) (dtype t) (device t) j1 j2 j3 j4 h)
    as (res & Hc & Hn & Hs & Hrm & Hsize & Hd & Hdev & _); try lia.
  rewrite firstn_all2 in Hs by lia. rewrite Hs in Hsize, Hrm.
  destruct Hrm as (Hls & _).
  destruct (compute_strides_ok (strides res) (rev (shape t)) (ndim res))
    as (str & Hstr & Hrm1); [lia | lia | rewrite length_rev; lia |].
  eexists. split.
  - unfold tensr_transpose. cbn [Z.eqb]. unfold bind at 1 2. cbn [malloc].
    rewrite block_words by lia.
    rewrite reversed_axes_ok by (rewrite ?length_le_words; lia).
    cbn [lift]. unfold bind. rewrite Hc.
    rewrite permute_shape_reversed by (rewrite ?Hs; lia).
    cbn [lift]. rewrite Hstr. cbn [ret]. reflexivity.
  - cbn [ndim shape strides size dtype device].
    repeat split; try assumption; apply Hrm1.
Qed.

(** X12.  [transpose(t, NULL, 0)] returns a tensor of the reversed shape
    with its row-major strides and the size of [t]; applied to its own
    result it returns the shape of [t] again. *)
Theorem tensr_transpose_reverses_shape (t : Tensor) (axes axes' : list Z)
  (j0 j1 j2 j3 j4 k0 k1 k2 k3 k4 : nat -> byte) (h : Heap) :
  1 <= ndim t < 2 ^ 31 ->
  Z.of_nat (length (shape t)) = ndim t ->
  exists r r',
    tensr_transpose t axes 0
      (Some j0 :: Some j1 :: Some j2 :: Some j3 :: Some j4
         :: Some k0 :: Some k1 :: Some k2 :: Some k3 :: Some k4 :: h)
    = Ret (Some r, Some k0 :: Some k1 :: Some k2 :: Some k3 :: Some k4 :: h)
    /\ tensr_transpose r axes' 0 (Some k0 :: Some k1 :: Some k2 :: Some k3 :: Some k4 :: h)
       = Ret (Some r', h)
    /\ ndim r = ndim t /\ shape r = rev (shape t)
    /\ row_major (strides r) (rev (shape t))
    /\ size r = size_t (product (shape t))
    /\ dtype r = dtype t /\ device r = device t
    /\ ndim r' = ndim t /\ shape r' = shape t
    /\ row_major (strides r') (shape t)
    /\ size r' = size r.
Proof.
  intros Hnd Hlen.
  destruct (transpose_default t axes j0 j1 j2 j3 j4
              (Some k0 :: Some k1 :: Some k2 :: Some k3 :: Some k4 :: h) Hnd Hlen)
    as (r & Hrun & Hn & Hs & Hrm & Hsz & Hd & Hdev).
  destruct (transpose_default r axes' k0 k1 k2 k3 k4 h)
    as (r' & Hrun' & Hn' & Hs' & Hrm' & Hsz' & _);
    [lia | rewrite Hs, length_rev; lia |].
  rewrite Hs, rev_involutive in Hs', Hrm'.
  exists r, r'. repeat split; try assumption; try apply Hrm; try apply Hrm'; try lia.
  rewrite Hsz', Hsz, Hs.
  f_equal. apply product_Permutation, Permutation_sym, Permutation_rev.
Qed.

Lemma tensr_transpose_reverses_shape_witness :
  exists r r',
    tensr_transpose mat23 [] 0 (zero_heap 10) = Ret (Some r, zero_heap 5)
    /\ tensr_transpose r [] 0 (zero_heap 5) = Ret (Some r', [])
    /\ shape r = [3; 2] /\ shape r' = [2; 3].
Proof.
  destruct (tensr_transpose_reverses_shape mat23 [] []
              zero_junk zero_junk zero_junk zero_junk zero_junk
              zero_junk zero_junk zero_junk zero_junk zero_junk [])
    as (r & r' & H1 & H2 & _ & Hs & _ & _ & _ & _ & _ & Hs' & _).
  - cbn. lia.
  - reflexivity.
  - exists r, r'. auto.
Defined.

(** ** Allocations that are not checked *)

(** X13.  Unlike [tensr_create], which answers every refused allocation
    with NULL, [reshape] checks only its first allocation and [transpose]
    does not check the block of the default axes: when one of these is
    refused the call is undefined (the NULL block is written). *)
Theorem unchecked_allocations_are_undefined (t : Tensor) (new_shape axes : list Z)
  (new_ndim : Z) (j0 j1 : nat -> byte) (h : Heap) :
  1 <= new_ndim < 2 ^ 31 ->
  Z.of_nat (length new_shape) = new_ndim ->
  size_t (product new_shape) = size t ->
  1 <= ndim t < 2 ^ 64 ->
  tensr_reshape t new_shape new_ndim (None :: h) = Ret (None, h)
  /\ tensr_reshape t new_shape new_ndim (Some j0 :: None :: h) = Undef
  /\ tensr_reshape t new_shape new_ndim (Some j0 :: Some j1 :: None :: h) = Undef
  /\ tensr_transpose t axes 0 (None :: h) = Undef.
Proof.
  intros Hnd Hlen Hs Ht.
  assert (Hsz : compute_size new_shape new_ndim = Ret (size_t (product new_shape))).
  { rewrite compute_size_ok by lia. now rewrite firstn_all2 by lia. }
  repeat split.
  - unfold tensr_reshape, bind. rewrite Hsz. cbn [lift].
    now rewrite (proj2 (Z.eqb_eq _ _) Hs).
  - unfold tensr_reshape, bind. rewrite Hsz. cbn [lift].
    rewrite (proj2 (Z.eqb_eq _ _) Hs). cbn [negb malloc].
    destruct h as [|[j|] h']; reflexivity.
  - unfold tensr_reshape, bind. rewrite Hsz. cbn [lift].
    now rewrite (proj2 (Z.eqb_eq _ _) Hs).
  - unfold tensr_transpose. cbn [Z.eqb]. unfold bind at 1 2. cbn [malloc].
    unfold reversed_axes.
    destruct (Z.to_nat (ndim t)) as [|n] eqn:E; [lia|]. reflexivity.
Qed.

Lemma unchecked_allocations_are_undefined_witness :
  tensr_reshape mat23 [3; 2] 2 [None] = Ret (None, [])
  /\ tensr_reshape mat23 [3; 2] 2 [Some zero_junk; None] = Undef
  /\ tensr_reshape mat23 [3; 2] 2 [Some zero_junk; Some zero_junk; None] = Undef
  /\ tensr_transpose mat23 [] 0 [None] = Undef.
Proof.
  apply (unchecked_allocations_are_undefined mat23 [3; 2] [] 2 zero_junk zero_junk []).
  - lia.
  - reflexivity.
  - reflexivity.
  - cbn. lia.
Defined.

(** ** Element access *)

Lemma flat_index_Ret (indices strd : list Z) (n idx : Z) :
  flat_index indices strd n = Ret idx -> 0 <= idx < 2 ^ 64.
Proof.
  intros H. unfold flat_index in H.
  apply (for_loop_inv (fun (_ : Z) (x : Z) => 0 <= x < 2 ^ 64) _ _ _ _ _ H).
  - lia.
  - intros j x y _ _ Hb.
    apply bindR_Ret in Hb as (k & _ & Hb).
    apply bindR_Ret in Hb as (s & _ & Hb).
    injection Hb as <-. apply size_t_range.
Qed.



(** X15.  Neither [get] nor [set] compares an index with the shape.  With
    a number of indices other than ndim, [set] changes nothing and [get]
    returns 0.0; with ndim indices whose flat offset lies behind the buffer
    both are undefined, for the four computing dtypes. *)
Theorem tensr_get_set_unchecked (t : Tensor) (indices : list Z) (nindices value idx : Z) :
  (nindices <> ndim t ->
   tensr_set t indices nindices value = Ret t
   /\ tensr_get t indices nindices = Ret f64_0)
  /\ (arith_dtype (dtype t) ->
      flat_index indices (strides t) (ndim t) = Ret idx ->
      Z.of_nat (length (data t)) < (idx + 1) * tensr_dtype_size (dtype t) ->
      (forall x, cast_value (dtype t) value = Ret x ->
                 tensr_set t indices (ndim t) value = Undef)
      /\ tensr_get t indices (ndim t) = Undef).
Proof.
  split.
  - intros H. unfold tensr_set, tensr_get.
    rewrite (proj2 (Z.eqb_neq _ _) H). split; reflexivity.
  - intros Har Hidx Hout.
    pose proof (flat_index_Ret _ _ _ _ Hidx) as Hr.
    destruct (elem_width_spec (dtype t)) as [Hw0 Hw].
    assert (Hb : in_bounds (elem_width (dtype t)) (data t) idx = false).
    { destruct (in_bounds _ _ _) eqn:E; [|reflexivity].
      apply in_bounds_iff in E. rewrite Hw in E. lia. }
    unfold tensr_set, tensr_get. rewrite Z.eqb_refl. cbn [negb].
    rewrite Hidx. cbn [bindR].
    unfold cast_value, elem_width, load, store in *.
    destruct Har as [E|[E|[E|E]]]; rewrite E in *;
      cbn [Z.eqb TENSR_FLOAT32 TENSR_FLOAT64 TENSR_INT32 TENSR_INT64 Pos.eqb
             tensr_dtype_size] in *;
      change (Z.to_nat 4) with 4%nat in Hb;
      change (Z.to_nat 8) with 8%nat in Hb;
      rewrite Hb; (split; [|reflexivity]); intros x Hx; rewrite ?Hx; reflexivity.
Qed.

Lemma tensr_get_set_unchecked_witness :
  (tensr_set mat23 [1] 1 f64_2 = Ret mat23 /\ tensr_get mat23 [1] 1 = Ret f64_0)
  /\ tensr_set mat23 [2; 0] 2 f64_2 = Undef
  /\ tensr_get mat23 [2; 0] 2 = Undef.
Proof.
  pose proof (tensr_get_set_unchecked mat23 [1] 1 f64_2 0) as [H1 _].
  pose proof (tensr_get_set_unchecked mat23 [2; 0] 2 f64_2 6) as [_ H2].
  split.
  - apply H1. vm_compute. discriminate.
  - destruct H2 as [Hs Hg].
    + left. reflexivity.
    + reflexivity.
    + vm_compute. reflexivity.
    + split; [apply (Hs f32_2); vm_compute; reflexivity | exact Hg].
Defined.

(** ** Saving *)

(** X16.  [save] to a name that cannot be opened returns -1 and leaves
    every file as it was.  For a well-formed tensor and a name that can be
    opened it returns 0; the file then holds 20 header bytes, 8 bytes per
    dimension and the bytes of the buffer, replacing what the file held;
    every other file is as it was. *)
Theorem tensr_save_file (fs : FileSystem) (filename : string) (t : Tensor) :
  (writable fs filename = false -> tensr_save fs filename t = Ret (-1, fs))
  /\ (writable fs filename = true -> well_formed t ->
      exists fs' file,
        tensr_save fs filename t = Ret (0, fs')
        /\ contents fs' filename = Some file
        /\ Z.of_nat (length file)
           = 20 + 8 * ndim t + size t * tensr_dtype_size (dtype t)
        /\ skipn (20 + 8 * length (shape t)) file = data t
        /\ forall other, other <> filename ->
             contents fs' other = contents fs other).
Proof.
  split.
  - intros Hw. unfold tensr_save. now rewrite Hw.
  - intros Hw (Hnd & Hlen & Hfa & Hsz & Hr & Hd & Hb).
    destruct (elem_width_spec (dtype t)) as [Hw0 _].
    set (file := le_split 8 (ndim t) ++ le_split 4 (dtype t) ++ le_split 8 (size t)
                   ++ flat_map (le_split 8) (shape t) ++ data t).
    exists (fs_put fs filename file), file.
    split; [|split; [|split; [|split]]].
    + unfold tensr_save. rewrite Hw. unfold fwrite_words, fwrite_bytes, sizeof_size_t.
      rewrite (size_t_small (8 * ndim t)) by lia.
      replace (Z.to_nat (8 * ndim t / 8)) with (length (shape t))
        by (rewrite Z.mul_comm, Z.div_mul by lia; lia).
      rewrite Nat.leb_refl, firstn_all. cbn [bindR].
      rewrite (size_t_small (tensr_dtype_size (dtype t) * size t)) by nia.
      rewrite (proj2 (Z.leb_le _ _)) by lia. cbn [bindR].
      rewrite firstn_all2 by lia. reflexivity.
    + cbn [fs_put contents]. now rewrite String.eqb_refl.
    + unfold file. rewrite !length_app, !length_le_split, length_flat_words. lia.
    + unfold file. rewrite !app_assoc. apply skipn_exact.
      rewrite !length_app, !length_le_split, length_flat_words. lia.
    + intros other Hne. cbn [fs_put contents].
      now rewrite (proj2 (String.eqb_neq _ _) Hne).
Qed.

Lemma tensr_save_file_witness :
  tensr_save read_only "t.bin" mat23 = Ret (-1, read_only)
  /\ exists fs' file,
       tensr_save no_files "t.bin" mat23 = Ret (0, fs')
       /\ contents fs' "t.bin"%string = Some file
       /\ Z.of_nat (length file) = 20 + 8 * 2 + 6 * 4.
Proof.
  split.
  - apply (proj1 (tensr_save_file read_only "t.bin" mat23)). reflexivity.
  - destruct (proj2 (tensr_save_file no_files "t.bin" mat23) eq_refl well_formed_mat23)
      as (fs' & file & Hs & Hc & Hl & _).
    exists fs', file. auto.
Defined.

(** ** Functions that return a copy *)

(** X17.  The functions of io.c and fft.c that are to change the shape,
    select, join or transform return a plain copy.  [squeeze],
    [expand_dims], [slice], [index], [fft], [ifft], [fft2] and [ifft2]
    return a tensor with the ndim, the shape and the bytes of their
    argument, whatever the axis, the bounds or the indices; [concat],
    [stack], [vstack] and [hstack] return NULL for no tensor and otherwise
    such a copy of the first tensor alone. *)
Theorem stubs_return_copies (t : Tensor) (rest : list Tensor)
  (axis nd nindices ntensors : Z) (start stop step indices : list Z)
  (j0 j1 j2 j3 : nat -> byte) (h : Heap) :
  well_formed t ->
  ntensors <> 0 ->
  let heap := Some j0 :: Some j1 :: Some j2 :: Some j3 :: h in
  tensr_concat (t :: rest) 0 axis heap = Ret (None, heap)
  /\ tensr_stack (t :: rest) 0 axis heap = Ret (None, heap)
  /\ exists r,
       tensr_squeeze t axis heap = Ret (Some r, h)
       /\ tensr_expand_dims t axis heap = Ret (Some r, h)
       /\ tensr_slice t start stop step nd heap = Ret (Some r, h)
       /\ tensr_index t indices nindices heap = Ret (Some r, h)
       /\ tensr_concat (t :: rest) ntensors axis heap = Ret (Some r, h)
       /\ tensr_stack (t :: rest) ntensors axis heap = Ret (Some r, h)
       /\ tensr_vstack (t :: rest) ntensors heap = Ret (Some r, h)
       /\ tensr_hstack (t :: rest) ntensors heap = Ret (Some r, h)
       /\ tensr_fft t axis heap = Ret (Some r, h)
       /\ tensr_ifft t axis heap = Ret (Some r, h)
       /\ tensr_fft2 t heap = Ret (Some r, h)
       /\ tensr_ifft2 t heap = Ret (Some r, h)
       /\ ndim r = ndim t /\ shape r = shape t /\ size r = size t
       /\ dtype r = dtype t /\ data r = data t.
Proof.
  intros Hwf Hn heap. split; [reflexivity|]. split; [reflexivity|].
  destruct (copy_ok t j0 j1 j2 j3 h Hwf)
    as (r & Hrun & Hnd & Hs & Hsz & Hd & _ & Hdata & _).
  exists r.
  unfold tensr_squeeze, tensr_expand_dims, tensr_slice, tensr_index,
    tensr_vstack, tensr_hstack, tensr_concat, tensr_stack,
    tensr_fft, tensr_ifft, tensr_fft2, tensr_ifft2.
  rewrite (proj2 (Z.eqb_neq _ _) Hn).
  repeat split; assumption.
Qed.

Lemma stubs_return_copies_witness :
  exists r,
    tensr_squeeze mat23 0 (zero_heap 4) = Ret (Some r, [])
    /\ tensr_concat [mat23; mat32] 2 0 (zero_heap 4) = Ret (Some r, [])
    /\ tensr_fft mat23 0 (zero_heap 4) = Ret (Some r, [])
    /\ shape r = [2; 3] /\ data r = data mat23.
Proof.
  destruct (stubs_return_copies mat23 [mat32] 0 0 0 2 [] [] [] []
              zero_junk zero_junk zero_junk zero_junk [] well_formed_mat23
              ltac:(lia))
    as (_ & _ & r & H1 & _ & _ & _ & H5 & _ & _ & _ & H9 & _ & _ & _ & _ & Hs
        & _ & _ & Hd).
  exists r. auto.
Defined.

(** ** Ones *)

Lemma ones_ok (shp : list Z) (nd : Z) (dt : TensrDType) (dev : TensrDevice)
  (j0 j1 j2 j3 : nat -> byte) (h : Heap) :
  1 <= nd < 2 ^ 31 ->
  Z.of_nat (length shp) = nd ->
  size_t (product shp) * tensr_dtype_size dt < 2 ^ 64 ->
  arith_dtype dt ->
  exists t,
    tensr_ones shp nd dt dev (Some j0 :: Some j1 :: Some j2 :: Some j3 :: h)
    = Ret (Some t, h)
    /\ ndim t = nd /\ shape t = shp /\ size t = size_t (product shp)
    /\ dtype t = dt /\ device t = dev
    /\ forall i, 0 <= i < size t -> elem t i = Ret (elem_one dt).
Proof.
  intros Hnd Hlen Hfit Har.
  destruct (elem_width_spec dt) as [Hw0 Hw].
  destruct (created_buffer shp nd dt dev j0 j1 j2 j3 h Hnd Hlen Hfit Hw0)
    as (t & Hc & Hn & Hs & Hsz & Hd & Hdev & _ & _ & Hbuf).
  destruct (filled_branch t (elem_width dt) (fun _ => elem_one dt) (size t) h)
    as (buf & Hrun & _ & Hall);
    [intros _; now apply elem_one_wrapped | rewrite Hw; lia |].
  exists (set_data t buf). split.
  - unfold tensr_ones, bind. rewrite Hc.
    unfold elem_width, elem_one in Hrun.
    destruct Har as [E|[E|[E|E]]]; rewrite E in *;
      cbn [Z.eqb TENSR_FLOAT32 TENSR_FLOAT64 TENSR_INT32 TENSR_INT64 Pos.eqb] in *;
      exact Hrun.
  - cbn [set_data ndim shape size dtype device]. repeat split; try assumption.
    intros i Hi. unfold elem. cbn [set_data dtype data]. rewrite Hd.
    now apply Hall.
Qed.

(** ** Stubs of linalg.c *)

(** X18.  [det] does not read the entries of the matrix: for every square
    matrix of a computing dtype it returns the one-element tensor [1], and
    for a tensor that is not a square matrix it returns NULL.  [solve] and
    [lstsq] return a copy of the right-hand side whatever the matrix is;
    [svd] and [eig] return NULL. *)
Theorem linalg_stubs (a b t : Tensor) (n m : Z) (j0 j1 j2 j3 : nat -> byte) (h : Heap) :
  let heap := Some j0 :: Some j1 :: Some j2 :: Some j3 :: h in
  (ndim t <> 2 -> tensr_det t heap = Ret (None, heap))
  /\ (ndim t = 2 -> shape t = [n; m] -> n <> m -> tensr_det t heap = Ret (None, heap))
  /\ (ndim t = 2 -> shape t = [n; n] -> arith_dtype (dtype t) ->
      exists r,
        tensr_det t heap = Ret (Some r, h)
        /\ shape r = [1] /\ dtype r = dtype t
        /\ elem r 0 = Ret (elem_one (dtype t)))
  /\ (well_formed b ->
      exists r,
        tensr_solve a b heap = Ret (Some r, h)
        /\ tensr_lstsq a b heap = Ret (Some r, h)
        /\ shape r = shape b /\ dtype r = dtype b /\ data r = data b)
  /\ tensr_svd t heap = Ret (None, heap)
  /\ tensr_eig t heap = Ret (None, heap).
Proof.
  intros heap. repeat split.
  - intros H. unfold tensr_det. now rewrite (proj2 (Z.eqb_neq _ _) H).
  - intros H Hs Hne. unfold tensr_det, bind, lift. rewrite H, Hs. cbn [Z.eqb negb].
    change (arr_get [n; m] 0) with (Ret n). change (arr_get [n; m] 1) with (Ret m).
    cbv beta iota. now rewrite (proj2 (Z.eqb_neq _ _) Hne).
  - intros H Hs Har.
    destruct (ones_ok [1] 1 (dtype t) (device t) j0 j1 j2 j3 h)
      as (r & Hrun & _ & Hrs & Hsz & Hd & _ & Hall);
      [lia | reflexivity | | exact Har |].
    { destruct Har as [->|[->|[->| ->]]]; vm_compute; reflexivity. }
    exists r. split.
    + unfold tensr_det, bind, lift. rewrite H, Hs. cbn [Z.eqb negb].
      change (arr_get [n; n] 0) with (Ret n). change (arr_get [n; n] 1) with (Ret n).
      cbv beta iota. rewrite Z.eqb_refl. cbn [negb]. exact Hrun.
    + repeat split; try assumption. apply Hall. rewrite Hsz. vm_compute.
      split; [discriminate | reflexivity].
  - intros Hwf.
    destruct (copy_ok b j0 j1 j2 j3 h Hwf)
      as (r & Hrun & _ & Hs & _ & Hd & _ & Hdata & _).
    exists r. unfold tensr_solve, tensr_lstsq. repeat split; assumption.
Qed.

Lemma linalg_stubs_witness :
  tensr_det mat23 (zero_heap 4) = Ret (None, zero_heap 4)
  /\ (exists r, tensr_det two_eye (zero_heap 4) = Ret (Some r, [])
                /\ elem r 0 = Ret (elem_one TENSR_FLOAT32))
  /\ (exists r, tensr_det zero22 (zero_heap 4) = Ret (Some r, [])
                /\ elem r 0 = Ret (elem_one TENSR_FLOAT32))
  /\ (exists r, tensr_solve two_eye mat23 (zero_heap 4) = Ret (Some r, [])
                /\ data r = data mat23).
Proof.
  pose proof (linalg_stubs two_eye mat23 mat23 2 3 zero_junk zero_junk zero_junk
                zero_junk []) as (_ & H1 & _ & H3 & _).
  pose proof (linalg_stubs two_eye mat23 two_eye 2 2 zero_junk zero_junk zero_junk
                zero_junk []) as (_ & _ & H2 & _).
  pose proof (linalg_stubs two_eye mat23 zero22 2 2 zero_junk zero_junk zero_junk
                zero_junk []) as (_ & _ & H2' & _).
  split; [apply H1; [reflexivity | reflexivity | lia]|].
  split.
  { destruct H2 as (r & Hr & _ & _ & He);
      [reflexivity | reflexivity | left; reflexivity|]. exists r. auto. }
  split.
  { destruct H2' as (r & Hr & _ & _ & He);
      [reflexivity | reflexivity | left; reflexivity|]. exists r. auto. }
  destruct (H3 well_formed_mat23) as (r & Hr & _ & _ & _ & Hd). exists r. auto.
Defined.

(** ** Element-wise loops *)

Lemma fill_values (w : nat) (v : Z -> result Z) (g : Z -> Z) (n : Z) (buf : list byte) :
  (forall i, 0 <= i < n -> v i = Ret (g i)) ->
  (forall i, 0 <= i < n -> g i mod 2 ^ (Z.of_nat w * 8) = g i) ->
  n * Z.of_nat w <= Z.of_nat (length buf) ->
  exists buf',
    fill w n v buf = Ret buf'
    /\ length buf' = length buf
    /\ forall i, 0 <= i < n -> load w buf' i = Ret (g i).
Proof.
  intros Hv Hg Hlen.
  pose (g' := fun i => if (0 <=? i) && (i <? n) then g i else 0).
  assert (Hin : forall i, 0 <= i < n -> g' i = g i).
  { intros i Hi. unfold g'.
    now rewrite (proj2 (Z.leb_le _ _)), (proj2 (Z.ltb_lt _ _)) by lia. }
  destruct (fill_ok w g' n buf) as (buf' & Hrun & Hl & Hall).
  - intros i. unfold g'.
    destruct (Z.leb_spec 0 i), (Z.ltb_spec i n); cbn [andb];
      try (apply Z.mod_0_l, Z.pow_nonzero; lia). apply Hg. lia.
  - exact Hlen.
  - exists buf'. split; [|split; [exact Hl|]].
    + rewrite <- Hrun. apply fill_ext. intros i Hi. rewrite Hv, Hin by lia. reflexivity.
    + intros i Hi. rewrite Hall, Hin by lia. reflexivity.
Qed.

Lemma map_loop_fill (w : nat) (f : Z -> result Z) (n : Z) (rt rr : list byte) :
  map_loop w f n rt rr = fill w n (fun i => x <~ load w rt i ;; f x) rr.
Proof.
  unfold map_loop, fill. apply for_loop_ext. intros j r _.
  destruct (load w rt j); reflexivity.
Qed.

Lemma cmp_loop_fill (w : nat) (f : Z -> Z -> bool) (n : Z) (ra rb rr : list byte) :
  cmp_loop w f n ra rb rr
  = fill 1 n (fun i => x <~ load w ra i ;; y <~ load w rb i ;; Ret (Z.b2z (f x y))) rr.
Proof.
  unfold cmp_loop, fill. apply for_loop_ext. intros j r _.
  destruct (load w ra j); [|reflexivity]. destruct (load w rb j); reflexivity.
Qed.

Lemma logical_loop_fill (absorbing : bool) (n : Z) (ra rb rr : list byte) :
  logical_loop absorbing n ra rb rr
  = fill 1 n (fun i => x <~ load_bool ra i ;;
                       v <~ (if Bool.eqb x absorbing then Ret x else load_bool rb i) ;;
                       Ret (Z.b2z v)) rr.
Proof.
  unfold logical_loop, fill. apply for_loop_ext. intros j r _.
  destruct (load_bool ra j) as [x|]; [|reflexivity]. cbn [bindR].
  destruct (Bool.eqb x absorbing); [reflexivity|].
  destruct (load_bool rb j); reflexivity.
Qed.

(** the result tensor of an element-wise function of [a]: [a]'s shape, the
    dtype [dt], a buffer of [size a] elements *)
Lemma result_buffer (a : Tensor) (dt : TensrDType) (j0 j1 j2 j3 : nat -> byte)
  (h : Heap) :
  well_formed a ->
  size a * tensr_dtype_size dt < 2 ^ 64 ->
  exists res,
    tensr_create (shape a) (ndim a) dt (device a)
      (Some j0 :: Some j1 :: Some j2 :: Some j3 :: h) = Ret (Some res, h)
    /\ ndim res = ndim a /\ shape res = shape a /\ size res = size a
    /\ dtype res = dt /\ device res = device a
    /\ Z.of_nat (length (data res)) = size a * tensr_dtype_size dt.
Proof.
  intros (Hnd & Hlen & _ & Hsz & Hr & _) Hfit.
  destruct (elem_width_spec dt) as [Hw0 _].
  destruct (created_buffer (shape a) (ndim a) dt (device a) j0 j1 j2 j3 h)
    as (res & Hc & Hn & Hs & Hsize & Hd & Hdev & _ & _ & Hbuf);
    try lia; try (rewrite <- Hsz, size_t_small by lia; lia).
  rewrite <- Hsz, size_t_small in Hsize by lia. rewrite Hsize in Hbuf.
  exists res. repeat split; assumption.
Qed.

Lemma elem_defined (t : Tensor) (i : Z) :
  well_formed t -> 0 <= i < size t -> exists x, elem t i = Ret x.
Proof.
  intros (_ & _ & _ & _ & _ & Hd & _) Hi. unfold elem.
  destruct (elem_width_spec (dtype t)) as [Hw0 Hw].
  eexists. apply load_ok; [lia | rewrite Hw; nia].
Qed.

(** ** Unary functions *)

(** an element read from a buffer is a [w]-byte pattern *)
Lemma word_range (w : nat) (l : list byte) :
  0 <= le_combine (firstn w l) < 2 ^ (Z.of_nat w * 8).
Proof.
  pose proof (le_combine_bound (firstn w l)) as Hb.
  pose proof (firstn_le_length w l) as Hl.
  assert (2 ^ (8 * Z.of_nat (length (firstn w l))) <= 2 ^ (Z.of_nat w * 8))
    by (apply Z.pow_le_mono_r; lia).
  lia.
Qed.

Lemma float_neg_range (w x : Z) :
  0 < w -> 0 <= x < 2 ^ w -> 0 <= float_neg w x < 2 ^ w.
Proof.
  intros Hw Hx. unfold float_neg.
  assert (Hp : 0 < 2 ^ (w - 1)) by (apply Z.pow_pos_nonneg; lia).
  assert (H0 : 0 <= Z.lxor x (2 ^ (w - 1))) by (apply Z.lxor_nonneg; lia).
  split; [exact H0|].
  destruct (Z.eq_dec (Z.lxor x (2 ^ (w - 1))) 0) as [->|Hne];
    [apply Z.pow_pos_nonneg; lia|].
  apply Z.log2_lt_pow2; [lia|].
  pose proof (Z.log2_lxor x (2 ^ (w - 1)) ltac:(lia) ltac:(lia)) as Hl.
  rewrite Z.log2_pow2 in Hl by lia.
  assert (Z.log2 x < w).
  { destruct (Z.eq_dec x 0) as [->|]; [cbn; lia|]. apply Z.log2_lt_pow2; lia. }
  lia.
Qed.

(** On the patterns of numbers the sign flip is the negation of IEEE-754;
    on a NaN it flips the sign and keeps the payload. *)
Example float_neg_samples :
  float_neg 32 f32_1 = IEEE.opp 8 23 f32_1
  /\ float_neg 32 f32_0 = IEEE.opp 8 23 f32_0
  /\ float_neg 32 FLT_MAX = IEEE.opp 8 23 FLT_MAX
  /\ float_neg 64 f64_2 = IEEE.opp 11 52 f64_2
  /\ float_neg 32 f32_qnan = f32_qnan_neg
  /\ float_neg 32 f32_qnan1_neg = f32_qnan1.
Proof. repeat split; vm_compute; reflexivity. Qed.

(** the value a [UNARY_FUNC] instance stores for the element [x] *)
Lemma unary_values (t res : Tensor) (w : nat) (g : Z -> Z) (h : Heap) :
  well_formed t ->
  Z.of_nat w = tensr_dtype_size (dtype t) ->
  (forall x, 0 <= x < 2 ^ (Z.of_nat w * 8) -> g x mod 2 ^ (Z.of_nat w * 8) = g x) ->
  Z.of_nat (length (data res)) = size t * tensr_dtype_size (dtype t) ->
  exists buf,
    with_data res (map_loop w (fun x => Ret (g x)) (size t) (data t) (data res)) h
    = Ret (Some (set_data res buf), h)
    /\ forall i, 0 <= i < size t ->
         exists x, load w (data t) i = Ret x /\ load w buf i = Ret (g x).
Proof.
  intros (_ & _ & _ & _ & _ & Hd & _) Hw Hg Hres.
  pose (val := fun i => g (le_combine (firstn w (skipn (Z.to_nat i * w) (data t))))).
  destruct (fill_values w (fun i => x <~ load w (data t) i ;; Ret (g x)) val
              (size t) (data res)) as (buf & Hrun & _ & Hall).
  - intros i Hi. rewrite load_ok by (rewrite ?Hw; nia). reflexivity.
  - intros i _. apply Hg. apply word_range.
  - rewrite Hw. lia.
  - exists buf. split.
    + apply with_data_ok. now rewrite map_loop_fill.
    + intros i Hi. eexists. split; [apply load_ok; rewrite ?Hw; nia|].
      now apply Hall.
Qed.

(** X19.  Every function generated by [UNARY_FUNC] (sqrt, exp, log, abs,
    sin, cos, tan, arcsin, arccos, arctan) returns, for a floating tensor, a
    tensor of the same ndim, shape, dtype and device whose element i is the
    function ([funcf] for float32, [func] for float64) applied to element i
    of the argument. *)
Theorem UNARY_FUNC_elementwise (funcf func : Z -> Z) (t : Tensor)
  (j0 j1 j2 j3 : nat -> byte) (h : Heap) :
  well_formed t ->
  float_dtype (dtype t) ->
  (forall x, 0 <= funcf x < 2 ^ 32) ->
  (forall x, 0 <= func x < 2 ^ 64) ->
  exists r,
    UNARY_FUNC funcf func t (Some j0 :: Some j1 :: Some j2 :: Some j3 :: h)
    = Ret (Some r, h)
    /\ ndim r = ndim t /\ shape r = shape t /\ size r = size t
    /\ dtype r = dtype t /\ device r = device t
    /\ forall i, 0 <= i < size t ->
         exists x, elem t i = Ret x
                   /\ elem r i = Ret (if dtype t =? TENSR_FLOAT32 then funcf x
                                      else func x).
Proof.
  intros Hwf Hfl Hf32 Hf64.
  pose proof Hwf as (_ & _ & _ & _ & _ & _ & Hfit).
  destruct (result_buffer t (dtype t) j0 j1 j2 j3 h Hwf Hfit)
    as (res & Hc & Hn & Hs & Hsz & Hd & Hdev & Hbuf).
  destruct (elem_width_spec (dtype t)) as [_ Hw].
  destruct (unary_values t res (elem_width (dtype t))
              (fun x => if dtype t =? TENSR_FLOAT32 then funcf x else func x) h
              Hwf Hw) as (buf & Hrun & Hall).
  - intros x _. apply Z.mod_small. unfold elem_width.
    destruct Hfl as [E|E]; rewrite E;
      cbn [Z.eqb TENSR_FLOAT32 TENSR_FLOAT64 Pos.eqb]; [apply Hf32 | apply Hf64].
  - exact Hbuf.
  - exists (set_data res buf). split.
    + unfold UNARY_FUNC, bind. rewrite Hc.
      unfold elem_width in Hrun.
      destruct Hfl as [E|E]; rewrite E in *;
        cbn [Z.eqb TENSR_FLOAT32 TENSR_FLOAT64 Pos.eqb] in *; exact Hrun.
    + cbn [set_data ndim shape size dtype device]. repeat split; try assumption.
      intros i Hi. unfold elem. cbn [set_data dtype data]. rewrite Hd.
      now apply Hall.
Qed.

Lemma UNARY_FUNC_elementwise_witness :
  exists r,
    tensr_sqrt mat23 (zero_heap 4) = Ret (Some r, [])
    /\ shape r = [2; 3]
    /\ forall i, 0 <= i < 6 ->
         exists x, elem mat23 i = Ret x /\ elem r i = Ret (IEEE.sqrt 8 23 x).
Proof.
  destruct (UNARY_FUNC_elementwise (IEEE.sqrt 8 23) (IEEE.sqrt 11 52) mat23
              zero_junk zero_junk zero_junk zero_junk [] well_formed_mat23)
    as (r & Hrun & _ & Hs & _ & _ & _ & Hall).
  - left. reflexivity.
  - intros x. apply Z.mod_pos_bound. reflexivity.
  - intros x. apply Z.mod_pos_bound. reflexivity.
  - exists r. auto.
Defined.

(** X20.  [neg] returns, for the four computing dtypes, a tensor of the
    same ndim, shape, dtype and device whose element i is the negation of
    element i of the argument: for the floating dtypes the element with its
    sign bit flipped (a NaN keeps its payload), for the integer dtypes the
    two's complement. *)
Theorem tensr_neg_elementwise (t : Tensor) (j0 j1 j2 j3 : nat -> byte) (h : Heap) :
  well_formed t ->
  arith_dtype (dtype t) ->
  exists r,
    tensr_neg t (Some j0 :: Some j1 :: Some j2 :: Some j3 :: h) = Ret (Some r, h)
    /\ ndim r = ndim t /\ shape r = shape t /\ size r = size t
    /\ dtype r = dtype t /\ device r = device t
    /\ forall i, 0 <= i < size t ->
         exists x, elem t i = Ret x /\ elem r i = Ret (elem_neg (dtype t) x).
Proof.
  intros Hwf Har.
  pose proof Hwf as (_ & _ & _ & _ & _ & _ & Hfit).
  destruct (result_buffer t (dtype t) j0 j1 j2 j3 h Hwf Hfit)
    as (res & Hc & Hn & Hs & Hsz & Hd & Hdev & Hbuf).
  destruct (elem_width_spec (dtype t)) as [_ Hw].
  destruct (unary_values t res (elem_width (dtype t)) (elem_neg (dtype t)) h Hwf Hw)
    as (buf & Hrun & Hall).
  - intros x Hx. unfold elem_neg, elem_width in *.
    destruct Har as [E|[E|[E|E]]]; rewrite E in *;
      cbn [Z.eqb TENSR_FLOAT32 TENSR_FLOAT64 TENSR_INT32 TENSR_INT64 Pos.eqb
             tensr_dtype_size] in *;
      try (apply Z.mod_mod; discriminate);
      apply Z.mod_small; [apply (float_neg_range 32) | apply (float_neg_range 64)];
      (lia || exact Hx).
  - exact Hbuf.
  - exists (set_data res buf). split.
    + unfold tensr_neg, bind. rewrite Hc.
      unfold elem_width, elem_neg in Hrun.
      destruct Har as [E|[E|[E|E]]]; rewrite E in *;
        cbn [Z.eqb TENSR_FLOAT32 TENSR_FLOAT64 TENSR_INT32 TENSR_INT64 Pos.eqb] in *;
        exact Hrun.
    + cbn [set_data ndim shape size dtype device]. repeat split; try assumption.
      intros i Hi. unfold elem. cbn [set_data dtype data]. rewrite Hd.
      now apply Hall.
Qed.

Lemma tensr_neg_elementwise_witness :
  (exists r,
     tensr_neg ones22_i32 (zero_heap 4) = Ret (Some r, [])
     /\ forall i, 0 <= i < 4 ->
          exists x, elem ones22_i32 i = Ret x
                    /\ elem r i = Ret (elem_neg TENSR_INT32 x))
  /\ exists r,
       tensr_neg nan_vector (zero_heap 4) = Ret (Some r, [])
       /\ forall i, 0 <= i < 3 ->
            exists x, elem nan_vector i = Ret x
                      /\ elem r i = Ret (elem_neg TENSR_FLOAT32 x).
Proof.
  split.
  - destruct (tensr_neg_elementwise ones22_i32 zero_junk zero_junk zero_junk
                zero_junk [])
      as (r & Hrun & _ & _ & _ & _ & _ & Hall).
    + closed_well_formed.
    + right. right. left. reflexivity.
    + exists r. auto.
  - destruct (tensr_neg_elementwise nan_vector zero_junk zero_junk zero_junk
                zero_junk [])
      as (r & Hrun & _ & _ & _ & _ & _ & Hall).
    + closed_well_formed.
    + left. reflexivity.
    + exists r. auto.
Defined.

(** The negation of [[1.0, NaN, -NaN(1)]] is [[-1.0, -NaN, NaN(1)]]. *)
Example tensr_neg_keeps_nan_payload :
  exists r,
    tensr_neg nan_vector (zero_heap 4) = Ret (Some r, [])
    /\ data r = flat_map (le_split 4) [IEEE.opp 8 23 f32_1; f32_qnan_neg; f32_qnan1].
Proof. eexists. split; vm_compute; reflexivity. Qed.

(** ** Comparisons *)

Lemma b2z_wrapped (b : bool) : Z.b2z b mod 2 ^ (Z.of_nat 1 * 8) = Z.b2z b.
Proof. destruct b; reflexivity. Qed.

Lemma cmp_values (a b res : Tensor) (w : nat) (f : Z -> Z -> bool) (h : Heap) :
  Z.of_nat w = tensr_dtype_size (dtype a) ->
  Z.of_nat (length (data a)) = size a * tensr_dtype_size (dtype a) ->
  Z.of_nat (length (data b)) = size a * tensr_dtype_size (dtype a) ->
  Z.of_nat (length (data res)) = size a ->
  exists buf,
    with_data res (cmp_loop w f (size a) (data a) (data b) (data res)) h
    = Ret (Some (set_data res buf), h)
    /\ forall i, 0 <= i < size a ->
         exists x y, load w (data a) i = Ret x /\ load w (data b) i = Ret y
                     /\ load 1 buf i = Ret (Z.b2z (f x y)).
Proof.
  intros Hw Ha Hb Hres.
  pose (val := fun (d : list byte) i => le_combine (firstn w (skipn (Z.to_nat i * w) d))).
  destruct (fill_values 1
              (fun i => x <~ load w (data a) i ;; y <~ load w (data b) i ;;
                        Ret (Z.b2z (f x y)))
              (fun i => Z.b2z (f (val (data a) i) (val (data b) i)))
              (size a) (data res)) as (buf & Hrun & _ & Hall).
  - intros i Hi. rewrite !load_ok by (rewrite ?Hw; nia). reflexivity.
  - intros i _. apply b2z_wrapped.
  - lia.
  - exists buf. split.
    + apply with_data_ok. now rewrite cmp_loop_fill.
    + intros i Hi. do 2 eexists.
      split; [apply load_ok; rewrite ?Hw; nia|].
      split; [apply load_ok; rewrite ?Hw; nia|].
      now apply Hall.
Qed.

(** X21.  The six comparisons ([equal], [not_equal], [greater], [less],
    [greater_equal], [less_equal]) return NULL for operands of different
    size.  For well-formed operands of equal size and the same computing
    dtype they return a bool tensor with the ndim and shape of the first
    operand whose element i is 1 when [a[i] op b[i]] holds and 0 when it
    does not. *)
Theorem COMPARISON_OP_contract (op : cmp_op) (a b : Tensor)
  (j0 j1 j2 j3 : nat -> byte) (h h' : Heap) :
  (size a <> size b -> COMPARISON_OP op a b h' = Ret (None, h'))
  /\ (well_formed a -> well_formed b ->
      size a = size b -> dtype b = dtype a -> arith_dtype (dtype a) ->
      exists r,
        COMPARISON_OP op a b (Some j0 :: Some j1 :: Some j2 :: Some j3 :: h)
        = Ret (Some r, h)
        /\ ndim r = ndim a /\ shape r = shape a /\ size r = size a
        /\ dtype r = TENSR_BOOL /\ device r = device a
        /\ forall i, 0 <= i < size a ->
             exists x y, elem a i = Ret x /\ elem b i = Ret y
                         /\ elem r i = Ret (Z.b2z (elem_cmp (dtype a) op x y))).
Proof.
  split.
  - intros H. unfold COMPARISON_OP. now rewrite (proj2 (Z.eqb_neq _ _) H).
  - intros Hwa Hwb Hsz Hdt Har.
    pose proof Hwa as (_ & _ & _ & _ & Hra & Hda & _).
    pose proof Hwb as (_ & _ & _ & _ & _ & Hdb & _).
    rewrite <- Hsz, Hdt in Hdb.
    destruct (result_buffer a TENSR_BOOL j0 j1 j2 j3 h Hwa)
      as (res & Hc & Hn & Hs & Hsize & Hd & Hdev & Hbuf);
      [change (tensr_dtype_size TENSR_BOOL) with 1; lia|].
    change (tensr_dtype_size TENSR_BOOL) with 1 in Hbuf.
    destruct (elem_width_spec (dtype a)) as [_ Hw].
    destruct (cmp_values a b res (elem_width (dtype a)) (elem_cmp (dtype a) op) h
                Hw Hda Hdb) as (buf & Hrun & Hall); [lia|].
    exists (set_data res buf). split.
    + unfold COMPARISON_OP, bind. rewrite <- Hsz, Z.eqb_refl. cbn [negb].
      rewrite Hc. unfold elem_width, elem_cmp in Hrun.
      destruct Har as [E|[E|[E|E]]]; rewrite E in *;
        cbn [Z.eqb TENSR_FLOAT32 TENSR_FLOAT64 TENSR_INT32 TENSR_INT64 Pos.eqb] in *;
        exact Hrun.
    + cbn [set_data ndim shape size dtype device]. repeat split; try assumption.
      intros i Hi. unfold elem. cbn [set_data dtype data]. rewrite Hd, Hdt.
      now apply Hall.
Qed.

Lemma COMPARISON_OP_contract_witness :
  tensr_less mat23 two_eye (zero_heap 4) = Ret (None, zero_heap 4)
  /\ exists r,
       tensr_less mat23 mat32 (zero_heap 4) = Ret (Some r, [])
       /\ shape r = [2; 3] /\ dtype r = TENSR_BOOL
       /\ forall i, 0 <= i < 6 ->
            exists x y, elem mat23 i = Ret x /\ elem mat32 i = Ret y
                        /\ elem r i = Ret (Z.b2z (elem_cmp TENSR_FLOAT32 CmpLt x y)).
Proof.
  split.
  - apply (proj1 (COMPARISON_OP_contract CmpLt mat23 two_eye
                    zero_junk zero_junk zero_junk zero_junk [] (zero_heap 4))).
    vm_compute. discriminate.
  - destruct (proj2 (COMPARISON_OP_contract CmpLt mat23 mat32
                       zero_junk zero_junk zero_junk zero_junk [] []))
      as (r & Hrun & _ & Hs & _ & Hd & _ & Hall).
    + closed_well_formed.
    + closed_well_formed.
    + reflexivity.
    + reflexivity.
    + left. reflexivity.
    + exists r. auto.
Defined.

(** ** Logical operations *)

Lemma load_bool_ok (t : Tensor) (v : Z -> bool) (i : Z) :
  holds_bools t v -> 0 <= i < size t -> load_bool (data t) i = Ret (v i).
Proof.
  intros H Hi. unfold load_bool. rewrite (H i Hi). cbn [bindR].
  destruct (v i); reflexivity.
Qed.

Lemma logical_values (a b res : Tensor) (va vb : Z -> bool) (absorbing : bool)
  (h : Heap) :
  holds_bools a va -> holds_bools b vb -> size b = size a ->
  Z.of_nat (length (data res)) = size a ->
  exists buf,
    with_data res (logical_loop absorbing (size a) (data a) (data b) (data res)) h
    = Ret (Some (set_data res buf), h)
    /\ forall i, 0 <= i < size a ->
         load 1 buf i
         = Ret (Z.b2z (if absorbing then va i || vb i else va i && vb i)).
Proof.
  intros Ha Hb Hsz Hres.
  destruct (fill_values 1
              (fun i => x <~ load_bool (data a) i ;;
                        v <~ (if Bool.eqb x absorbing then Ret x
                              else load_bool (data b) i) ;;
                        Ret (Z.b2z v))
              (fun i => Z.b2z (if absorbing then va i || vb i else va i && vb i))
              (size a) (data res)) as (buf & Hrun & _ & Hall).
  - intros i Hi. rewrite (load_bool_ok a va) by assumption. cbn [bindR].
    rewrite (load_bool_ok b vb) by (assumption || lia).
    destruct (va i), absorbing, (vb i); reflexivity.
  - intros i _. apply b2z_wrapped.
  - lia.
  - exists buf. split; [|exact Hall].
    apply with_data_ok. now rewrite logical_loop_fill.
Qed.

(** X22.  For tensors that hold truth values (bytes 0 and 1),
    [logical_and], [logical_or] and [logical_not] return a bool tensor with
    the ndim and shape of the first operand whose element i is
    [a[i] && b[i]], [a[i] || b[i]] and [!a[i]]; the binary ones return NULL
    for operands of different size. *)
Theorem logical_operations (a b : Tensor) (va vb : Z -> bool)
  (j0 j1 j2 j3 : nat -> byte) (h h' : Heap) :
  (size a <> size b ->
   tensr_logical_and a b h' = Ret (None, h')
   /\ tensr_logical_or a b h' = Ret (None, h'))
  /\ (well_formed a -> holds_bools a va -> holds_bools b vb -> size a = size b ->
      let heap := Some j0 :: Some j1 :: Some j2 :: Some j3 :: h in
      exists r_and r_or r_not,
        tensr_logical_and a b heap = Ret (Some r_and, h)
        /\ tensr_logical_or a b heap = Ret (Some r_or, h)
        /\ tensr_logical_not a heap = Ret (Some r_not, h)
        /\ shape r_and = shape a /\ shape r_or = shape a /\ shape r_not = shape a
        /\ dtype r_and = TENSR_BOOL /\ dtype r_or = TENSR_BOOL
        /\ dtype r_not = TENSR_BOOL
        /\ forall i, 0 <= i < size a ->
             elem r_and i = Ret (Z.b2z (va i && vb i))
             /\ elem r_or i = Ret (Z.b2z (va i || vb i))
             /\ elem r_not i = Ret (Z.b2z (negb (va i)))).
Proof.
  split.
  - intros H. unfold tensr_logical_and, tensr_logical_or.
    now rewrite (proj2 (Z.eqb_neq _ _) H).
  - intros Hwa Ha Hb Hsz heap.
    destruct (result_buffer a TENSR_BOOL j0 j1 j2 j3 h Hwa)
      as (res & Hc & Hn & Hs & Hsize & Hd & Hdev & Hbuf);
      [pose proof Hwa as (_ & _ & _ & _ & Hra & _);
       change (tensr_dtype_size TENSR_BOOL) with 1; lia|].
    change (tensr_dtype_size TENSR_BOOL) with 1 in Hbuf.
    destruct (logical_values a b res va vb false h Ha Hb)
      as (band & Hand & Hall_and); [lia | lia |].
    destruct (logical_values a b res va vb true h Ha Hb)
      as (bor & Hor & Hall_or); [lia | lia |].
    destruct (fill_values 1
                (fun i => x <~ load_bool (data a) i ;; Ret (Z.b2z (negb x)))
                (fun i => Z.b2z (negb (va i))) (size a) (data res))
      as (bnot & Hnot & _ & Hall_not).
    { intros i Hi. now rewrite (load_bool_ok a va). }
    { intros i _. apply b2z_wrapped. }
    { lia. }
    exists (set_data res band), (set_data res bor), (set_data res bnot).
    split; [|split; [|split]].
    + unfold tensr_logical_and, bind. rewrite <- Hsz, Z.eqb_refl. cbn [negb].
      subst heap. rewrite Hc. exact Hand.
    + unfold tensr_logical_or, bind. rewrite <- Hsz, Z.eqb_refl. cbn [negb].
      subst heap. rewrite Hc. exact Hor.
    + unfold tensr_logical_not, bind. subst heap. rewrite Hc.
      apply with_data_ok. rewrite <- Hnot. unfold fill. apply for_loop_ext.
      intros j r _. destruct (load_bool (data a) j); reflexivity.
    + cbn [set_data shape dtype]. repeat split; try assumption;
        unfold elem; cbn [set_data dtype data]; rewrite Hd;
        change (elem_width TENSR_BOOL) with 1%nat; auto.
Qed.

Lemma bool_byte (vals : list bool) :
  forall k : nat, (k < length vals)%nat ->
    le_combine (firstn 1 (skipn k (map (fun b : bool => byte.of_Z (Z.b2z b)) vals)))
    = Z.b2z (nth k vals false).
Proof.
  induction vals as [|v vals IH]; intros k Hk; [cbn in Hk; lia|].
  destruct k as [|k].
  - destruct v; reflexivity.
  - cbn [map skipn nth]. apply IH. cbn in Hk. lia.
Qed.

Lemma holds_bools_bool_tensor (vals : list bool) :
  holds_bools (bool_tensor vals) (fun i => nth (Z.to_nat i) vals false).
Proof.
  intros i Hi. cbn [bool_tensor size data] in *.
  rewrite load_ok by (rewrite ?length_map; lia).
  rewrite Nat.mul_1_r, bool_byte by lia. reflexivity.
Qed.

Lemma logical_operations_witness :
  exists r_and r_or r_not,
    tensr_logical_and (bool_tensor [true; false; true; true])
      (bool_tensor [true; true; false; true]) (zero_heap 4) = Ret (Some r_and, [])
    /\ tensr_logical_or (bool_tensor [true; false; true; true])
         (bool_tensor [true; true; false; true]) (zero_heap 4) = Ret (Some r_or, [])
    /\ tensr_logical_not (bool_tensor [true; false; true; true]) (zero_heap 4)
       = Ret (Some r_not, [])
    /\ elem r_and 1 = Ret 0 /\ elem r_or 1 = Ret 1 /\ elem r_not 1 = Ret 1.
Proof.
  destruct (proj2 (logical_operations (bool_tensor [true; false; true; true])
                     (bool_tensor [true; true; false; true])
                     (fun i => nth (Z.to_nat i) [true; false; true; true] false)
                     (fun i => nth (Z.to_nat i) [true; true; false; true] false)
                     zero_junk zero_junk zero_junk zero_junk [] []))
    as (r1 & r2 & r3 & H1 & H2 & H3 & _ & _ & _ & _ & _ & _ & Hall).
  - closed_well_formed.
  - apply holds_bools_bool_tensor.
  - apply holds_bools_bool_tensor.
  - reflexivity.
  - exists r1, r2, r3. destruct (Hall 1) as (Ha & Ho & Hn); [cbn; lia|].
    repeat split; assumption.
Defined.

(** ** Dtypes without a loop *)

Lemma create_only (m : M (option Tensor)) (h : Heap) :
  (r <- m ;; match r with None => ret None | Some res => ret (Some res) end) h = m h.
Proof. unfold bind. destruct (m h) as [[[t|] h1]|]; reflexivity. Qed.

(** X23.  The kernels are written for the floating dtypes ([neg] and the
    comparisons for the four computing dtypes).  For every other dtype the
    unary functions, [pow], [sum], [mean], [max], [min] and [dot] return
    what [tensr_create] returns: a tensor whose buffer has not been
    written. *)
Theorem kernels_skip_other_dtypes (funcf func : Z -> Z) (powf pow : Z -> Z -> Z)
  (op : cmp_op) (exponent : Z) (t b : Tensor) (axes : list Z) (naxes : Z)
  (keepdims : bool) (h : Heap) :
  ~ float_dtype (dtype t) ->
  let same := tensr_create (shape t) (ndim t) (dtype t) (device t) h in
  let scalar := tensr_create [1] 1 (dtype t) (device t) h in
  UNARY_FUNC funcf func t h = same
  /\ tensr_pow powf pow t exponent h = same
  /\ tensr_sum t axes 0 false h = scalar
  /\ tensr_mean t axes 0 false h = scalar
  /\ tensr_max t axes naxes keepdims h = scalar
  /\ tensr_min t axes naxes keepdims h = scalar
  /\ (ndim t = 1 -> ndim b = 1 -> size t = size b -> tensr_dot t b h = scalar)
  /\ (~ arith_dtype (dtype t) ->
      tensr_neg t h = same
      /\ (size t = size b ->
          COMPARISON_OP op t b h
          = tensr_create (shape t) (ndim t) TENSR_BOOL (device t) h)).
Proof.
  intros Hfl same scalar.
  assert (H32 : (dtype t =? TENSR_FLOAT32) = false).
  { apply Z.eqb_neq. intros E. apply Hfl. now left. }
  assert (H64 : (dtype t =? TENSR_FLOAT64) = false).
  { apply Z.eqb_neq. intros E. apply Hfl. now right. }
  repeat split.
  - unfold UNARY_FUNC. rewrite H32, H64. apply create_only.
  - unfold tensr_pow. rewrite H32, H64. apply create_only.
  - unfold tensr_sum. cbn [Z.eqb]. rewrite H32, H64. apply create_only.
  - unfold tensr_mean, tensr_sum. cbn [Z.eqb]. rewrite H32, H64.
    unfold bind. subst scalar.
    destruct (tensr_create [1] 1 (dtype t) (device t) h) as [[[r|] h1]|]; reflexivity.
  - unfold tensr_max. rewrite H32, H64. apply create_only.
  - unfold tensr_min. rewrite H32, H64. apply create_only.
  - intros Ha Hb Hs. unfold tensr_dot. rewrite Ha, Hb, Hs, !Z.eqb_refl.
    cbn [negb orb]. rewrite H32, H64. apply create_only.
  - unfold tensr_neg. rewrite H32, H64.
    rewrite (proj2 (Z.eqb_neq (dtype t) TENSR_INT32)),
            (proj2 (Z.eqb_neq (dtype t) TENSR_INT64));
      [apply create_only | |]; intros E; apply H; unfold arith_dtype; auto.
  - intros Hs. unfold COMPARISON_OP. rewrite Hs, Z.eqb_refl. cbn [negb].
    rewrite <- Hs, H32, H64.
    rewrite (proj2 (Z.eqb_neq (dtype t) TENSR_INT32)),
            (proj2 (Z.eqb_neq (dtype t) TENSR_INT64));
      [apply create_only | |]; intros E; apply H; unfold arith_dtype; auto.
Qed.

Lemma kernels_skip_other_dtypes_witness :
  tensr_sqrt ones22_i32 (zero_heap 4)
  = tensr_create [2; 2] 2 TENSR_INT32 TENSR_CPU (zero_heap 4)
  /\ tensr_sum ones22_i32 [] 0 false (zero_heap 4)
     = tensr_create [1] 1 TENSR_INT32 TENSR_CPU (zero_heap 4).
Proof.
  destruct (kernels_skip_other_dtypes (IEEE.sqrt 8 23) (IEEE.sqrt 11 52)
              (fun x _ => x) (fun x _ => x) CmpEq 0 ones22_i32 ones22_i32 [] 0 false
              (zero_heap 4))
    as (H1 & _ & H3 & _).
  - intros [E|E]; vm_compute in E; discriminate.
  - split; [exact H1 | exact H3].
Defined.

(** ** Reductions *)

Lemma reduce_loop_fold (w : nat) (step : Z -> Z -> Z) (buf : list byte) :
  forall (k i : nat) (acc : Z),
    (Z.of_nat (i + k) * Z.of_nat w <= Z.of_nat (length buf)) ->
    for_loop k (Z.of_nat i)
      (fun j a => x <~ load w buf j ;; Ret (step a x)) acc
    = Ret (fold_left step
             (map (fun j : nat => le_combine (firstn w (skipn (j * w) buf))) (seq i k))
             acc).
Proof.
  induction k as [|k IH]; intros i acc Hlen; [reflexivity|].
  cbn [for_loop seq map fold_left].
  rewrite load_ok by nia. rewrite Nat2Z.id. cbn [bindR].
  replace (Z.of_nat i + 1) with (Z.of_nat (S i)) by lia.
  apply IH. lia.
Qed.

Lemma reduce_loop_elements (t : Tensor) (step : Z -> Z -> Z) (init : Z) :
  well_formed t ->
  reduce_loop (elem_width (dtype t)) step (size t) (data t) init
  = Ret (fold_left step (elements t) init).
Proof.
  intros (_ & _ & _ & _ & Hr & Hd & _). unfold reduce_loop, elements.
  destruct (elem_width_spec (dtype t)) as [_ Hw].
  apply (reduce_loop_fold _ step (data t) (Z.to_nat (size t)) 0 init).
  rewrite Hw. lia.
Qed.

Lemma fold_left_wrapped (step : Z -> Z -> Z) (m : Z) (l : list Z) (init : Z) :
  (forall a x, step a x mod m = step a x) -> init mod m = init ->
  fold_left step l init mod m = fold_left step l init.
Proof.
  intros Hs. revert init. induction l as [|x l IH]; intros init Hi; [exact Hi|].
  cbn [fold_left]. apply IH, Hs.
Qed.

Lemma float_add_wrapped (dt : TensrDType) (x y : Z) :
  float_dtype dt ->
  float_add dt x y mod 2 ^ (Z.of_nat (elem_width dt) * 8) = float_add dt x y.
Proof.
  intros [->| ->]; apply to_bits_wrapped; lia.
Qed.

Lemma float_div_wrapped (dt : TensrDType) (x y : Z) :
  float_dtype dt ->
  float_div dt x y mod 2 ^ (Z.of_nat (elem_width dt) * 8) = float_div dt x y.
Proof.
  intros [->| ->]; apply to_bits_wrapped; lia.
Qed.

(** the one-element result of a reduction *)
Lemma scalar_buffer (dt : TensrDType) (dev : TensrDevice) (j0 j1 j2 j3 : nat -> byte)
  (h : Heap) :
  supported_dtype dt ->
  exists res,
    tensr_create [1] 1 dt dev (Some j0 :: Some j1 :: Some j2 :: Some j3 :: h)
    = Ret (Some res, h)
    /\ ndim res = 1 /\ shape res = [1] /\ size res = 1 /\ dtype res = dt
    /\ device res = dev
    /\ length (data res) = elem_width dt.
Proof.
  intros Hs.
  destruct (scalar_created dt dev j0 j1 j2 j3 h)
    as (res & Hc & Hn & Hsh & Hsz & Hd & Hdev & Hlen).
  exists res. repeat split; try assumption.
  destruct (supported_dtype_range dt Hs) as [_ Hw].
  rewrite size_t_small in Hlen by lia. unfold elem_width. lia.
Qed.

Lemma float_supported (dt : TensrDType) : float_dtype dt -> supported_dtype dt.
Proof. intros [->| ->]; unfold supported_dtype; cbn [In]; auto. Qed.

(** X24.  With [naxes = 0] and [keepdims = false], [sum] of a well-formed
    floating tensor returns a tensor of shape [1] that holds the elements
    added from zero in the order of the buffer, in the arithmetic of the
    dtype; [mean] returns that sum divided by the size converted to the
    dtype.  The mean of an empty tensor is a NaN: the sum 0 is divided by
    the size 0. *)
Theorem tensr_sum_mean_values (t : Tensor) (axes : list Z)
  (j0 j1 j2 j3 : nat -> byte) (h : Heap) :
  well_formed t ->
  float_dtype (dtype t) ->
  let heap := Some j0 :: Some j1 :: Some j2 :: Some j3 :: h in
  let total := fold_left (float_add (dtype t)) (elements t) 0 in
  exists s m,
    tensr_sum t axes 0 false heap = Ret (Some s, h)
    /\ tensr_mean t axes 0 false heap = Ret (Some m, h)
    /\ ndim s = 1 /\ shape s = [1] /\ dtype s = dtype t /\ device s = device t
    /\ elem s 0 = Ret total
    /\ ndim m = 1 /\ shape m = [1] /\ dtype m = dtype t /\ device m = device t
    /\ elem m 0
       = Ret (float_div (dtype t) total (float_of_size (dtype t) (size t)))
    /\ (size t = 0 ->
        is_nan (dtype t)
          (float_div (dtype t) total (float_of_size (dtype t) (size t)))).
Proof.
  intros Hwf Hfl heap total.
  destruct (scalar_buffer (dtype t) (device t) j0 j1 j2 j3 h (float_supported _ Hfl))
    as (res & Hc & Hn & Hsh & Hsz & Hd & Hdev & Hlen).
  set (w := elem_width (dtype t)) in *.
  assert (Htot : total mod 2 ^ (Z.of_nat w * 8) = total).
  { apply fold_left_wrapped; [intros; now apply float_add_wrapped|].
    apply Z.mod_0_l, Z.pow_nonzero; lia. }
  pose proof (reduce_loop_elements t (float_add (dtype t)) 0 Hwf) as Hred.
  fold w total in Hred.
  pose proof (store_whole w (data res) total Hlen) as Hst.
  assert (Hsum : tensr_sum t axes 0 false heap
                 = Ret (Some (set_data res (le_split w total)), h)).
  { unfold tensr_sum. cbn [Z.eqb]. unfold bind. subst heap. rewrite Hc.
    unfold w, elem_width, float_add in *.
    destruct Hfl as [E|E]; rewrite E in *;
      cbn [Z.eqb TENSR_FLOAT32 TENSR_FLOAT64 Pos.eqb tensr_dtype_size] in *;
      apply with_data_ok;
      change (Z.to_nat 4) with 4%nat in *; change (Z.to_nat 8) with 8%nat in *;
      rewrite Hred; cbn [bindR]; exact Hst. }
  assert (Hload : load w (le_split w total) 0 = Ret total).
  { rewrite <- Htot at 2. apply (load_store_same w (data res) 0 total). exact Hst. }
  set (q := float_div (dtype t) total (float_of_size (dtype t) (size t))).
  pose proof (store_whole w (le_split w total) q (length_le_split _ _)) as Hst2.
  assert (Hmean : tensr_mean t axes 0 false heap
                  = Ret (Some (set_data res (le_split w q)), h)).
  { unfold tensr_mean. unfold bind at 1. rewrite Hsum.
    cbn [set_data data].
    unfold q, w, elem_width, float_div, float_of_size in *.
    destruct Hfl as [E|E]; rewrite E in *;
      cbn [Z.eqb TENSR_FLOAT32 TENSR_FLOAT64 Pos.eqb tensr_dtype_size] in *;
      change (Z.to_nat 4) with 4%nat in *; change (Z.to_nat 8) with 8%nat in *;
      unfold with_data, bind, lift; rewrite Hload; cbn [bindR]; rewrite Hst2;
      reflexivity. }
  exists (set_data res (le_split w total)), (set_data res (le_split w q)).
  split; [exact Hsum|]. split; [exact Hmean|].
  cbn [set_data ndim shape dtype device data]. unfold elem.
  cbn [set_data dtype data]. rewrite Hd. fold w.
  repeat split; try assumption.
  - pose proof (load_store_same w (le_split w total) 0 q _ Hst2) as Hq.
    assert (Hqw : q mod 2 ^ (Z.of_nat w * 8) = q)
      by (now apply float_div_wrapped).
    rewrite Hqw in Hq. exact Hq.
  - intros Hz. unfold q, total, elements. rewrite Hz.
    cbn [Z.to_nat seq map fold_left].
    unfold is_nan, float_div, float_of_size.
    destruct Hfl as [E|E]; rewrite E; vm_compute; reflexivity.
Qed.

Lemma tensr_sum_mean_values_witness :
  (exists s m,
     tensr_sum mat23 [] 0 false (zero_heap 4) = Ret (Some s, [])
     /\ tensr_mean mat23 [] 0 false (zero_heap 4) = Ret (Some m, [])
     /\ elem s 0 = Ret (fold_left f32_add (elements mat23) 0)
     /\ elem m 0
        = Ret (f32_div (fold_left f32_add (elements mat23) 0) (IEEE.of_Z 8 23 6)))
  /\ exists m x,
       tensr_mean empty_f32 [] 0 false (zero_heap 4) = Ret (Some m, [])
       /\ elem m 0 = Ret x /\ is_nan TENSR_FLOAT32 x.
Proof.
  split.
  - destruct (tensr_sum_mean_values mat23 [] zero_junk zero_junk zero_junk zero_junk []
                well_formed_mat23)
      as (s & m & Hs & Hm & _ & _ & _ & _ & Hes & _ & _ & _ & _ & Hem & _).
    + left. reflexivity.
    + exists s, m. auto.
  - destruct (tensr_sum_mean_values empty_f32 [] zero_junk zero_junk zero_junk
                zero_junk [])
      as (s & m & _ & Hm & _ & _ & _ & _ & _ & _ & _ & _ & _ & Hem & Hnan).
    + closed_well_formed.
    + left. reflexivity.
    + exists m. eexists. split; [exact Hm|]. split; [exact Hem|].
      apply Hnan. reflexivity.
Defined.

(** X25.  [sum] and [mean] with [keepdims = true] ask [tensr_create] for
    [ndim] dimensions of a shape array that has one entry: for a tensor of
    two or more dimensions the copy of the shape reads behind the array,
    and the call is undefined. *)
Theorem tensr_sum_keepdims_undefined (t : Tensor) (axes : list Z)
  (j0 j1 j2 : nat -> byte) (h : Heap) :
  2 <= ndim t < 2 ^ 31 ->
  tensr_sum t axes 0 true (Some j0 :: Some j1 :: Some j2 :: h) = Undef
  /\ tensr_mean t axes 0 true (Some j0 :: Some j1 :: Some j2 :: h) = Undef.
Proof.
  intros Hnd.
  assert (H : tensr_sum t axes 0 true (Some j0 :: Some j1 :: Some j2 :: h) = Undef).
  { unfold tensr_sum. cbn [Z.eqb]. unfold bind at 1.
    unfold tensr_create, bind. cbn [malloc].
    rewrite !block_words by lia. unfold memcpy_words.
    destruct (Nat.leb_spec (Z.to_nat (ndim t)) (length [1%Z])) as [Hle|Hgt];
      [cbn [length] in Hle; lia | reflexivity]. }
  split; [exact H|]. unfold tensr_mean, bind. now rewrite H.
Qed.

Lemma tensr_sum_keepdims_undefined_witness :
  tensr_sum mat23 [] 0 true (zero_heap 3) = Undef
  /\ tensr_mean mat23 [] 0 true (zero_heap 3) = Undef.
Proof.
  apply (tensr_sum_keepdims_undefined mat23 [] zero_junk zero_junk zero_junk []).
  cbn. lia.
Defined.

(** ** The order of the floating dtypes *)

Lemma SFltb_iff (x y : spec_float) : SFltb x y = true <-> SFcompare x y = Some Lt.
Proof.
  unfold SFltb. destruct (SFcompare x y) as [[]|]; split; congruence.
Qed.

Lemma SFcompare_pos (m1 m2 : positive) (e1 e2 : Z) :
  SFcompare (S754_finite false m1 e1) (S754_finite false m2 e2) = Some Lt
  <-> e1 < e2 \/ (e1 = e2 /\ (m1 < m2)%positive).
Proof.
  cbn [SFcompare]. change (PosDef.Pos.compare_cont Eq m1 m2) with (Pos.compare m1 m2).
  destruct (Z.compare_spec e1 e2); [destruct (Pos.compare_spec m1 m2)| |];
    split; intros H'; try discriminate; try reflexivity; try lia.
Qed.

Lemma SFcompare_neg (m1 m2 : positive) (e1 e2 : Z) :
  SFcompare (S754_finite true m1 e1) (S754_finite true m2 e2) = Some Lt
  <-> e2 < e1 \/ (e1 = e2 /\ (m2 < m1)%positive).
Proof.
  cbn [SFcompare]. change (PosDef.Pos.compare_cont Eq m1 m2) with (Pos.compare m1 m2).
  destruct (Z.compare_spec e1 e2); [destruct (Pos.compare_spec m1 m2)| |];
    split; intros H'; cbn [CompOpp] in *; try discriminate; try reflexivity; try lia.
Qed.

Lemma SFltb_irrefl (x : spec_float) : SFltb x x = false.
Proof.
  destruct (SFltb x x) eqn:E; [|reflexivity].
  apply SFltb_iff in E.
  destruct x as [[]|[]| |[] m e]; try discriminate.
  - apply SFcompare_neg in E. lia.
  - apply SFcompare_pos in E. lia.
Qed.

Lemma SFltb_trans (x y z : spec_float) :
  SFltb x y = true -> SFltb y z = true -> SFltb x z = true.
Proof.
  rewrite !SFltb_iff.
  destruct x as [[]|[]| |[] mx ex], y as [[]|[]| |[] my ey], z as [[]|[]| |[] mz ez];
    rewrite ?SFcompare_pos, ?SFcompare_neg;
    try (cbn; intros; (discriminate || reflexivity));
    try lia.
Qed.

Lemma float_ltb_irrefl (dt : TensrDType) (x : Z) : float_ltb dt x x = false.
Proof.
  unfold float_ltb. destruct (dt =? TENSR_FLOAT32); apply SFltb_irrefl.
Qed.

Lemma float_ltb_trans (dt : TensrDType) (x y z : Z) :
  float_ltb dt x y = true -> float_ltb dt y z = true -> float_ltb dt x z = true.
Proof.
  unfold float_ltb. destruct (dt =? TENSR_FLOAT32); apply SFltb_trans.
Qed.

(** ** Searches *)

Lemma arg_loop_ok (w : nat) (better : Z -> Z -> bool) (n : Z) (buf : list byte)
  (init : Z) :
  (forall a, better a a = false) ->
  (forall a b c, better a b = true -> better b c = true -> better a c = true) ->
  0 <= n -> n * Z.of_nat w <= Z.of_nat (length buf) ->
  exists val idx,
    arg_loop w better n buf init = Ret (val, idx)
    /\ ((val = init /\ idx = 0)
        \/ (0 <= idx < n /\ load w buf idx = Ret val /\ better val init = true))
    /\ forall j y, 0 <= j < n -> load w buf j = Ret y -> better y val = false.
Proof.
  intros Hirr Htr Hn Hlen. unfold arg_loop.
  pose (P := fun (k : Z) (s : Z * Z) =>
    ((fst s = init /\ snd s = 0)
     \/ (0 <= snd s < k /\ load w buf (snd s) = Ret (fst s)
         /\ better (fst s) init = true))
    /\ forall j y, 0 <= j < k -> load w buf j = Ret y -> better y (fst s) = false).
  destruct (for_loop_total P
              (fun i '(val, idx) =>
                 x <~ load w buf i ;;
                 Ret (if better x val then (x, i) else (val, idx)))
              (Z.to_nat n) 0 (init, 0)) as ([val idx] & Hrun & Hfin & Hall).
  - unfold P. cbn [fst snd]. split; [left; split; reflexivity | intros; lia].
  - intros k [val idx] Hk (Hsel & Hbest). cbn [fst snd] in Hsel, Hbest.
    assert (Hx : load w buf k
                 = Ret (le_combine (firstn w (skipn (Z.to_nat k * w) buf))))
      by (apply load_ok; nia).
    rewrite Hx. cbn [bindR].
    set (x := le_combine (firstn w (skipn (Z.to_nat k * w) buf))) in *.
    eexists. split; [reflexivity|].
    destruct (better x val) eqn:Hb; unfold P; cbn [fst snd].
    + split.
      * right. split; [lia|]. split; [exact Hx|].
        destruct Hsel as [[-> _]|(_ & _ & Hv)]; [exact Hb | exact (Htr _ _ _ Hb Hv)].
      * intros j y Hj Hy. destruct (Z.eq_dec j k) as [->|Hne].
        -- rewrite Hx in Hy. injection Hy as <-. apply Hirr.
        -- destruct (better y x) eqn:Hyx; [|reflexivity].
           rewrite <- (Hbest j y ltac:(lia) Hy). symmetry. exact (Htr _ _ _ Hyx Hb).
    + split.
      * destruct Hsel as [Hs|(Hi & Hl & Hv)]; [left; exact Hs | right].
        split; [lia|]. split; assumption.
      * intros j y Hj Hy. destruct (Z.eq_dec j k) as [->|Hne].
        -- rewrite Hx in Hy. injection Hy as <-. exact Hb.
        -- apply (Hbest j y); [lia | exact Hy].
  - exists val, idx. split; [exact Hrun|].
    unfold P in Hfin, Hall. cbn [fst snd] in Hfin, Hall.
    replace (0 + Z.of_nat (Z.to_nat n)) with n in * by lia.
    split; assumption.
Qed.

Lemma arg_search (t res : Tensor) (better : Z -> Z -> bool) (init : Z) :
  well_formed t ->
  (forall a, better a a = false) ->
  (forall a b c, better a b = true -> better b c = true -> better a c = true) ->
  length (data res) = 8%nat ->
  exists idx buf,
    ('(_, i) <~ arg_loop (elem_width (dtype t)) better (size t) (data t) init ;; Ret i)
    = Ret idx
    /\ store 8 (data res) 0 idx = Ret buf
    /\ load 8 buf 0 = Ret idx
    /\ arg_result better init t idx.
Proof.
  intros Hwf Hirr Htr Hlen.
  pose proof Hwf as (_ & _ & _ & _ & Hr & Hd & _).
  destruct (elem_width_spec (dtype t)) as [_ Hw].
  destruct (arg_loop_ok (elem_width (dtype t)) better (size t) (data t) init
              Hirr Htr) as (val & idx & Hrun & Hsel & Hbest); [lia | rewrite Hw; lia |].
  assert (Hidx : 0 <= idx < 2 ^ 64).
  { destruct Hsel as [[_ ->]|(Hi & _)]; lia. }
  exists idx, (le_split 8 idx). rewrite Hrun. cbn [bindR].
  pose proof (store_whole 8 (data res) idx Hlen) as Hst.
  split; [reflexivity|]. split; [exact Hst|]. split.
  - rewrite (load_store_same _ _ _ _ _ Hst). f_equal. apply Z.mod_small.
    change (2 ^ (Z.of_nat 8 * 8)) with (2 ^ 64). exact Hidx.
  - exists val. split; [exact Hsel | exact Hbest].
Qed.

(** X26.  [argmax] and [argmin] of a well-formed floating tensor return an
    int64 tensor of shape [1] with an index.  For [argmax] the search starts
    from [-FLT_MAX] ([-DBL_MAX]): when no element is greater than that (an
    empty tensor, or only NaNs, [-inf] and [-FLT_MAX]) the index is 0;
    otherwise the index is that of an element greater than [-FLT_MAX], and
    no element of the tensor is greater than it.  [argmin] is the mirror
    image, from [FLT_MAX] ([DBL_MAX]). *)
Theorem arg_extremes (t : Tensor) (axis : Z) (j0 j1 j2 j3 : nat -> byte) (h : Heap) :
  well_formed t ->
  float_dtype (dtype t) ->
  let heap := Some j0 :: Some j1 :: Some j2 :: Some j3 :: h in
  exists rmax imax rmin imin,
    tensr_argmax t axis heap = Ret (Some rmax, h)
    /\ tensr_argmin t axis heap = Ret (Some rmin, h)
    /\ shape rmax = [1] /\ dtype rmax = TENSR_INT64 /\ elem rmax 0 = Ret imax
    /\ shape rmin = [1] /\ dtype rmin = TENSR_INT64 /\ elem rmin 0 = Ret imin
    /\ arg_result (fun x v => float_ltb (dtype t) v x) (float_lowest (dtype t)) t imax
    /\ arg_result (fun x v => float_ltb (dtype t) x v) (float_highest (dtype t)) t imin.
Proof.
  intros Hwf Hfl heap.
  destruct (scalar_buffer TENSR_INT64 (device t) j0 j1 j2 j3 h)
    as (res & Hc & Hn & Hsh & Hsz & Hd & Hdev & Hlen).
  { unfold supported_dtype. cbn [In]. auto. }
  change (elem_width TENSR_INT64) with 8%nat in Hlen.
  destruct (arg_search t res (fun x v => float_ltb (dtype t) v x)
              (float_lowest (dtype t)) Hwf)
    as (imax & bmax & Hmax & Hstmax & Hldmax & Hrmax);
    [intros; apply float_ltb_irrefl
    | intros a b c Hab Hbc; exact (float_ltb_trans _ _ _ _ Hbc Hab)
    | exact Hlen |].
  destruct (arg_search t res (fun x v => float_ltb (dtype t) x v)
              (float_highest (dtype t)) Hwf)
    as (imin & bmin & Hmin & Hstmin & Hldmin & Hrmin);
    [intros; apply float_ltb_irrefl
    | intros a b c Hab Hbc; exact (float_ltb_trans _ _ _ _ Hab Hbc)
    | exact Hlen |].
  exists (set_data res bmax), imax, (set_data res bmin), imin.
  split; [|split].
  - unfold tensr_argmax, bind at 1. subst heap. rewrite Hc.
    unfold float_ltb, float_lowest, elem_width in Hmax.
    unfold bind, lift.
    destruct Hfl as [E|E]; rewrite E in *;
      cbn [Z.eqb TENSR_FLOAT32 TENSR_FLOAT64 Pos.eqb tensr_dtype_size] in *;
      change (Z.to_nat 4) with 4%nat in *; change (Z.to_nat 8) with 8%nat in *;
      rewrite Hmax; apply with_data_ok; exact Hstmax.
  - unfold tensr_argmin, bind at 1. subst heap. rewrite Hc.
    unfold float_ltb, float_highest, elem_width in Hmin.
    unfold bind, lift.
    destruct Hfl as [E|E]; rewrite E in *;
      cbn [Z.eqb TENSR_FLOAT32 TENSR_FLOAT64 Pos.eqb tensr_dtype_size] in *;
      change (Z.to_nat 4) with 4%nat in *; change (Z.to_nat 8) with 8%nat in *;
      rewrite Hmin; apply with_data_ok; exact Hstmin.
  - cbn [set_data shape dtype]. unfold elem. cbn [set_data dtype data].
    rewrite Hd. change (elem_width TENSR_INT64) with 8%nat.
    repeat split; assumption.
Qed.

Lemma arg_extremes_witness :
  exists rmax imax rmin imin,
    tensr_argmax mat23 0 (zero_heap 4) = Ret (Some rmax, [])
    /\ tensr_argmin mat23 0 (zero_heap 4) = Ret (Some rmin, [])
    /\ elem rmax 0 = Ret imax /\ elem rmin 0 = Ret imin
    /\ arg_result (fun x v => float_ltb TENSR_FLOAT32 v x)
         (float_lowest TENSR_FLOAT32) mat23 imax
    /\ arg_result (fun x v => float_ltb TENSR_FLOAT32 x v)
         (float_highest TENSR_FLOAT32) mat23 imin.
Proof.
  destruct (arg_extremes mat23 0 zero_junk zero_junk zero_junk zero_junk []
              well_formed_mat23)
    as (rmax & imax & rmin & imin & H1 & H2 & _ & _ & H3 & _ & _ & H4 & H5 & H6).
  - left. reflexivity.
  - exists rmax, imax, rmin, imin. repeat split; assumption.
Defined.

(** ** The inner product *)

Lemma inner_loop_dot_loop (w : nat) (add mul : Z -> Z -> Z) (n : Z) (da db : list byte) :
  0 <= n < 2 ^ 64 ->
  inner_loop w add mul n da db = dot_loop w add mul n 1 0 0 da db.
Proof.
  intros Hn. unfold inner_loop, dot_loop. apply for_loop_ext.
  intros p s Hp.
  replace (size_t (0 * n + p)) with p by (rewrite size_t_small; lia).
  replace (size_t (p * 1 + 0)) with p by (rewrite size_t_small; lia).
  reflexivity.
Qed.

(** X27.  [dot] returns NULL unless both operands have one dimension and
    the same size.  For well-formed one-dimensional operands of equal size
    and the same floating dtype it returns a tensor of shape [1] holding the
    sum over p of [a[p] * b[p]], accumulated from zero in the order of p:
    the entry (0, 0) of the product of the 1 x n matrix [a] and the n x 1
    matrix [b]. *)
Theorem tensr_dot_contract (a b : Tensor) (j0 j1 j2 j3 : nat -> byte) (h h' : Heap) :
  (ndim a <> 1 \/ ndim b <> 1 \/ size a <> size b ->
   tensr_dot a b h' = Ret (None, h'))
  /\ (well_formed a -> well_formed b ->
      ndim a = 1 -> ndim b = 1 -> size a = size b ->
      dtype b = dtype a -> float_dtype (dtype a) ->
      exists r,
        tensr_dot a b (Some j0 :: Some j1 :: Some j2 :: Some j3 :: h) = Ret (Some r, h)
        /\ ndim r = 1 /\ shape r = [1] /\ dtype r = dtype a /\ device r = device a
        /\ elem r 0
           = Ret (dot_product (elem_width (dtype a)) (float_add (dtype a))
                    (float_mul (dtype a)) (data a) (data b) (size a) 1 0 0)).
Proof.
  split.
  - intros H. unfold tensr_dot.
    replace (negb (ndim a =? 1) || negb (ndim b =? 1) || negb (size a =? size b))
      with true; [reflexivity|].
    symmetry. rewrite !orb_true_iff, !negb_true_iff, !Z.eqb_neq. tauto.
  - intros Hwa Hwb Hna Hnb Hsz Hdt Hfl.
    pose proof Hwa as (_ & _ & _ & _ & Hra & Hda & _).
    pose proof Hwb as (_ & _ & _ & _ & _ & Hdb & _).
    rewrite <- Hsz, Hdt in Hdb.
    destruct (scalar_buffer (dtype a) (device a) j0 j1 j2 j3 h (float_supported _ Hfl))
      as (res & Hc & Hn & Hsh & Hs1 & Hd & Hdev & Hlen).
    destruct (elem_width_spec (dtype a)) as [_ Hw].
    set (w := elem_width (dtype a)) in *.
    set (d := dot_product w (float_add (dtype a)) (float_mul (dtype a))
                (data a) (data b) (size a) 1 0 0).
    assert (Hin : inner_loop w (float_add (dtype a)) (float_mul (dtype a))
                    (size a) (data a) (data b) = Ret d).
    { rewrite inner_loop_dot_loop by lia.
      apply dot_loop_ok with (m := 1); try lia; rewrite Hw; lia. }
    pose proof (store_whole w (data res) d Hlen) as Hst.
    exists (set_data res (le_split w d)). split.
    + unfold tensr_dot. rewrite Hna, Hnb, <- Hsz, !Z.eqb_refl. cbn [negb orb].
      unfold bind. rewrite Hc.
      unfold w, elem_width, float_add, float_mul in Hin, Hst |- *.
      destruct Hfl as [E|E]; rewrite E in *;
        cbn [Z.eqb TENSR_FLOAT32 TENSR_FLOAT64 Pos.eqb tensr_dtype_size] in *;
        change (Z.to_nat 4) with 4%nat in *; change (Z.to_nat 8) with 8%nat in *;
        apply with_data_ok; rewrite Hin; cbn [bindR]; exact Hst.
    + cbn [set_data ndim shape dtype device]. repeat split; try assumption.
      unfold elem. cbn [set_data dtype data]. rewrite Hd. fold w.
      rewrite (load_store_same _ _ _ _ _ Hst). f_equal.
      apply dot_product_wrapped. intros x y. now apply float_add_wrapped.
Qed.

Lemma tensr_dot_contract_witness :
  tensr_dot mat23 mat23 (zero_heap 4) = Ret (None, zero_heap 4)
  /\ exists r,
       tensr_dot (f32_tensor [3] [1] [f32_1; f32_2; f32_3])
         (f32_tensor [3] [1] [f32_4; f32_5; f32_6]) (zero_heap 4) = Ret (Some r, [])
       /\ shape r = [1]
       /\ elem r 0
          = Ret (dot_product 4 f32_add f32_mul
                   (data (f32_tensor [3] [1] [f32_1; f32_2; f32_3]))
                   (data (f32_tensor [3] [1] [f32_4; f32_5; f32_6])) 3 1 0 0).
Proof.
  split.
  - apply (proj1 (tensr_dot_contract mat23 mat23 zero_junk zero_junk zero_junk
                    zero_junk [] (zero_heap 4))).
    left. vm_compute. discriminate.
  - destruct (proj2 (tensr_dot_contract (f32_tensor [3] [1] [f32_1; f32_2; f32_3])
                       (f32_tensor [3] [1] [f32_4; f32_5; f32_6])
                       zero_junk zero_junk zero_junk zero_junk [] []))
      as (r & Hrun & _ & Hs & _ & _ & He).
    + closed_well_formed.
    + closed_well_formed.
    + reflexivity.
    + reflexivity.
    + reflexivity.
    + reflexivity.
    + left. reflexivity.
    + exists r. auto.
Defined.

(** ** Tensors from arrays *)

(** X28.  [from_array] copies [size * width] bytes of the caller's array
    into the new tensor ([array_2d] is [from_array] for the shape
    [rows, cols]); it does not know the length of the array, and when the
    array is shorter the call reads behind it and is undefined. *)
Theorem tensr_from_array_copies (shp : list Z) (nd : Z) (dt : TensrDType)
  (dev : TensrDevice) (src : list byte) (j0 j1 j2 j3 : nat -> byte) (h : Heap) :
  1 <= nd < 2 ^ 31 ->
  Z.of_nat (length shp) = nd ->
  size_t (product shp) * tensr_dtype_size dt < 2 ^ 64 ->
  let heap := Some j0 :: Some j1 :: Some j2 :: Some j3 :: h in
  let bytes := size_t (product shp) * tensr_dtype_size dt in
  (bytes <= Z.of_nat (length src) ->
   exists t,
     tensr_from_array shp nd dt dev src heap = Ret (Some t, h)
     /\ (forall rows cols, shp = [rows; cols] ->
           tensr_array_2d dt dev rows cols src heap = Ret (Some t, h))
     /\ ndim t = nd /\ shape t = shp /\ size t = size_t (product shp)
     /\ dtype t = dt /\ device t = dev
     /\ data t = firstn (Z.to_nat bytes) src)
  /\ (Z.of_nat (length src) < bytes ->
      tensr_from_array shp nd dt dev src heap = Undef).
Proof.
  intros Hnd Hlen Hfit heap bytes.
  destruct (elem_width_spec dt) as [Hw0 _].
  destruct (created_buffer shp nd dt dev j0 j1 j2 j3 h Hnd Hlen Hfit Hw0)
    as (t & Hc & Hn & Hs & Hsz & Hd & Hdev & _ & _ & Hbuf).
  pose proof (size_t_range (product shp)) as Hr.
  assert (Hb : size_t (size t * tensr_dtype_size dt) = bytes).
  { rewrite Hsz. apply size_t_small. unfold bytes. nia. }
  split.
  - intros Hsrc.
    assert (Hrun : tensr_from_array shp nd dt dev src heap
                   = Ret (Some (set_data t (firstn (Z.to_nat bytes) src)), h)).
    { unfold tensr_from_array, bind. subst heap. rewrite Hc. apply with_data_ok.
      rewrite Hb. unfold memcpy.
      rewrite !(proj2 (Z.leb_le _ _)) by (rewrite ?Hbuf, ?Hsz; fold bytes; lia).
      cbn [andb]. rewrite skipn_all2 by (rewrite <- Hsz in *; fold bytes in Hbuf; lia).
      now rewrite app_nil_r. }
    exists (set_data t (firstn (Z.to_nat bytes) src)).
    split; [exact Hrun|]. split.
    + intros rows cols E. unfold tensr_array_2d. rewrite <- E.
      replace 2 with nd; [exact Hrun|]. rewrite <- Hlen, E. reflexivity.
    + cbn [set_data ndim shape size dtype device data]. repeat split; assumption.
  - intros Hsrc. unfold tensr_from_array, bind. subst heap. rewrite Hc.
    unfold with_data, bind, lift, memcpy. rewrite Hb.
    now rewrite (proj2 (Z.leb_gt _ _)) by lia.
Qed.

Lemma tensr_from_array_copies_witness :
  (exists t,
     tensr_from_array [2; 3] 2 TENSR_FLOAT32 TENSR_CPU (data mat23) (zero_heap 4)
     = Ret (Some t, [])
     /\ tensr_array_2d TENSR_FLOAT32 TENSR_CPU 2 3 (data mat23) (zero_heap 4)
        = Ret (Some t, [])
     /\ shape t = [2; 3] /\ data t = data mat23)
  /\ tensr_from_array [2; 3] 2 TENSR_FLOAT32 TENSR_CPU (le_split 4 f32_1) (zero_heap 4)
     = Undef.
Proof.
  split.
  - destruct (proj1 (tensr_from_array_copies [2; 3] 2 TENSR_FLOAT32 TENSR_CPU
                       (data mat23) zero_junk zero_junk zero_junk zero_junk []
                       ltac:(lia) eq_refl ltac:(vm_compute; reflexivity)))
      as (t & Hrun & H2d & _ & Hs & _ & _ & _ & Hd).
    + vm_compute. discriminate.
    + exists t. repeat split; [exact Hrun | now apply H2d | exact Hs | exact Hd].
  - apply (proj2 (tensr_from_array_copies [2; 3] 2 TENSR_FLOAT32 TENSR_CPU
                    (le_split 4 f32_1) zero_junk zero_junk zero_junk zero_junk []
                    ltac:(lia) eq_refl ltac:(vm_compute; reflexivity))).
    vm_compute. reflexivity.
Defined.

(** X29.  [array_1d(dtype, device, n, ...)] with at least [n] arguments
    returns, for float32, float64 and int32, the vector of the first [n]
    arguments (converted to [float] for float32); with fewer than [n]
    arguments it reads behind the last one and is undefined. *)
Theorem tensr_array_1d_elements (dt : TensrDType) (dev : TensrDevice) (n : Z)
  (args : list Z) (j0 j1 j2 j3 : nat -> byte) (h : Heap) :
  0 <= n -> n * tensr_dtype_size dt < 2 ^ 64 ->
  dt = TENSR_FLOAT32 \/ dt = TENSR_FLOAT64 \/ dt = TENSR_INT32 ->
  Forall (fun x => 0 <= x < 2 ^ arg_bits dt) args ->
  let heap := Some j0 :: Some j1 :: Some j2 :: Some j3 :: h in
  (n <= Z.of_nat (length args) ->
   exists t,
     tensr_array_1d dt dev n args heap = Ret (Some t, h)
     /\ ndim t = 1 /\ shape t = [n] /\ size t = n /\ dtype t = dt /\ device t = dev
     /\ forall i, 0 <= i < n ->
          elem t i = Ret (array_value dt (nth (Z.to_nat i) args 0)))
  /\ (Z.of_nat (length args) < n -> tensr_array_1d dt dev n args heap = Undef).
Proof.
  intros Hn Hfit Hdt Hargs heap.
  destruct (elem_width_spec dt) as [Hw0 Hw].
  assert (Hw1 : 1 <= tensr_dtype_size dt).
  { destruct Hdt as [->|[->| ->]]; vm_compute; discriminate. }
  assert (Hn' : 0 <= n < 2 ^ 64) by nia.
  destruct (created_buffer [n] 1 dt dev j0 j1 j2 j3 h)
    as (t & Hc & Hnd & Hs & Hsz & Hd & Hdev & _ & _ & Hbuf);
    [lia | reflexivity | rewrite product_one, size_t_small by lia; lia | lia |].
  rewrite product_one, size_t_small in Hsz by lia.
  split.
  - intros Hlen.
    destruct (fill_values (elem_width dt)
                (fun i => d <~ arr_get args i ;; Ret (array_value dt d))
                (fun i => array_value dt (nth (Z.to_nat i) args 0))
                n (data t)) as (buf & Hrun & _ & Hall).
    + intros i Hi. now rewrite arr_get_ok by lia.
    + intros i Hi.
      assert (Hx : 0 <= nth (Z.to_nat i) args 0 < 2 ^ arg_bits dt).
      { apply (proj1 (Forall_nth _ args) Hargs). lia. }
      unfold array_value, arg_bits, elem_width in *.
      destruct Hdt as [->|[->| ->]];
        cbn [Z.eqb TENSR_FLOAT32 TENSR_FLOAT64 TENSR_INT32 Pos.eqb] in *.
      * apply (to_bits_wrapped 8 23). lia.
      * apply Z.mod_small. exact Hx.
      * apply Z.mod_small. exact Hx.
    + rewrite Hw. lia.
    + exists (set_data t buf). split.
      * unfold tensr_array_1d, bind. subst heap. rewrite Hc.
        unfold array_value, elem_width in Hrun.
        destruct Hdt as [E|[E|E]]; rewrite E in *;
          cbn [Z.eqb TENSR_FLOAT32 TENSR_FLOAT64 TENSR_INT32 Pos.eqb] in *;
          apply with_data_ok; rewrite <- Hrun; apply fill_ext; intros i Hi;
          destruct (arr_get args i); reflexivity.
      * cbn [set_data ndim shape size dtype device]. repeat split; try assumption.
        intros i Hi. unfold elem. cbn [set_data dtype data]. rewrite Hd.
        now apply Hall.
  - intros Hshort.
    assert (Hund : forall (w : nat) (f : Z -> result Z),
               Z.of_nat w = tensr_dtype_size dt ->
               fill w n (fun i => d <~ arr_get args i ;; f d) (data t) = Undef).
    { intros w f Hww. unfold fill.
      destruct (for_loop (Z.to_nat n) 0
                  (fun i b => x <~ (d <~ arr_get args i ;; f d) ;; store w b i x)
                  (data t)) as [b|] eqn:E; [|reflexivity].
      exfalso.
      pose (P := fun (k : Z) (_ : list byte) => k <= Z.of_nat (length args)).
      assert (Hfin : P (0 + Z.of_nat (Z.to_nat n)) b).
      { apply (for_loop_inv P _ _ _ _ _ E); [unfold P; lia|].
        intros j x y Hj Hp Hb. unfold P in *.
        apply bindR_Ret in Hb as (v & Hv & _).
        apply bindR_Ret in Hv as (d & Hdd & _).
        apply arr_get_Ret in Hdd. lia. }
      unfold P in Hfin. lia. }
    unfold tensr_array_1d, bind. subst heap. rewrite Hc.
    unfold with_data, bind, lift.
    destruct Hdt as [E|[E|E]]; rewrite E in *;
      cbn [Z.eqb TENSR_FLOAT32 TENSR_FLOAT64 TENSR_INT32 Pos.eqb] in *.
    + now rewrite (Hund 4%nat (fun d => Ret (f64_to_f32 d)) eq_refl).
    + assert (H8 : fill 8 n (fun i => arr_get args i) (data t) = Undef).
      { rewrite <- (Hund 8%nat (fun d => Ret d) eq_refl). apply fill_ext.
        intros i _. destruct (arr_get args i); reflexivity. }
      now rewrite H8.
    + assert (H4 : fill 4 n (fun i => arr_get args i) (data t) = Undef).
      { rewrite <- (Hund 4%nat (fun d => Ret d) eq_refl). apply fill_ext.
        intros i _. destruct (arr_get args i); reflexivity. }
      now rewrite H4.
Qed.

Lemma tensr_array_1d_elements_witness :
  (exists t,
     tensr_array_1d TENSR_FLOAT32 TENSR_CPU 3 [one_f64; f64_2; f64_3] (zero_heap 4)
     = Ret (Some t, [])
     /\ shape t = [3]
     /\ forall i, 0 <= i < 3 ->
          elem t i = Ret (array_value TENSR_FLOAT32
                            (nth (Z.to_nat i) [one_f64; f64_2; f64_3] 0)))
  /\ tensr_array_1d TENSR_FLOAT32 TENSR_CPU 3 [one_f64; f64_2] (zero_heap 4) = Undef.
Proof.
  split.
  - destruct (proj1 (tensr_array_1d_elements TENSR_FLOAT32 TENSR_CPU 3
                       [one_f64; f64_2; f64_3] zero_junk zero_junk zero_junk zero_junk []
                       ltac:(lia) ltac:(vm_compute; reflexivity)
                       ltac:(left; reflexivity)
                       ltac:(repeat constructor; vm_compute; discriminate)))
      as (t & Hrun & _ & Hs & _ & _ & _ & Hall).
    + vm_compute. discriminate.
    + exists t. auto.
  - apply (proj2 (tensr_array_1d_elements TENSR_FLOAT32 TENSR_CPU 3
                    [one_f64; f64_2] zero_junk zero_junk zero_junk zero_junk []
                    ltac:(lia) ltac:(vm_compute; reflexivity)
                    ltac:(left; reflexivity)
                    ltac:(repeat constructor; vm_compute; discriminate))).
    vm_compute. reflexivity.
Defined.

(** ** Random integers *)

Lemma signed_wrapped (v : Z) :
  - 2 ^ 31 <= v < 2 ^ 31 -> signed 32 (v mod 2 ^ 32) = v.
Proof.
  intros Hv. unfold signed. change (2 ^ (32 - 1)) with (2 ^ 31).
  rewrite Z.add_mod_idemp_l by discriminate.
  rewrite Z.mod_small by lia. lia.
Qed.

Section RandomRange.
Variable rand_state : Type.
Variable libc_srand : Z -> rand_state.
Variable libc_rand : rand_state -> Z * rand_state.

Lemma fill_random_ok (w : nat) (n : Z) (draw : Rng rand_state -> result (Z * Rng rand_state))
  (Q : Z -> Prop) (buf : list byte) (g : Rng rand_state) :
  (forall g0, exists x g1,
      draw g0 = Ret (x, g1) /\ Q x /\ x mod 2 ^ (Z.of_nat w * 8) = x) ->
  n * Z.of_nat w <= Z.of_nat (length buf) ->
  exists buf' g',
    fill_random rand_state w n draw buf g = Ret (buf', g')
    /\ forall i, 0 <= i < n -> exists x, load w buf' i = Ret x /\ Q x.
Proof.
  intros Hdraw Hlen. unfold fill_random.
  pose (P := fun (k : Z) (s : list byte * Rng rand_state) =>
               length (fst s) = length buf
               /\ forall i, 0 <= i < k -> exists x, load w (fst s) i = Ret x /\ Q x).
  destruct (for_loop_total P
              (fun i '(b, g0) =>
                 '(x, g1) <~ draw g0 ;; b1 <~ store w b i x ;; Ret (b1, g1))
              (Z.to_nat n) 0 (buf, g)) as ([buf' g'] & Hrun & _ & Hall).
  - unfold P. cbn [fst]. split; [reflexivity | intros; lia].
  - intros k [b g0] Hk (Hl & Hprev). cbn [fst] in Hl, Hprev.
    destruct (Hdraw g0) as (x & g1 & Hd & Hq & Hwr). rewrite Hd. cbn [bindR].
    pose proof (store_ok w b k x ltac:(lia) ltac:(nia)) as Hst.
    rewrite Hst. cbn [bindR]. eexists. split; [reflexivity|].
    unfold P. cbn [fst]. split; [rewrite (length_store _ _ _ _ _ Hst); exact Hl|].
    intros i Hi. destruct (Z.eq_dec i k) as [->|Hne].
    + exists x. rewrite (load_store_same _ _ _ _ _ Hst), Hwr. auto.
    + rewrite (load_store_other _ _ _ _ _ _ Hst) by lia. apply Hprev. lia.
  - exists buf', g'. split; [exact Hrun|].
    intros i Hi. apply Hall. lia.
Qed.

(** X30.  When [rand] returns no negative number and [low < high] are
    [int]s whose difference is an [int], every element of
    [randint(low, high, shape)] lies in [low, high); with [high = low] the
    remainder is taken by zero, and the call is undefined for a tensor that
    is not empty. *)
Theorem tensr_randint_range (low high : Z) (shp : list Z) (nd : Z) (dev : TensrDevice)
  (now : Z) (g : Rng rand_state) (j0 j1 j2 j3 : nat -> byte) (h : Heap) :
  (forall s, 0 <= fst (libc_rand s)) ->
  1 <= nd < 2 ^ 31 ->
  Z.of_nat (length shp) = nd ->
  size_t (product shp) * 4 < 2 ^ 64 ->
  - 2 ^ 31 <= low -> high < 2 ^ 31 ->
  let heap := Some j0 :: Some j1 :: Some j2 :: Some j3 :: h in
  (low < high -> high - low < 2 ^ 31 ->
   exists t g',
     tensr_randint rand_state libc_srand libc_rand low high shp nd dev now g heap
     = Ret (Some t, g', h)
     /\ ndim t = nd /\ shape t = shp /\ size t = size_t (product shp)
     /\ dtype t = TENSR_INT32 /\ device t = dev
     /\ forall i, 0 <= i < size t ->
          exists x, elem t i = Ret x /\ low <= signed 32 x < high)
  /\ (high = low -> 0 < size_t (product shp) ->
      tensr_randint rand_state libc_srand libc_rand low high shp nd dev now g heap
      = Undef).
Proof.
  intros Hrand Hnd Hlen Hfit Hlow Hhigh heap.
  destruct (created_buffer shp nd TENSR_INT32 dev j0 j1 j2 j3 h Hnd Hlen Hfit
              ltac:(vm_compute; discriminate))
    as (t & Hc & Hn & Hs & Hsz & Hd & Hdev & _ & _ & Hbuf).
  change (tensr_dtype_size TENSR_INT32) with 4 in Hbuf.
  split.
  - intros Hlt Hfits.
    assert (Hrange : to_int (high - low) = high - low) by (apply to_int_small; lia).
    destruct (fill_random_ok 4 (size t)
                (fun g0 => let '(r, g1) := c_rand rand_state libc_rand g0 in
                           if to_int (high - low) =? 0 then Undef
                           else Ret ((low + Z.rem r (to_int (high - low))) mod 2 ^ 32, g1))
                (fun x => low <= signed 32 x < high)
                (data t) (ensure_seeded rand_state libc_srand now g))
      as (buf & g' & Hrun & Hall).
    + intros g0. unfold c_rand.
      pose proof (Hrand (libc rand_state g0)) as Hr.
      destruct (libc_rand (libc rand_state g0)) as [r l]. cbn [fst] in Hr.
      rewrite Hrange. rewrite (proj2 (Z.eqb_neq _ _)) by lia.
      do 2 eexists. split; [reflexivity|].
      pose proof (Z.rem_bound_pos r (high - low) Hr ltac:(lia)) as Hb.
      split.
      * rewrite signed_wrapped by lia. lia.
      * apply Z.mod_mod. discriminate.
    + lia.
    + exists (set_data t buf), g'. split.
      * unfold tensr_randint, random_tensor, bind. subst heap. rewrite Hc.
        unfold lift. rewrite Hrun. reflexivity.
      * cbn [set_data ndim shape size dtype device]. repeat split; try assumption.
        intros i Hi. unfold elem. cbn [set_data dtype data]. rewrite Hd.
        now apply Hall.
  - intros -> Hpos.
    unfold tensr_randint, random_tensor, bind. subst heap. rewrite Hc.
    unfold lift, fill_random. rewrite Z.sub_diag.
    change (to_int 0 =? 0) with true.
    destruct (Z.to_nat (size t)) as [|k] eqn:E; [lia|]. cbn [for_loop].
    unfold c_rand. destruct (libc_rand (libc rand_state _)). reflexivity.
Qed.

End RandomRange.

Lemma lcg_rand_nonnegative (s : Z) : 0 <= fst (lcg_rand s).
Proof. unfold lcg_rand. cbn [fst]. apply Z.mod_pos_bound. reflexivity. Qed.

Lemma tensr_randint_range_witness :
  (exists t g',
     tensr_randint Z lcg_srand lcg_rand 0 10 [3; 3] 2 TENSR_CPU 1000
       (lcg_seed 42 program_start) (zero_heap 4) = Ret (Some t, g', [])
     /\ shape t = [3; 3]
     /\ forall i, 0 <= i < size t ->
          exists x, elem t i = Ret x /\ 0 <= signed 32 x < 10)
  /\ tensr_randint Z lcg_srand lcg_rand 5 5 [3; 3] 2 TENSR_CPU 1000
       (lcg_seed 42 program_start) (zero_heap 4) = Undef.
Proof.
  split.
  - destruct (proj1 (tensr_randint_range Z lcg_srand lcg_rand 0 10 [3; 3] 2 TENSR_CPU
                       1000 (lcg_seed 42 program_start)
                       zero_junk zero_junk zero_junk zero_junk []
                       lcg_rand_nonnegative ltac:(lia) eq_refl
                       ltac:(vm_compute; reflexivity) ltac:(lia) ltac:(lia))
                ltac:(lia) ltac:(lia))
      as (t & g' & Hrun & _ & Hs & _ & _ & _ & Hall).
    exists t, g'. auto.
  - apply (proj2 (tensr_randint_range Z lcg_srand lcg_rand 5 5 [3; 3] 2 TENSR_CPU
                    1000 (lcg_seed 42 program_start)
                    zero_junk zero_junk zero_junk zero_junk []
                    lcg_rand_nonnegative ltac:(lia) eq_refl
                    ltac:(vm_compute; reflexivity) ltac:(lia) ltac:(lia))).
    + reflexivity.
    + vm_compute. reflexivity.
Defined.
